(** * SCORM-LTI proxy: the trust and protocol layer

    A shallow embedding of the OAuth 1.0a signer/verifier
    (services/lti-provider.ts), the manifest launch-path resolution
    (services/content-manager.ts), the dispatch package generator
    (services/dispatch-generator.ts), the LTI outcomes and xAPI clients
    (services/lti-outcomes.ts, services/xapi-client.ts) and the request
    handlers of routes/lti.ts and routes/scorm-api.ts, with the properties
    the specification states about them. *)

From Stdlib Require Import String Ascii ZArith List Bool Lia.
From Stdlib Require Import Permutation Sorted SpecFloat.
Import ListNotations.
Local Open Scope Z_scope.

(** ** JavaScript strings

    A JavaScript string is a sequence of UTF-16 code units. *)

Definition jsstring := list Z.

(** An ASCII literal of the source text, as a JavaScript string. *)
Definition lit (s : string) : jsstring :=
  map (fun a => Z.of_N (N_of_ascii a)) (list_ascii_of_string s).

Fixpoint jseqb (a b : jsstring) : bool :=
  match a, b with
  | [], [] => true
  | x :: a', y :: b' => (x =? y) && jseqb a' b'
  | _, _ => false
  end.

(** [a < b] on strings, as the relational operators and the default
    [Array.prototype.sort] comparator see it: code unit by code unit. *)
Fixpoint jsltb (a b : jsstring) : bool :=
  match a, b with
  | _, [] => false
  | [], _ :: _ => true
  | x :: a', y :: b' => (x <? y) || ((x =? y) && jsltb a' b')
  end.

(** Truthiness of a string value: every string but the empty one. *)
Definition truthy (s : jsstring) : bool :=
  match s with [] => false | _ :: _ => true end.

(** Truthiness of a possibly undefined string. *)
Definition truthy_opt (o : option jsstring) : bool :=
  match o with Some s => truthy s | None => false end.

(** [a || b] on possibly undefined strings. *)
Definition or_else (o : option jsstring) (d : jsstring) : jsstring :=
  match o with
  | Some s => if truthy s then s else d
  | None => d
  end.

(** [Array.prototype.join] with a separator. *)
Fixpoint join (sep : jsstring) (l : list jsstring) : jsstring :=
  match l with
  | [] => []
  | [x] => x
  | x :: rest => x ++ sep ++ join sep rest
  end.

(** [String.prototype.replace] with a global pattern that matches the single
    code unit [c] and a replacement string without [$]. *)
Definition replaceAll (c : Z) (by_ : jsstring) (s : jsstring) : jsstring :=
  flat_map (fun x => if x =? c then by_ else [x]) s.

(** ** Exceptions *)

Inductive exn : Type :=
| TypeError_InvalidURL
| URIError_malformed
| RangeError_byteLength
| Error (msg : jsstring).

(** The exceptions of the platform functions that canonicalise a request. *)
Definition canonicalisation_error (e : exn) : Prop :=
  e = URIError_malformed \/ e = TypeError_InvalidURL.

Inductive result (A : Type) : Type :=
| Ok (a : A)
| Throw (e : exn).
Arguments Ok {A} a.
Arguments Throw {A} e.

Definition rbind {A B} (r : result A) (k : A -> result B) : result B :=
  match r with
  | Ok a => k a
  | Throw e => Throw e
  end.

Notation "x <- r ;; k" := (rbind r (fun x => k))
  (at level 61, r at next level, right associativity).

(** ** UTF-8 *)

Definition is_high_surrogate (c : Z) : bool := (55296 <=? c) && (c <=? 56319).
Definition is_low_surrogate (c : Z) : bool := (56320 <=? c) && (c <=? 57343).

(** The UTF-8 bytes of a code point. *)
Definition utf8_of_code_point (cp : Z) : list Z :=
  if cp <? 128 then [cp]
  else if cp <? 2048 then [192 + cp / 64; 128 + cp mod 64]
  else if cp <? 65536 then
    [224 + cp / 4096; 128 + (cp / 64) mod 64; 128 + cp mod 64]
  else
    [240 + (cp / 262144) mod 8; 128 + (cp / 4096) mod 64;
     128 + (cp / 64) mod 64; 128 + cp mod 64].

Definition code_point_of_pair (hi lo : Z) : Z :=
  65536 + (hi - 55296) * 1024 + (lo - 56320).

(** [Buffer.from(s)] and the encoding of a string handed to
    [Hmac.update] / [Hash.update]: UTF-8, an unpaired surrogate encoded as
    U+FFFD. *)
Fixpoint utf8 (s : jsstring) : list Z :=
  match s with
  | [] => []
  | c :: rest =>
      if is_high_surrogate c then
        match rest with
        | d :: rest' =>
            if is_low_surrogate d
            then utf8_of_code_point (code_point_of_pair c d) ++ utf8 rest'
            else [239; 191; 189] ++ utf8 rest
        | [] => [239; 191; 189]
        end
      else if is_low_surrogate c then [239; 191; 189] ++ utf8 rest
      else utf8_of_code_point c ++ utf8 rest
  end.

(** Text of the ASCII range. *)
Definition ascii_text (s : list Z) : Prop := Forall (fun c => 0 <= c < 128) s.

(** ** The hash primitives of the [crypto] module

    SHA-1 (FIPS 180-4) on 32-bit words kept in [Z], HMAC (RFC 2104) and the
    base64 digest encoding (RFC 4648, with padding). *)

Definition w32 (x : Z) : Z := x mod 4294967296.

Definition rotl32 (n x : Z) : Z :=
  w32 (Z.lor (Z.shiftl x n) (Z.shiftr x (32 - n))).

Definition not32 (x : Z) : Z := 4294967295 - x.

(** Big-endian bytes of a [n]-byte unsigned integer. *)
Fixpoint be_bytes (n : nat) (x : Z) : list Z :=
  match n with
  | O => []
  | S n' => (x / 256 ^ Z.of_nat n') mod 256 :: be_bytes n' x
  end.

Definition sha1_pad (msg : list Z) : list Z :=
  let len := Z.of_nat (length msg) in
  let zeros := Z.to_nat ((55 - len) mod 64) in
  msg ++ [128] ++ repeat 0 zeros ++ be_bytes 8 ((8 * len) mod 2 ^ 64).

(** The 32-bit words of a byte string, big-endian; a trailing group of fewer
    than four bytes is dropped (padded input has none). *)
Fixpoint words_of_bytes (fuel : nat) (bs : list Z) : list Z :=
  match fuel with
  | O => []
  | S fuel' =>
      match bs with
      | a :: b :: c :: d :: rest =>
          (((a * 256 + b) * 256 + c) * 256 + d) :: words_of_bytes fuel' rest
      | _ => []
      end
  end.

(** The message schedule, most recent word first: [rev_w] holds
    [W(t-1), W(t-2), ...]. *)
Fixpoint sha1_extend (n : nat) (rev_w : list Z) : list Z :=
  match n with
  | O => rev_w
  | S n' =>
      let w := rotl32 1 (Z.lxor (Z.lxor (nth 2 rev_w 0) (nth 7 rev_w 0))
                                (Z.lxor (nth 13 rev_w 0) (nth 15 rev_w 0))) in
      sha1_extend n' (w :: rev_w)
  end.

Definition sha1_schedule (block : list Z) : list Z :=
  rev (sha1_extend 64 (rev block)).

Record sha1_state : Type := mkSha1 { hA : Z; hB : Z; hC : Z; hD : Z; hE : Z }.

Definition sha1_f (t : nat) (b c d : Z) : Z :=
  if (t <? 20)%nat then Z.lor (Z.land b c) (Z.land (not32 b) d)
  else if (t <? 40)%nat then Z.lxor (Z.lxor b c) d
  else if (t <? 60)%nat then
    Z.lor (Z.lor (Z.land b c) (Z.land b d)) (Z.land c d)
  else Z.lxor (Z.lxor b c) d.

Definition sha1_k (t : nat) : Z :=
  if (t <? 20)%nat then 1518500249
  else if (t <? 40)%nat then 1859775393
  else if (t <? 60)%nat then 2400959708
  else 3395469782.

Definition sha1_round (st : sha1_state) (tw : nat * Z) : sha1_state :=
  let '(t, w) := tw in
  let tmp := w32 (rotl32 5 (hA st) + sha1_f t (hB st) (hC st) (hD st)
                  + hE st + sha1_k t + w) in
  mkSha1 tmp (hA st) (rotl32 30 (hB st)) (hC st) (hD st).

Definition sha1_compress (h : sha1_state) (block : list Z) : sha1_state :=
  let ws := sha1_schedule block in
  let r := fold_left sha1_round (combine (seq 0 80) ws) h in
  mkSha1 (w32 (hA h + hA r)) (w32 (hB h + hB r)) (w32 (hC h + hC r))
         (w32 (hD h + hD r)) (w32 (hE h + hE r)).

Fixpoint sha1_blocks (fuel : nat) (h : sha1_state) (ws : list Z) : sha1_state :=
  match fuel with
  | O => h
  | S fuel' =>
      match ws with
      | [] => h
      | _ => sha1_blocks fuel' (sha1_compress h (firstn 16 ws)) (skipn 16 ws)
      end
  end.

Definition sha1_init : sha1_state :=
  mkSha1 1732584193 4023233417 2562383102 271733878 3285377520.

(** The 20-byte SHA-1 digest of a byte string. *)
Definition sha1 (msg : list Z) : list Z :=
  let padded := sha1_pad msg in
  let ws := words_of_bytes (length padded) padded in
  let h := sha1_blocks (length ws) sha1_init ws in
  be_bytes 4 (hA h) ++ be_bytes 4 (hB h) ++ be_bytes 4 (hC h)
    ++ be_bytes 4 (hD h) ++ be_bytes 4 (hE h).

Fixpoint xor_pad (p : Z) (key : list Z) (n : nat) : list Z :=
  match n with
  | O => []
  | S n' =>
      match key with
      | [] => Z.lxor 0 p :: xor_pad p [] n'
      | k :: key' => Z.lxor k p :: xor_pad p key' n'
      end
  end.

(** HMAC-SHA1 of [msg] under [key]: a key longer than the 64-byte block is
    hashed first. *)
Definition hmac_sha1 (key msg : list Z) : list Z :=
  let key' := if (64 <? length key)%nat then sha1 key else key in
  sha1 (xor_pad 92 key' 64 ++ sha1 (xor_pad 54 key' 64 ++ msg)).

Definition base64_alphabet : jsstring :=
  lit "ABCDEFGHIJKLMNOPQRSTUVWXYZabcdefghijklmnopqrstuvwxyz0123456789+/".

Definition base64_char (i : Z) : Z := nth (Z.to_nat (i mod 64)) base64_alphabet 65.

Fixpoint base64 (bs : list Z) : jsstring :=
  match bs with
  | [] => []
  | [a] => [base64_char (a / 4); base64_char ((a mod 4) * 16); 61; 61]
  | [a; b] =>
      [base64_char (a / 4); base64_char ((a mod 4) * 16 + b / 16);
       base64_char ((b mod 16) * 4); 61]
  | a :: b :: c :: rest =>
      base64_char (a / 4) :: base64_char ((a mod 4) * 16 + b / 16)
        :: base64_char ((b mod 16) * 4 + c / 64) :: base64_char (c mod 64)
        :: base64 rest
  end.

(** [crypto.createHmac('sha1', key).update(data).digest('base64')] with a
    string key and string data. *)
Definition hmac_sha1_base64 (key data : jsstring) : jsstring :=
  base64 (hmac_sha1 (utf8 key) (utf8 data)).

Arguments hmac_sha1_base64 : simpl never.

(** [crypto.createHash('sha1').update(body).digest('base64')]. *)
Definition sha1_base64 (body : jsstring) : jsstring :=
  base64 (sha1 (utf8 body)).

Arguments sha1_base64 : simpl never.

(** Lower-case hexadecimal text of a byte string ([digest('hex')]). *)
Definition hex_of_bytes (bs : list Z) : jsstring :=
  flat_map (fun b => [nth (Z.to_nat (b / 16)) (lit "0123456789abcdef") 48;
                      nth (Z.to_nat (b mod 16)) (lit "0123456789abcdef") 48]) bs.

(** ** Objects used as string maps

    A [Record<string, string>] is kept as its list of own properties in
    enumeration order; a well-formed object binds each key once. *)

Definition strmap := list (jsstring * jsstring).

(** [o[k]] / [o.k]: the value or [undefined]. *)
Fixpoint prop_get (o : strmap) (k : jsstring) : option jsstring :=
  match o with
  | [] => None
  | (k', v) :: o' => if jseqb k' k then Some v else prop_get o' k
  end.

(** [o[k] = v]: an existing property keeps its place, a new one goes last. *)
Fixpoint prop_set (o : strmap) (k v : jsstring) : strmap :=
  match o with
  | [] => [(k, v)]
  | (k', v') :: o' =>
      if jseqb k' k then (k', v) :: o' else (k', v') :: prop_set o' k v
  end.

(** [delete o[k]]. *)
Definition prop_delete (o : strmap) (k : jsstring) : strmap :=
  filter (fun kv => negb (jseqb (fst kv) k)) o.

Definition Object_keys (o : strmap) : list jsstring := map fst o.

Definition wf_strmap (o : strmap) : Prop := NoDup (map fst o).

Fixpoint distinct (l : list jsstring) : bool :=
  match l with
  | [] => true
  | k :: rest => negb (existsb (jseqb k) rest) && distinct rest
  end.

(** [Array.prototype.sort()] without a comparator, on strings. *)
Fixpoint sort_insert (k : jsstring) (l : list jsstring) : list jsstring :=
  match l with
  | [] => [k]
  | x :: rest => if jsltb x k then x :: sort_insert k rest else k :: l
  end.

Definition sort (l : list jsstring) : list jsstring :=
  fold_right sort_insert [] l.

(** [a <= b]: [b] does not come before [a]. *)
Definition jsle (a b : jsstring) : Prop := jsltb b a = false.

Definition ascending (l : list jsstring) : Prop := StronglySorted jsle l.

(** ** The platform

    The URL class and the Unicode case mappings belong to the JavaScript
    runtime; the development is parametric in them. *)

Record URL : Type := mkURL {
  protocol : jsstring;   (* scheme with its colon *)
  hostname : jsstring;
  port : jsstring;       (* empty when the port is the scheme's default *)
  pathname : jsstring
}.

(** The [host] getter: the host name, and the port when there is one. *)
Definition host (u : URL) : jsstring :=
  if truthy (port u) then hostname u ++ lit ":" ++ port u else hostname u.

(** [u.port = ''] *)
Definition clear_port (u : URL) : URL :=
  mkURL (protocol u) (hostname u) [] (pathname u).

Class Runtime : Type := {
  (** [new URL(s)]; [None] is the TypeError of an input that does not parse *)
  URL_parse : jsstring -> option URL;
  toUpperCase : jsstring -> jsstring;
  toLowerCase : jsstring -> jsstring
}.

(** ** Percent-encoding *)

Definition in_range (lo hi c : Z) : bool := (lo <=? c) && (c <=? hi).

Definition mem_codes (c : Z) (s : jsstring) : bool := existsb (Z.eqb c) s.

(** The characters [encodeURIComponent] leaves alone. *)
Definition uri_unescaped (c : Z) : bool :=
  in_range 65 90 c || in_range 97 122 c || in_range 48 57 c
  || mem_codes c (lit "-_.!~*'()").

Definition hex_upper (d : Z) : Z := nth (Z.to_nat d) (lit "0123456789ABCDEF") 48.

Definition percent_byte (b : Z) : jsstring :=
  [37; hex_upper (b / 16); hex_upper (b mod 16)].

Definition percent_utf8 (cp : Z) : jsstring :=
  flat_map percent_byte (utf8_of_code_point cp).

(** [encodeURIComponent]: URIError on an unpaired surrogate. *)
Fixpoint encodeURIComponent (s : jsstring) : result jsstring :=
  match s with
  | [] => Ok []
  | c :: rest =>
      if uri_unescaped c then
        r <- encodeURIComponent rest ;; Ok (c :: r)
      else if is_low_surrogate c then Throw URIError_malformed
      else if is_high_surrogate c then
        match rest with
        | d :: rest' =>
            if is_low_surrogate d then
              r <- encodeURIComponent rest' ;;
              Ok (percent_utf8 (code_point_of_pair c d) ++ r)
            else Throw URIError_malformed
        | [] => Throw URIError_malformed
        end
      else
        r <- encodeURIComponent rest ;; Ok (percent_utf8 c ++ r)
  end.

(** [n.toString(16)] for a non-negative integer. *)
Fixpoint toString16_aux (fuel : nat) (n : Z) (acc : jsstring) : jsstring :=
  match fuel with
  | O => acc
  | S fuel' =>
      let d := nth (Z.to_nat (n mod 16)) (lit "0123456789abcdef") 48 in
      if n <? 16 then d :: acc else toString16_aux fuel' (n / 16) (d :: acc)
  end.

Definition toString16 (n : Z) : jsstring :=
  toString16_aux (S (Z.to_nat (Z.log2 n))) n [].

Section OAuth.
Context {rt : Runtime}.

(** RFC 3986 percent-encoding (lti-provider.ts and lti-outcomes.ts). *)
Definition encodeRfc3986 (str : jsstring) : result jsstring :=
  e <- encodeURIComponent str ;;
  Ok (flat_map (fun c => if mem_codes c (lit "!'()*")
                         then lit "%" ++ toUpperCase (toString16 c)
                         else [c]) e).

(** Normalizes URL for OAuth signature. *)
Definition normalizeUrl (url : jsstring) : result jsstring :=
  match URL_parse url with
  | None => Throw TypeError_InvalidURL
  | Some parsed =>
      let parsed :=
        if (jseqb (protocol parsed) (lit "http:") && jseqb (port parsed) (lit "80"))
           || (jseqb (protocol parsed) (lit "https:") && jseqb (port parsed) (lit "443"))
        then clear_port parsed else parsed in
      Ok (protocol parsed ++ lit "//" ++ host parsed ++ pathname parsed)
  end.

(** The [map] callback of [buildBaseString], run over the sorted keys in
    order; the first failing key stops the run. *)
Fixpoint encode_pairs (filteredParams : strmap) (keys : list jsstring)
  : result (list jsstring) :=
  match keys with
  | [] => Ok []
  | key :: rest =>
      k <- encodeRfc3986 key ;;
      v <- encodeRfc3986 (match prop_get filteredParams key with
                          | Some v => v
                          | None => lit "undefined"
                          end) ;;
      r <- encode_pairs filteredParams rest ;;
      Ok ((k ++ lit "=" ++ v) :: r)
  end.

(** Builds OAuth base string for signature calculation. *)
Definition buildBaseString (method url : jsstring) (params : strmap)
  : result jsstring :=
  let filteredParams := prop_delete params (lit "oauth_signature") in
  let sortedKeys := sort (Object_keys filteredParams) in
  pairs <- encode_pairs filteredParams sortedKeys ;;
  let paramString := join (lit "&") pairs in
  n <- normalizeUrl url ;;
  u <- encodeRfc3986 n ;;
  p <- encodeRfc3986 paramString ;;
  Ok (join (lit "&") [toUpperCase method; u; p]).

(** The text [s] stands for the property [k] of [params] in the parameter
    string: encoded key, [=], encoded value. *)
Definition pair_text (params : strmap) (k s : jsstring) : Prop :=
  exists v ek ev,
    prop_get params k = Some v /\ encodeRfc3986 k = Ok ek
    /\ encodeRfc3986 v = Ok ev /\ s = ek ++ lit "=" ++ ev.

(** Signs a request with OAuth 1.0a. *)
Definition signRequest (method url : jsstring) (params : strmap)
    (consumerSecret : jsstring) : result jsstring :=
  baseString <- buildBaseString method url params ;;
  s <- encodeURIComponent consumerSecret ;;
  let signingKey := s ++ lit "&" in
  Ok (hmac_sha1_base64 signingKey baseString).

(** [crypto.timingSafeEqual]: a RangeError when the byte lengths differ. *)
Definition timingSafeEqual (a b : list Z) : result bool :=
  if (length a =? length b)%nat then Ok (jseqb a b)
  else Throw RangeError_byteLength.

(** Validates an LTI 1.1 OAuth signature. *)
Definition validateLtiLaunch (params : strmap) (consumerSecret url : jsstring)
  : result bool :=
  match prop_get params (lit "oauth_signature") with
  | None => Ok false
  | Some signature =>
      if negb (truthy signature) then Ok false
      else
        baseString <- buildBaseString (lit "POST") url params ;;
        s <- encodeURIComponent consumerSecret ;;
        let signingKey := s ++ lit "&" in
        let expectedSignature := hmac_sha1_base64 signingKey baseString in
        match timingSafeEqual (utf8 signature) (utf8 expectedSignature) with
        | Ok b => Ok b
        | Throw _ => Ok false
        end
  end.

End OAuth.

(** *** The base string in the words of the specification

    The remaining parameters are percent-encoded first and then ordered by
    encoded key, then encoded value. *)

Definition pair_ltb (a b : jsstring * jsstring) : bool :=
  jsltb (fst a) (fst b) || (jseqb (fst a) (fst b) && jsltb (snd a) (snd b)).

Fixpoint pair_insert (p : jsstring * jsstring) (l : list (jsstring * jsstring))
  : list (jsstring * jsstring) :=
  match l with
  | [] => [p]
  | x :: rest => if pair_ltb x p then x :: pair_insert p rest else p :: l
  end.

Section OAuthSpec.
Context {rt : Runtime}.

Fixpoint spec_encode_all (ps : strmap) : result (list (jsstring * jsstring)) :=
  match ps with
  | [] => Ok []
  | (k, v) :: rest =>
      ek <- encodeRfc3986 k ;;
      ev <- encodeRfc3986 v ;;
      r <- spec_encode_all rest ;;
      Ok ((ek, ev) :: r)
  end.

Definition spec_buildBaseString (method url : jsstring) (params : strmap)
  : result jsstring :=
  enc <- spec_encode_all (prop_delete params (lit "oauth_signature")) ;;
  let ordered := fold_right pair_insert [] enc in
  let paramString :=
    join (lit "&") (map (fun kv => fst kv ++ lit "=" ++ snd kv) ordered) in
  n <- normalizeUrl url ;;
  u <- encodeRfc3986 n ;;
  p <- encodeRfc3986 paramString ;;
  Ok (join (lit "&") [toUpperCase method; u; p]).

End OAuthSpec.

(** ** A sample platform

    Case mappings on the ASCII letters, and the URL class on absolute
    [http]/[https] URLs written in plain form: lower-case scheme, a dotted
    host of lower-case letters and digits whose last label starts with a
    letter, an optional decimal port, a path of unreserved characters
    without dot segments, then an optional query or fragment.  On these
    inputs the components are the ones the URL class reports; every other
    input is refused.  It instantiates [Runtime] in the examples. *)

Definition ascii_upper (s : jsstring) : jsstring :=
  map (fun c => if in_range 97 122 c then c - 32 else c) s.

Definition ascii_lower (s : jsstring) : jsstring :=
  map (fun c => if in_range 65 90 c then c + 32 else c) s.

Fixpoint strip_prefix (p s : jsstring) : option jsstring :=
  match p, s with
  | [], _ => Some s
  | x :: p', y :: s' => if x =? y then strip_prefix p' s' else None
  | _ :: _, [] => None
  end.

(** The longest prefix free of the code units of [stops], and the rest. *)
Fixpoint break_at (stops : jsstring) (s : jsstring) : jsstring * jsstring :=
  match s with
  | [] => ([], [])
  | c :: rest =>
      if mem_codes c stops then ([], s)
      else let '(a, b) := break_at stops rest in (c :: a, b)
  end.

Fixpoint split_on (sep : Z) (s : jsstring) : list jsstring :=
  match s with
  | [] => [[]]
  | c :: rest =>
      match split_on sep rest with
      | seg :: segs => if c =? sep then [] :: seg :: segs else (c :: seg) :: segs
      | [] => [[c]]
      end
  end.

Definition is_lower_alnum (c : Z) : bool := in_range 97 122 c || in_range 48 57 c.

Definition plain_host (h : jsstring) : bool :=
  let labels := split_on 46 h in
  forallb (fun l => truthy l && forallb is_lower_alnum l) labels
  && match last labels [] with
     | c :: _ => in_range 97 122 c
     | [] => false
     end.

Definition decimal_value (ds : jsstring) : Z :=
  fold_left (fun acc d => acc * 10 + (d - 48)) ds 0.

Definition plain_port (scheme ds : jsstring) : option jsstring :=
  match ds with
  | [] => None
  | d :: _ =>
      if forallb (in_range 48 57) ds && negb (d =? 48)
         && (length ds <=? 5)%nat && (decimal_value ds <=? 65535)
      then
        let default := if jseqb scheme (lit "https:") then 443 else 80 in
        Some (if decimal_value ds =? default then [] else ds)
      else None
  end.

Definition plain_segment (seg : jsstring) : bool :=
  forallb (fun c => in_range 65 90 c || in_range 97 122 c || in_range 48 57 c
                    || mem_codes c (lit "-._~")) seg
  && negb (jseqb seg (lit ".")) && negb (jseqb seg (lit "..")).

Definition plain_url_parse (s : jsstring) : option URL :=
  let scheme_rest :=
    match strip_prefix (lit "https://") s with
    | Some r => Some (lit "https:", r)
    | None =>
        match strip_prefix (lit "http://") s with
        | Some r => Some (lit "http:", r)
        | None => None
        end
    end in
  match scheme_rest with
  | None => None
  | Some (scheme, r) =>
      let '(authority, after) := break_at (lit "/?#") r in
      let '(h, p) := break_at (lit ":") authority in
      let '(path, _) := break_at (lit "?#") after in
      let port_ := match p with
                   | [] => Some []
                   | _ :: ds => plain_port scheme ds
                   end in
      match port_ with
      | None => None
      | Some pt =>
          if plain_host h && forallb plain_segment (split_on 47 path)
          then Some (mkURL scheme h pt (if truthy path then path else lit "/"))
          else None
      end
  end.

#[export] Instance sample_runtime : Runtime := {|
  URL_parse := plain_url_parse;
  toUpperCase := ascii_upper;
  toLowerCase := ascii_lower
|}.


(** ** Numbers

    A JavaScript number is an IEEE 754 binary64 value; the operations are the
    ones of [SpecFloat] at precision 53 and maximal exponent 1024. *)

Definition number := spec_float.

Definition NaN : number := S754_nan.
Definition fmul : number -> number -> number := SFmul 53 1024.
Definition fdiv : number -> number -> number := SFdiv 53 1024.

(** The number written by an integer literal. *)
Definition num (z : Z) : number := binary_normalize 53 1024 z 0 false.

Definition is_nan (x : number) : bool :=
  match x with S754_nan => true | _ => false end.

(** [Math.min] and [Math.max] of two numbers: NaN if either is, and
    [-0 < +0]. *)
Definition Math_min (a b : number) : number :=
  if is_nan a || is_nan b then NaN
  else match SFcompare a b with
       | Some Lt => a
       | Some Gt => b
       | _ => match b with S754_zero true => b | _ => a end
       end.

Definition Math_max (a b : number) : number :=
  if is_nan a || is_nan b then NaN
  else match SFcompare a b with
       | Some Lt => b
       | Some Gt => a
       | _ => match a with S754_zero true => b | _ => a end
       end.

(** [Math.round]: the nearest integer, a tie going up. *)
Definition Math_round (x : number) : number :=
  match x with
  | S754_finite s m e =>
      if 0 <=? e then x
      else
        let den := 2 ^ (1 - e) in
        let twice := if s then - (2 * Z.pos m) else 2 * Z.pos m in
        let n := (2 * twice + den) / (2 * den) in
        if n =? 0 then S754_zero s else binary_normalize 53 1024 n 0 false
  | _ => x
  end.

(** A binary64 value: a finite number has its canonical mantissa and
    exponent. *)
Definition is_binary64 (x : number) : bool := valid_binary 53 1024 x.

(** [StrWhiteSpaceChar]: white space and line terminators. *)
Definition is_js_whitespace (c : Z) : bool :=
  in_range 9 13 c || (c =? 32) || (c =? 160) || (c =? 5760)
  || in_range 8192 8202 c || (c =? 8232) || (c =? 8233) || (c =? 8239)
  || (c =? 8287) || (c =? 12288) || (c =? 65279).

Fixpoint trimStart (s : jsstring) : jsstring :=
  match s with
  | c :: rest => if is_js_whitespace c then trimStart rest else s
  | [] => []
  end.

Definition is_digit (c : Z) : bool := in_range 48 57 c.

(** The longest prefix of decimal digits, and the rest. *)
Fixpoint span_digits (s : jsstring) : jsstring * jsstring :=
  match s with
  | c :: rest =>
      if is_digit c then let '(ds, r) := span_digits rest in (c :: ds, r)
      else ([], s)
  | [] => ([], [])
  end.

(** The value of an [ExponentPart] at the head of [s], when there is one. *)
Definition exponent_part (s : jsstring) : Z :=
  match s with
  | c :: rest =>
      if (c =? 101) || (c =? 69) then
        let '(neg, rest') :=
          match rest with
          | sg :: r => if sg =? 45 then (true, r)
                       else if sg =? 43 then (false, r) else (false, rest)
          | [] => (false, rest)
          end in
        let '(ds, _) := span_digits rest' in
        match ds with
        | [] => 0
        | _ => if neg then - decimal_value ds else decimal_value ds
        end
      else 0
  | [] => 0
  end.

(** The binary64 value nearest to [m * 10^e10] (ties to even), for [m > 0]. *)
Definition decimal_to_number (neg : bool) (m : positive) (e10 : Z) : number :=
  if 0 <=? e10 then
    SFdiv 53 1024 (S754_finite neg (Z.to_pos (Z.pos m * 10 ^ e10)) 0)
                  (S754_finite false 1 0)
  else
    SFdiv 53 1024 (S754_finite neg m 0)
                  (S754_finite false (Z.to_pos (10 ^ (- e10))) 0).

(** [parseFloat]: leading white space is skipped, the longest prefix that is
    a [StrDecimalLiteral] is read, NaN when there is none. *)
Definition parseFloat (str : jsstring) : number :=
  let trimmed := trimStart str in
  let '(neg, body) :=
    match trimmed with
    | c :: r => if c =? 45 then (true, r)
                else if c =? 43 then (false, r) else (false, trimmed)
    | [] => (false, trimmed)
    end in
  match strip_prefix (lit "Infinity") body with
  | Some _ => S754_infinity neg
  | None =>
      let '(ip, r1) := span_digits body in
      let '(fp, r2) :=
        match r1 with
        | c :: r => if c =? 46 then span_digits r else ([], r1)
        | [] => ([], r1)
        end in
      match ip ++ fp with
      | [] => NaN
      | ds =>
          match decimal_value ds with
          | Z.pos m =>
              decimal_to_number neg m (exponent_part r2 - Z.of_nat (length fp))
          | _ => S754_zero neg
          end
      end
  end.

(** [n.toString()] for an integer. *)
Fixpoint digits10 (fuel : nat) (n : Z) (acc : jsstring) : jsstring :=
  match fuel with
  | O => acc
  | S fuel' =>
      if n <? 10 then (48 + n) :: acc
      else digits10 fuel' (n / 10) ((48 + n mod 10) :: acc)
  end.

Definition toString10 (n : Z) : jsstring :=
  if n <? 0 then 45 :: digits10 (S (Z.to_nat (Z.log2 (- n)))) (- n) []
  else digits10 (S (Z.to_nat (Z.log2 n))) n [].

(** The integer [n] for which [n / 100 - x] is closest to zero, the larger
    one of two, for a finite [x = m * 2^e >= 0]. *)
Definition hundredths (m : positive) (e : Z) : Z :=
  if 0 <=? e then Z.pos m * 2 ^ e * 100
  else (200 * Z.pos m + 2 ^ (- e)) / 2 ^ (1 - e).

Definition fixed2_text (n : Z) : jsstring :=
  toString10 (n / 100) ++ [46; 48 + (n / 10) mod 10; 48 + n mod 10].

(** [x.toFixed(2)] for NaN, the infinities and the magnitudes below
    [10^21]; the larger finite magnitudes, which [toFixed] prints in
    exponent form, are outside this model ([None]). *)
Definition toFixed2 (x : number) : option jsstring :=
  match x with
  | S754_nan => Some (lit "NaN")
  | S754_infinity s => Some (if s then lit "-Infinity" else lit "Infinity")
  | S754_zero _ => Some (lit "0.00")
  | S754_finite s m e =>
      let n := hundredths m e in
      if 10 ^ 23 <=? n then None
      else Some ((if s then [45] else []) ++ fixed2_text n)
  end.

(** The hundredths nearest to a number clamped to the interval from 0 to 1,
    in the words of the specification: 0 below the interval, 100 above it,
    the nearest count of hundredths inside. *)
Definition clamped_hundredths (x : number) : Z :=
  match x with
  | S754_finite false m e =>
      match SFcompare (num 1) x with
      | Some Gt => hundredths m e
      | _ => 100
      end
  | S754_infinity false => 100
  | _ => 0
  end.

(** ** The score column

    A number that is a parameter of a statement is sent by node-pg as its
    text, [val.toString()].  The engine reads the text as a numeric and fits
    it to the column [score DECIMAL(5,2)]: the value is rounded to two
    decimal places, a tie going away from zero, and it is refused when the
    rounded value needs more than three digits before the point or is
    infinite; NaN is a value of the column.  Read back, the column comes as
    the text that the engine writes for it. *)

(** [m * 2^e * 10^p] as a fraction. *)
Definition scaled_by (m : positive) (e p : Z) : Z * Z :=
  (Z.pos m * 2 ^ Z.max e 0 * 10 ^ Z.max p 0,
   2 ^ Z.max (- e) 0 * 10 ^ Z.max (- p) 0).

(** The [n] with [10^(n-1) <= m * 2^e < 10^n]. *)
Definition decimal_exponent (m : positive) (e : Z) : Z :=
  let n0 := ((Z.log2 (Z.pos m) + e) * 30103) / 100000 in
  let below n := let '(a, b) := scaled_by m e (- n) in a <? b in
  if below n0 then n0 else if below (n0 + 1) then n0 + 1 else n0 + 2.

(** The binary64 value nearest to [s * 10^q] is [m * 2^e]. *)
Definition round_trips (m : positive) (e : Z) (s q : Z) : bool :=
  match s with
  | Z.pos s' => SFeqb (decimal_to_number false s' q) (S754_finite false m e)
  | _ => false
  end.

(** The digits of [Number::toString] from [k] digits on: the two decimals
    of [k] digits around [m * 2^e] are tried, then those of [k + 1] digits;
    of two that both give the number back, the one nearer to it is taken,
    the even one when they are as near. *)
Fixpoint shortest_digits (fuel : nat) (m : positive) (e n k : Z) : Z * Z :=
  let q := n - k in
  let '(a, b) := scaled_by m e (- q) in
  let lo := a / b in
  let nearer := if (2 * (a mod b) <? b) || ((2 * (a mod b) =? b) && Z.even lo)
                then lo else lo + 1 in
  match fuel with
  | O => (nearer, q)
  | S fuel' =>
      match round_trips m e lo q, round_trips m e (lo + 1) q with
      | true, true => (nearer, q)
      | true, false => (lo, q)
      | false, true => (lo + 1, q)
      | false, false => shortest_digits fuel' m e n (k + 1)
      end
  end.

(** The decimal [s * 10^q] that [Number::toString] writes for a finite
    [m * 2^e > 0]: the one with the fewest digits whose nearest binary64
    value is the number; seventeen digits always are enough. *)
Definition toString_decimal (m : positive) (e : Z) : Z * Z :=
  shortest_digits 16 m e (decimal_exponent m e) 1.

(** A numeric value at scale 2: a count of hundredths, NaN or an infinity. *)
Inductive numeric : Type :=
| NumericNaN
| NumericInfinity (negative : bool)
| Numeric (hundredths : Z).

(** The hundredths nearest to [s * 10^q >= 0], a tie going up. *)
Definition round_scale2 (s q : Z) : Z :=
  if -2 <=? q then s * 10 ^ (q + 2)
  else (2 * s + 10 ^ (- q - 2)) / (2 * 10 ^ (- q - 2)).

(** The text of a number, read as a numeric and rounded to scale 2. *)
Definition numeric_of_number (x : number) : numeric :=
  match x with
  | S754_nan => NumericNaN
  | S754_infinity s => NumericInfinity s
  | S754_zero _ => Numeric 0
  | S754_finite neg m e =>
      let '(s, q) := toString_decimal m e in
      Numeric (if neg then - round_scale2 s q else round_scale2 s q)
  end.

(** A numeric at scale 2 fits precision 5: at most three digits before the
    point. *)
Definition fits_decimal_5_2 (v : numeric) : bool :=
  match v with
  | NumericNaN => true
  | NumericInfinity _ => false
  | Numeric h => Z.abs h <? 100000
  end.

(** A score parameter, [null] or a number, is one the column takes. *)
Definition score_fits (score : option number) : bool :=
  match score with
  | Some x => fits_decimal_5_2 (numeric_of_number x)
  | None => true
  end.

(** The text of a numeric of scale 2, as the engine writes it. *)
Definition numeric_text (v : numeric) : jsstring :=
  match v with
  | NumericNaN => lit "NaN"
  | NumericInfinity s => if s then lit "-Infinity" else lit "Infinity"
  | Numeric h => (if h <? 0 then [45] else []) ++ fixed2_text (Z.abs h)
  end.

(** ** Text templates

    The template literals of the sources are kept as they are written, with
    a back quote standing for each double quote; [tpl] puts the double
    quotes back. *)

Definition tpl (s : string) : jsstring :=
  map (fun c => if c =? 96 then 34 else c) (lit s).

(** Escape special XML characters (dispatch-generator.ts, lti-outcomes.ts). *)
Definition escapeXml (str : jsstring) : jsstring :=
  replaceAll 39 (lit "&apos;")
    (replaceAll 34 (tpl "&quot;")
      (replaceAll 62 (lit "&gt;")
        (replaceAll 60 (lit "&lt;")
          (replaceAll 38 (lit "&amp;") str)))).


(** Escape for JavaScript string. *)
Definition escapeJs (str : jsstring) : jsstring :=
  replaceAll 13 [92; 114]
    (replaceAll 10 [92; 110]
      (replaceAll 34 [92; 34]
        (replaceAll 39 [92; 39]
          (replaceAll 92 [92; 92] str)))).

(** ** The dispatch package generator (services/dispatch-generator.ts) *)

Definition manifest_part1 : jsstring :=
  tpl "<?xml version=`1.0` encoding=`UTF-8`?>
<manifest identifier=`".

Definition manifest_part2 : jsstring :=
  tpl "`
          xmlns=`http://www.imsproject.org/xsd/imscp_rootv1p1p2`
          xmlns:adlcp=`http://www.adlnet.org/xsd/adlcp_rootv1p2`
          xmlns:xsi=`http://www.w3.org/2001/XMLSchema-instance`
          xsi:schemaLocation=`http://www.imsproject.org/xsd/imscp_rootv1p1p2 imscp_rootv1p1p2.xsd
                              http://www.adlnet.org/xsd/adlcp_rootv1p2 adlcp_rootv1p2.xsd`>

  <metadata>
    <schema>ADL SCORM</schema>
    <schemaversion>1.2</schemaversion>
  </metadata>

  <organizations default=`org_1`>
    <organization identifier=`org_1`>
      <title>".

Definition manifest_part3 : jsstring :=
  tpl "</title>
      <item identifier=`item_1` identifierref=`res_1`>
        <title>".

Definition manifest_part4 : jsstring :=
  tpl "</title>
      </item>
    </organization>
  </organizations>

  <resources>
    <resource identifier=`res_1` type=`webcontent` adlcp:scormtype=`sco` href=`launcher.html`>
      <file href=`launcher.html`/>
    </resource>
  </resources>

</manifest>".

(** Generates SCORM 1.2 manifest for dispatch package; [now] is the reading
    of [Date.now()]. *)
Definition generateManifest (courseTitle : jsstring) (now : Z) : jsstring :=
  let safeTitle := escapeXml courseTitle in
  let identifier := lit "dispatch_" ++ toString10 now in
  manifest_part1 ++ identifier ++ manifest_part2 ++ safeTitle
    ++ manifest_part3 ++ safeTitle ++ manifest_part4.

Definition launcher_part1 : jsstring :=
  tpl "<!DOCTYPE html>
<html>
<head>
  <meta charset=`UTF-8`>
  <title>Loading Course...</title>
  <style>
    body {
      font-family: -apple-system, BlinkMacSystemFont, 'Segoe UI', Roboto, sans-serif;
      display: flex;
      justify-content: center;
      align-items: center;
      height: 100vh;
      margin: 0;
      background: #f5f5f5;
    }
    .loading {
      text-align: center;
    }
    .spinner {
      width: 40px;
      height: 40px;
      border: 4px solid #e0e0e0;
      border-top-color: #3498db;
      border-radius: 50%;
      animation: spin 1s linear infinite;
      margin: 0 auto 16px;
    }
    @keyframes spin {
      to { transform: rotate(360deg); }
    }
  </style>
</head>
<body>
  <div class=`loading`>
    <div class=`spinner`></div>
    <p>Loading course content...</p>
  </div>

  <script>
    // Find the LMS API
    function findAPI(win) {
      var attempts = 0;
      while ((!win.API) && (win.parent) && (win.parent !== win) && (attempts < 10)) {
        attempts++;
        win = win.parent;
      }
      return win.API || null;
    }

    function findAPI_1484_11(win) {
      var attempts = 0;
      while ((!win.API_1484_11) && (win.parent) && (win.parent !== win) && (attempts < 10)) {
        attempts++;
        win = win.parent;
      }
      return win.API_1484_11 || null;
    }

    // Store reference to LMS API
    var lmsAPI = findAPI(window) || findAPI_1484_11(window);

    // Initialize with LMS
    if (lmsAPI) {
      if (lmsAPI.LMSInitialize) {
        lmsAPI.LMSInitialize('');
      } else if (lmsAPI.Initialize) {
        lmsAPI.Initialize('');
      }
    }

    // Build launch URL with learner info
    var launchUrl = '".

Definition launcher_part2 : jsstring :=
  tpl "';

    // Add user identifier if available from LMS
    if (lmsAPI) {
      try {
        var studentId = lmsAPI.LMSGetValue ? lmsAPI.LMSGetValue('cmi.core.student_id') : null;
        if (!studentId && lmsAPI.GetValue) {
          studentId = lmsAPI.GetValue('cmi.learner_id');
        }
        if (studentId) {
          launchUrl += (launchUrl.indexOf('?') > -1 ? '&' : '?') + 'user_id=' + encodeURIComponent(studentId);
        }
      } catch (e) {
        console.log('Could not get student ID:', e);
      }
    }

    // Add session identifier
    launchUrl += (launchUrl.indexOf('?') > -1 ? '&' : '?') + 'session_id=' + Date.now();

    // Redirect to hosted content
    window.location.href = launchUrl;

    // Cleanup on unload
    window.onunload = function() {
      if (lmsAPI) {
        if (lmsAPI.LMSFinish) {
          lmsAPI.LMSFinish('');
        } else if (lmsAPI.Terminate) {
          lmsAPI.Terminate('');
        }
      }
    };
  </script>
</body>
</html>".

(** Generates launcher HTML that redirects to hosted content. *)
Definition generateLauncher (launchUrl : jsstring) : jsstring :=
  launcher_part1 ++ escapeJs launchUrl ++ launcher_part2.

(** An archive under construction: its entries, by name. *)
Record zip_entry : Type := mkEntry { entryName : jsstring; entryData : list Z }.

(** [zip.addFile(name, data)]: a new entry, or new data for the entry of
    that name. *)
Fixpoint addFile (zip : list zip_entry) (name : jsstring) (data : list Z)
  : list zip_entry :=
  match zip with
  | [] => [mkEntry name data]
  | e :: rest =>
      if jseqb (entryName e) name then mkEntry name data :: rest
      else e :: addFile rest name data
  end.

(** Generates a thin SCORM 1.2 dispatch package: the entries of the archive
    that [zip.toBuffer()] serialises. *)
Definition generateDispatchPackage (courseTitle launchUrl : jsstring) (now : Z)
  : list zip_entry :=
  let zip := [] in
  let manifest := generateManifest courseTitle now in
  let zip := addFile zip (lit "imsmanifest.xml") (utf8 manifest) in
  let launcher := generateLauncher launchUrl in
  let zip := addFile zip (lit "launcher.html") (utf8 launcher) in
  zip.

(** *** Reading the generated texts back *)

Fixpoint is_prefix (p s : jsstring) : bool :=
  match p, s with
  | [], _ => true
  | x :: p', y :: s' => (x =? y) && is_prefix p' s'
  | _ :: _, [] => false
  end.

(** The number of places where [p] occurs in [s]. *)
Fixpoint count_sub (p s : jsstring) : nat :=
  match s with
  | [] => if is_prefix p [] then 1 else 0
  | _ :: s' => ((if is_prefix p s then 1 else 0) + count_sub p s')%nat
  end.

(** [s.includes(p)]. *)
Fixpoint includes (s p : jsstring) : bool :=
  is_prefix p s || match s with [] => false | _ :: s' => includes s' p end.

(** The string value of the body of a single-quoted string literal, for the
    escapes that [escapeJs] writes; [None] when the text holds an unescaped
    quote or line break or another escape. *)
Fixpoint literal_value (body : jsstring) : option jsstring :=
  match body with
  | [] => Some []
  | c :: rest =>
      if c =? 92 then
        match rest with
        | e :: rest' =>
            let v := if e =? 92 then Some 92
                     else if e =? 39 then Some 39
                     else if e =? 34 then Some 34
                     else if e =? 110 then Some 10
                     else if e =? 114 then Some 13
                     else None in
            match v, literal_value rest' with
            | Some x, Some r => Some (x :: r)
            | _, _ => None
            end
        | [] => None
        end
      else if (c =? 39) || (c =? 10) || (c =? 13) then None
      else match literal_value rest with
           | Some r => Some (c :: r)
           | None => None
           end
  end.

(** What the five replacements of [escapeXml] do to one code unit. *)
Definition xml_entity (c : Z) : jsstring :=
  if c =? 38 then lit "&amp;"
  else if c =? 60 then lit "&lt;"
  else if c =? 62 then lit "&gt;"
  else if c =? 34 then tpl "&quot;"
  else if c =? 39 then lit "&apos;"
  else [c].

(** What the five replacements of [escapeJs] do to one code unit: a
    backslash before a backslash or a quote, and the two-character escapes
    of line feed and carriage return. *)
Definition js_escape (c : Z) : jsstring :=
  if c =? 92 then [92; 92]
  else if c =? 39 then [92; 39]
  else if c =? 34 then [92; 34]
  else if c =? 10 then [92; 110]
  else if c =? 13 then [92; 114]
  else [c].

(** No [<] among the code units. *)
Definition no_lt (s : jsstring) : Prop := Forall (fun c => c <> 60) s.

(** ** The manifest descriptor (services/content-manager.ts) *)

Record ItemData : Type := mkItem {
  item_identifier : jsstring;
  item_title : jsstring;
  resourceId : option jsstring
}.

Record OrganizationData : Type := mkOrg {
  org_identifier : jsstring;
  org_title : jsstring;
  items : list ItemData
}.

Record ResourceData : Type := mkRes {
  res_identifier : jsstring;
  res_type : jsstring;
  href : option jsstring;
  scormType : option jsstring
}.

(** The value of a string known to be defined. *)
Definition the (o : option jsstring) : jsstring :=
  match o with Some s => s | None => [] end.

Section Manifest.
Context {rt : Runtime}.

(** The inner loop of [findLaunchPath]: the items of one organization. *)
Fixpoint launch_of_items (its : list ItemData) (resources : list ResourceData)
  : option jsstring :=
  match its with
  | [] => None
  | item :: rest =>
      let found :=
        if truthy_opt (resourceId item) then
          match find (fun r => jseqb (res_identifier r) (the (resourceId item)))
                     resources with
          | Some resource =>
              if truthy_opt (href resource) then href resource else None
          | None => None
          end
        else None in
      match found with
      | Some h => Some h
      | None => launch_of_items rest resources
      end
  end.

(** The outer loop: the organizations in order. *)
Fixpoint launch_of_organizations (orgs : list OrganizationData)
    (resources : list ResourceData) : option jsstring :=
  match orgs with
  | [] => None
  | org :: rest =>
      match launch_of_items (items org) resources with
      | Some h => Some h
      | None => launch_of_organizations rest resources
      end
  end.

(** The second loop: the first resource with an href that is a SCO. *)
Fixpoint launch_of_sco (resources : list ResourceData) : option jsstring :=
  match resources with
  | [] => None
  | resource :: rest =>
      if truthy_opt (href resource)
         && match scormType resource with
            | Some t => jseqb (toLowerCase t) (lit "sco")
            | None => false
            end
      then href resource
      else launch_of_sco rest
  end.

(** Finds the launch path for the first SCO. *)
Definition findLaunchPath (organizations : list OrganizationData)
    (resources : list ResourceData) : jsstring :=
  match launch_of_organizations organizations resources with
  | Some h => h
  | None =>
      match launch_of_sco resources with
      | Some h => h
      | None =>
          let firstWithHref := find (fun r => truthy_opt (href r)) resources in
          or_else (match firstWithHref with
                   | Some r => href r
                   | None => None
                   end) (lit "index.html")
      end
  end.

(** *** The launch path in the words of the specification *)

Definition has_href (r : ResourceData) : bool := truthy_opt (href r).

(** The resource an item references through [identifierref]. *)
Definition referenced (resources : list ResourceData) (item : ItemData)
  : option ResourceData :=
  match resourceId item with
  | Some id =>
      if truthy id then find (fun r => jseqb (res_identifier r) id) resources
      else None
  | None => None
  end.

Definition is_sco (r : ResourceData) : bool :=
  match scormType r with
  | Some t => jseqb (toLowerCase t) (lit "sco")
  | None => false
  end.

Definition spec_launchPath (organizations : list OrganizationData)
    (resources : list ResourceData) : jsstring :=
  let all_items := flat_map items organizations in
  let resolves item :=
    match referenced resources item with
    | Some r => has_href r
    | None => false
    end in
  match find resolves all_items with
  | Some item =>
      match referenced resources item with
      | Some r => the (href r)
      | None => lit "index.html"
      end
  | None =>
      match find (fun r => has_href r && is_sco r) resources with
      | Some r => the (href r)
      | None =>
          match find has_href resources with
          | Some r => the (href r)
          | None => lit "index.html"
          end
      end
  end.

End Manifest.

(** ** The replaceResult envelope (services/lti-outcomes.ts) *)

Definition pox_part1 : jsstring :=
  tpl "<?xml version=`1.0` encoding=`UTF-8`?>
<imsx_POXEnvelopeRequest xmlns=`http://www.imsglobal.org/services/ltiv1p1/xsd/imsoms_v1p0`>
  <imsx_POXHeader>
    <imsx_POXRequestHeaderInfo>
      <imsx_version>V1.0</imsx_version>
      <imsx_messageIdentifier>".

Definition pox_part2 : jsstring :=
  tpl "</imsx_messageIdentifier>
    </imsx_POXRequestHeaderInfo>
  </imsx_POXHeader>
  <imsx_POXBody>
    <replaceResultRequest>
      <resultRecord>
        <sourcedGUID>
          <sourcedId>".

Definition pox_part3 : jsstring :=
  tpl "</sourcedId>
        </sourcedGUID>
        <result>
          <resultScore>
            <language>en</language>
            <textString>".

Definition pox_part4 : jsstring :=
  tpl "</textString>
          </resultScore>
        </result>
      </resultRecord>
    </replaceResultRequest>
  </imsx_POXBody>
</imsx_POXEnvelopeRequest>".

(** Builds the POX XML for replaceResult operation.  The clamped score is
    NaN or lies between 0 and 1, where [toFixed2] has a text. *)
Definition buildReplaceResultXml (sourcedid : jsstring) (score : number)
    (messageId : jsstring) : jsstring :=
  let clampedScore := Math_max (num 0) (Math_min (num 1) score) in
  pox_part1 ++ escapeXml messageId ++ pox_part2 ++ escapeXml sourcedid
    ++ pox_part3 ++ the (toFixed2 clampedScore) ++ pox_part4.

(** ** JSON values held by the store and sent in responses *)

#[local] Unset Elimination Schemes.
Inductive json : Type :=
| JNull
| JBool (b : bool)
| JStr (s : jsstring)
| JObj (fields : list (jsstring * json)).
#[local] Set Elimination Schemes.

(** The object that [JSON.stringify] writes for a string map and that the
    JSONB column gives back. *)
Definition json_of_strmap (o : strmap) : json :=
  JObj (map (fun kv => (fst kv, JStr (snd kv))) o).

(** [j?.k] *)
Definition json_field (j : json) (k : jsstring) : option json :=
  match j with
  | JObj fields =>
      match find (fun kv => jseqb (fst kv) k) fields with
      | Some kv => Some (snd kv)
      | None => None
      end
  | _ => None
  end.

(** ** The store (the tables of db/index.ts) *)

Record Consumer : Type := mkConsumer {
  c_id : jsstring;
  c_lti_consumer_key : jsstring;
  c_lti_consumer_secret : jsstring;
  c_xapi_lrs_endpoint : option jsstring;
  c_xapi_lrs_key : option jsstring;
  c_xapi_lrs_secret : option jsstring;
  c_active : bool
}.

Record Course : Type := mkCourse {
  crs_id : jsstring;
  crs_title : jsstring;
  crs_active : bool
}.

Record Launch : Type := mkLaunch {
  l_id : jsstring;
  l_consumer_id : jsstring;
  l_course_id : jsstring;
  l_user_id : jsstring;
  l_context_id : option jsstring;
  l_resource_link_id : option jsstring;
  l_lis_outcome_service_url : option jsstring;
  l_lis_result_sourcedid : option jsstring;
  l_launch_data : json
}.

Record Attempt : Type := mkAttempt {
  a_id : jsstring;
  a_launch_id : jsstring;
  a_cmi_data : json;
  a_score : option numeric;
  a_completion_status : jsstring;
  a_success_status : option jsstring;
  a_total_time : option jsstring;
  a_started_at : Z;
  a_finished_at : option Z;
  a_updated_at : Z
}.

Record Store : Type := mkStore {
  consumers : list Consumer;
  courses : list Course;
  launches : list Launch;
  attempts : list Attempt
}.

Definition with_launch (s : Store) (row : Launch) : Store :=
  mkStore (consumers s) (courses s) (launches s ++ [row]) (attempts s).

Definition with_attempt (s : Store) (a : Attempt) : Store :=
  mkStore (consumers s) (courses s) (launches s) (attempts s ++ [a]).

(** A row of [attempts] with every column but the identifiers at its
    default. *)
Definition new_attempt (id launchId : jsstring) (now : Z) : Attempt :=
  mkAttempt id launchId (JObj []) None (lit "not attempted") None None now
            None now.

(** The runtime configuration (config.ts). *)
Record Config : Type := mkConfig {
  baseUrl : jsstring;
  xapi_endpoint : jsstring;
  xapi_key : jsstring;
  xapi_secret : jsstring
}.

(** ** xAPI statements (services/xapi-client.ts) *)

Inductive Verb : Type :=
| launched | completed | progressed | passed | failed | scored.

Definition verb_name (v : Verb) : jsstring :=
  match v with
  | launched => lit "launched"
  | completed => lit "completed"
  | progressed => lit "progressed"
  | passed => lit "passed"
  | failed => lit "failed"
  | scored => lit "scored"
  end.

(** The [VERBS] table: ADL vocabulary URI and display name. *)
Definition VERBS (v : Verb) : jsstring * jsstring :=
  (lit "http://adlnet.gov/expapi/verbs/" ++ verb_name v, verb_name v).

Record XapiStatementData : Type := mkData {
  d_verb : Verb;
  d_score : option number;    (* undefined and null alike: [None] *)
  d_success : option bool;
  d_duration : option jsstring
}.

Record XapiScore : Type := mkScore {
  scaled : number; raw : number; score_min : number; score_max : number
}.

Record XapiResult : Type := mkResult {
  r_score : option XapiScore;
  r_success : option bool;
  r_completion : option bool;
  r_duration : option jsstring
}.

Record XapiStatement : Type := mkStatement {
  actor_homePage : jsstring;
  actor_name : jsstring;
  verb_id : jsstring;
  verb_display : jsstring;
  object_id : jsstring;
  object_type : jsstring;
  object_name : jsstring;
  result_ : option XapiResult;
  timestamp : jsstring
}.

(** [statement.result || {}] *)
Definition result_or_empty (r : option XapiResult) : XapiResult :=
  match r with
  | Some x => x
  | None => mkResult None None None None
  end.

(** Builds an xAPI statement; [now_iso] is [new Date().toISOString()]. *)
Definition buildStatement (cfg : Config) (now_iso : jsstring)
    (userId courseId courseTitle : jsstring) (data : XapiStatementData)
  : XapiStatement :=
  let verb := VERBS (d_verb data) in
  let result0 : option XapiResult := None in
  let result1 :=
    match d_score data with
    | Some s =>
        Some (mkResult
                (Some (mkScore s (Math_round (fmul s (num 100))) (num 0) (num 100)))
                None None None)
    | None => result0
    end in
  let result2 :=
    match d_success data with
    | Some b =>
        let r := result_or_empty result1 in
        Some (mkResult (r_score r) (Some b) (r_completion r) (r_duration r))
    | None => result1
    end in
  let result3 :=
    match d_verb data with
    | completed =>
        let r := result_or_empty result2 in
        Some (mkResult (r_score r) (r_success r) (Some true) (r_duration r))
    | _ => result2
    end in
  let result4 :=
    if truthy_opt (d_duration data) then
      let r := result_or_empty result3 in
      Some (mkResult (r_score r) (r_success r) (r_completion r) (d_duration data))
    else result3 in
  mkStatement (baseUrl cfg) userId (fst verb) (snd verb)
    (baseUrl cfg ++ lit "/course/" ++ courseId)
    (lit "http://adlnet.gov/expapi/activities/course") courseTitle
    result4 now_iso.

(** ** The services around the handlers

    The database engine and the network are outside the program.  The
    tables are kept as lists of rows and the statements are given their
    relational meaning, primary and foreign keys included; whatever else
    makes the engine refuse a statement (a text that is no uuid, a text
    longer than its column, a lost connection) is the verdict
    [engine_accepts]; a score that its column cannot take is among the
    statements it refuses.  Identifiers are compared as texts.  [fetch] answers
    a request with a response, or fails ([None]). *)

Inductive sql : Type :=
| SelectConsumerByKey (key : jsstring)
| SelectAnyActiveCourse
| InsertLaunch (row : Launch)
| SelectOpenAttempt (userId courseId : jsstring)
| InsertAttempt (id launchId : jsstring)
| UpdateAttemptCommit (cmi : strmap) (score : option number)
    (completion : jsstring) (success totalTime : option jsstring)
    (id : jsstring)
| SelectLaunchOfAttempt (id : jsstring)
| UpdateAttemptFinish (id : jsstring)
| SelectConsumerCredentials (id : jsstring)
| SelectConsumerLrs (id : jsstring)
| SelectCourseTitle (id : jsstring).

Inductive payload : Type :=
| XmlText (s : jsstring)
| JsonStatement (st : XapiStatement).

Record HttpRequest : Type := mkRequest {
  req_method : jsstring;
  req_url : jsstring;
  req_headers : list (jsstring * jsstring);
  req_body : payload
}.

Record HttpResponse : Type := mkResponse {
  resp_status : Z;
  resp_text : jsstring
}.

(** [response.ok] *)
Definition resp_ok (r : HttpResponse) : bool := in_range 200 299 (resp_status r).

Class Services : Type := {
  engine_accepts : sql -> bool;
  fetch : HttpRequest -> option HttpResponse;
  (* the engine refuses an UPDATE whose score its column cannot take *)
  engine_checks_score :
    forall cmi score completion success totalTime id,
      engine_accepts
        (UpdateAttemptCommit cmi score completion success totalTime id) = true ->
      score_fits score = true
}.

(** What a handler writes to its response object. *)
Inductive response : Type :=
| Send (status : Z) (text : jsstring)                       (* res.status(n).send(text) *)
| SendJson (status : Z) (body : list (jsstring * json))     (* res.status(n).json({...}) *)
| Redirect (location : jsstring).                           (* res.redirect(url) *)

Definition response_status (r : response) : Z :=
  match r with
  | Send s _ => s
  | SendJson s _ => s
  | Redirect _ => 302
  end.

(** The readings of the clock and of the random sources during one
    request. *)
Record Ambient : Type := mkAmbient {
  uuid_launch : jsstring;     (* uuidv4() for the launch *)
  uuid_attempt : jsstring;    (* uuidv4() for a new attempt *)
  db_now : Z;                 (* CURRENT_TIMESTAMP *)
  msg_now : Z;                (* Date.now() in the message identifier *)
  msg_random : jsstring;      (* Math.random().toString(36).substr(2, 9) *)
  oauth_now : Z;              (* Date.now() in generateOAuthParams *)
  oauth_nonce : jsstring;     (* crypto.randomBytes(16).toString('hex') *)
  stmt_now : jsstring         (* new Date().toISOString() *)
}.

(** ** Computations over the store and the network *)

Record World : Type := mkWorld {
  db : Store;
  outbox : list HttpRequest   (* the requests handed to [fetch], in order *)
}.

Definition M (A : Type) : Type := World -> result A * World.

Definition ret {A} (a : A) : M A := fun w => (Ok a, w).

Definition throw {A} (e : exn) : M A := fun w => (Throw e, w).

Definition bind {A B} (m : M A) (k : A -> M B) : M B :=
  fun w =>
    match m w with
    | (Ok a, w') => k a w'
    | (Throw e, w') => (Throw e, w')
    end.

Definition lift {A} (r : result A) : M A := fun w => (r, w).

(** [try { m } catch (e) { h e }] *)
Definition try_catch {A} (m : M A) (h : exn -> M A) : M A :=
  fun w =>
    match m w with
    | (Ok a, w') => (Ok a, w')
    | (Throw e, w') => h e w'
    end.

Notation "x <~ m ;; k" := (bind m (fun x => k))
  (at level 61, m at next level, right associativity).

(** A computation that leaves the tables as they are. *)
Definition keeps_db {A} (m : M A) : Prop := forall w, db (snd (m w)) = db w.

Section Handlers.
Context {rt : Runtime} {sv : Services}.
Variable cfg : Config.

(** One statement sent through [query]: refused by the engine, or run on
    the tables. *)
Definition query {A} (q : sql) (run : Store -> result (A * Store)) : M A :=
  fun w =>
    if engine_accepts q then
      match run (db w) with
      | Ok (a, s) => (Ok a, mkWorld s (outbox w))
      | Throw e => (Throw e, w)
      end
    else (Throw (Error (lit "statement refused")), w).

(** [await fetch(...)]: the request is recorded; a network failure rejects. *)
Definition do_fetch (req : HttpRequest) : M HttpResponse :=
  fun w =>
    let w' := mkWorld (db w) (outbox w ++ [req]) in
    match fetch req with
    | Some r => (Ok r, w')
    | None => (Throw (Error (lit "fetch failed")), w')
    end.

(** *** The statements *)

(** SELECT id, lti_consumer_secret FROM consumers
    WHERE lti_consumer_key = $1 AND active = true *)
Definition select_consumer_by_key (key : jsstring) : M (list Consumer) :=
  query (SelectConsumerByKey key) (fun s =>
    Ok (filter (fun c => jseqb (c_lti_consumer_key c) key && c_active c)
               (consumers s), s)).

(** SELECT id FROM courses WHERE active = true LIMIT 1; the first active
    row of the table stands for the row the engine picks. *)
Definition select_any_active_course : M (list Course) :=
  query SelectAnyActiveCourse (fun s =>
    Ok (firstn 1 (filter crs_active (courses s)), s)).

(** INSERT INTO launches (...) VALUES (...) *)
Definition insert_launch (row : Launch) : M unit :=
  query (InsertLaunch row) (fun s =>
    if existsb (fun l => jseqb (l_id l) (l_id row)) (launches s)
    then Throw (Error (lit "duplicate key in launches"))
    else if negb (existsb (fun c => jseqb (c_id c) (l_consumer_id row))
                          (consumers s))
            || negb (existsb (fun c => jseqb (crs_id c) (l_course_id row))
                             (courses s))
    then Throw (Error (lit "foreign key violation in launches"))
    else Ok (tt, with_launch s row)).

(** The launch an attempt belongs to names this learner and course. *)
Definition attempt_of (s : Store) (userId courseId : jsstring) (a : Attempt)
  : bool :=
  existsb (fun l => jseqb (l_id l) (a_launch_id a)
                    && jseqb (l_user_id l) userId
                    && jseqb (l_course_id l) courseId) (launches s).

(** The identifier is not yet a key of [launches]. *)
Definition fresh_launch (s : Store) (id : jsstring) : bool :=
  negb (existsb (fun l => jseqb (l_id l) id) (launches s)).

Definition unfinished (a : Attempt) : bool :=
  match a_finished_at a with None => true | Some _ => false end.

(** ORDER BY started_at DESC LIMIT 1; among rows started at the same time
    the first of the table stands for the row the engine picks. *)
Fixpoint latest (l : list Attempt) : option Attempt :=
  match l with
  | [] => None
  | a :: rest =>
      match latest rest with
      | Some b => if a_started_at a <? a_started_at b then Some b else Some a
      | None => Some a
      end
  end.

(** The unfinished attempts of a learner on a course. *)
Definition open_attempts (s : Store) (userId courseId : jsstring)
  : list Attempt :=
  filter (fun a => attempt_of s userId courseId a && unfinished a) (attempts s).

(** SELECT a.id FROM attempts a JOIN launches l ON a.launch_id = l.id
    WHERE l.user_id = $1 AND l.course_id = $2 AND a.finished_at IS NULL
    ORDER BY a.started_at DESC LIMIT 1 *)
Definition select_open_attempt (userId courseId : jsstring)
  : M (option Attempt) :=
  query (SelectOpenAttempt userId courseId) (fun s =>
    Ok (latest (open_attempts s userId courseId), s)).

(** INSERT INTO attempts (id, launch_id) VALUES ($1, $2), the other columns
    at their defaults. *)
Definition insert_attempt (id launchId : jsstring) (now : Z) : M unit :=
  query (InsertAttempt id launchId) (fun s =>
    if existsb (fun a => jseqb (a_id a) id) (attempts s)
    then Throw (Error (lit "duplicate key in attempts"))
    else if negb (existsb (fun l => jseqb (l_id l) launchId) (launches s))
    then Throw (Error (lit "foreign key violation in attempts"))
    else Ok (tt, with_attempt s (new_attempt id launchId now))).

(** UPDATE attempts SET cmi_data = $1, score = $2, completion_status = $3,
    success_status = $4, total_time = $5, updated_at = CURRENT_TIMESTAMP
    WHERE id = $6.  The score is fitted to its DECIMAL(5,2) column: rounded
    to two decimal places, and the statement fails when it does not fit. *)
Definition update_attempt_commit (cmi : strmap) (score : option number)
    (completion : jsstring) (success totalTime : option jsstring)
    (id : jsstring) (now : Z) : M unit :=
  query (UpdateAttemptCommit cmi score completion success totalTime id)
    (fun s =>
       if score_fits score then
         Ok (tt, mkStore (consumers s) (courses s) (launches s)
                   (map (fun a =>
                           if jseqb (a_id a) id
                           then mkAttempt (a_id a) (a_launch_id a)
                                  (json_of_strmap cmi)
                                  (option_map numeric_of_number score)
                                  completion success totalTime
                                  (a_started_at a) (a_finished_at a) now
                           else a) (attempts s)))
       else Throw (Error (lit "numeric field overflow"))).

(** The launches joined with the attempt of this identifier. *)
Definition owning_launches (s : Store) (id : jsstring) : list Launch :=
  flat_map (fun a => filter (fun l => jseqb (l_id l) (a_launch_id a))
                            (launches s))
           (filter (fun a => jseqb (a_id a) id) (attempts s)).

(** SELECT l.* FROM launches l JOIN attempts a ON a.launch_id = l.id
    WHERE a.id = $1 *)
Definition select_launch_of_attempt (id : jsstring) : M (list Launch) :=
  query (SelectLaunchOfAttempt id) (fun s => Ok (owning_launches s id, s)).

(** UPDATE attempts SET finished_at = CURRENT_TIMESTAMP WHERE id = $1 *)
Definition update_attempt_finish (id : jsstring) (now : Z) : M unit :=
  query (UpdateAttemptFinish id) (fun s =>
    Ok (tt, mkStore (consumers s) (courses s) (launches s)
              (map (fun a =>
                      if jseqb (a_id a) id
                      then mkAttempt (a_id a) (a_launch_id a) (a_cmi_data a)
                             (a_score a) (a_completion_status a)
                             (a_success_status a) (a_total_time a)
                             (a_started_at a) (Some now) (a_updated_at a)
                      else a) (attempts s)))).

(** SELECT lti_consumer_key, lti_consumer_secret FROM consumers WHERE id = $1 *)
Definition select_consumer_credentials (id : jsstring) : M (list Consumer) :=
  query (SelectConsumerCredentials id) (fun s =>
    Ok (filter (fun c => jseqb (c_id c) id) (consumers s), s)).

(** SELECT xapi_lrs_endpoint, xapi_lrs_key, xapi_lrs_secret FROM consumers
    WHERE id = $1 *)
Definition select_consumer_lrs (id : jsstring) : M (list Consumer) :=
  query (SelectConsumerLrs id) (fun s =>
    Ok (filter (fun c => jseqb (c_id c) id) (consumers s), s)).

(** SELECT title FROM courses WHERE id = $1 *)
Definition select_course_title (id : jsstring) : M (list Course) :=
  query (SelectCourseTitle id) (fun s =>
    Ok (filter (fun c => jseqb (crs_id c) id) (courses s), s)).

(** *** Grade passback (services/lti-outcomes.ts) *)

(** Generates OAuth parameters for signing a request. *)
Definition generateOAuthParams (amb : Ambient) (consumerKey : jsstring)
  : strmap :=
  [(lit "oauth_consumer_key", consumerKey);
   (lit "oauth_signature_method", lit "HMAC-SHA1");
   (lit "oauth_timestamp", toString10 (oauth_now amb / 1000));
   (lit "oauth_nonce", oauth_nonce amb);
   (lit "oauth_version", lit "1.0")].

(** Computes SHA-1 hash of body for oauth_body_hash. *)
Definition computeBodyHash (body : jsstring) : jsstring := sha1_base64 body.

Fixpoint auth_pairs (entries : strmap) : result (list jsstring) :=
  match entries with
  | [] => Ok []
  | (key, value) :: rest =>
      k <- encodeRfc3986 key ;;
      v <- encodeRfc3986 value ;;
      r <- auth_pairs rest ;;
      Ok ((k ++ tpl "=`" ++ v ++ tpl "`") :: r)
  end.

(** Builds OAuth Authorization header. *)
Definition buildAuthHeader (params : strmap) : result jsstring :=
  pairs <- auth_pairs
             (filter (fun kv => is_prefix (lit "oauth_") (fst kv)) params) ;;
  Ok (lit "OAuth " ++ join (lit ", ") pairs).

Definition success_marker : jsstring :=
  lit "<imsx_codeMajor>success</imsx_codeMajor>".

(** The errors that [sendGradeToLms] raises about the answer of the
    outcome service. *)
Definition is_grade_passback_error (e : exn) : bool :=
  match e with
  | Error m => is_prefix (lit "Grade passback ") m
  | _ => false
  end.

(** Sends a grade back to the LMS via LTI 1.1 Basic Outcomes Service. *)
Definition sendGradeToLms (amb : Ambient)
    (consumerId outcomeServiceUrl sourcedid : jsstring) (score : number)
  : M unit :=
  consumerResult <~ select_consumer_credentials consumerId ;;
  match consumerResult with
  | [] => throw (Error (lit "Consumer not found"))
  | consumer :: _ =>
      let messageId :=
        lit "msg_" ++ toString10 (msg_now amb) ++ lit "_" ++ msg_random amb in
      let xmlBody := buildReplaceResultXml sourcedid score messageId in
      let oauthParams := generateOAuthParams amb (c_lti_consumer_key consumer) in
      let oauthParams :=
        prop_set oauthParams (lit "oauth_body_hash") (computeBodyHash xmlBody) in
      signature <~ lift (signRequest (lit "POST") outcomeServiceUrl oauthParams
                                     (c_lti_consumer_secret consumer)) ;;
      let oauthParams := prop_set oauthParams (lit "oauth_signature") signature in
      authHeader <~ lift (buildAuthHeader oauthParams) ;;
      response <~ do_fetch
        (mkRequest (lit "POST") outcomeServiceUrl
           [(lit "Content-Type", lit "application/xml");
            (lit "Authorization", authHeader)]
           (XmlText xmlBody)) ;;
      if negb (resp_ok response) then
        throw (Error (lit "Grade passback failed: "
                      ++ toString10 (resp_status response) ++ lit " - "
                      ++ resp_text response))
      else
        let responseXml := resp_text response in
        if negb (includes responseXml success_marker) then
          throw (Error (lit "Grade passback rejected: " ++ responseXml))
        else ret tt
  end.

(** *** The xAPI reporter (services/xapi-client.ts) *)

(** [s.replace(/\/$/, '')]: one trailing slash removed. *)
Fixpoint strip_trailing_slash (s : jsstring) : jsstring :=
  match s with
  | [] => []
  | [c] => if c =? 47 then [] else [c]
  | c :: rest => c :: strip_trailing_slash rest
  end.

(** The LRS endpoint, key and secret: the ones of the consumer when it has
    an endpoint, the ones of the configuration otherwise. *)
Definition resolve_lrs (consumerResult : list Consumer)
  : jsstring * jsstring * jsstring :=
  match consumerResult with
  | consumer :: _ =>
      if truthy_opt (c_xapi_lrs_endpoint consumer)
      then (the (c_xapi_lrs_endpoint consumer),
            or_else (c_xapi_lrs_key consumer) [],
            or_else (c_xapi_lrs_secret consumer) [])
      else (xapi_endpoint cfg, xapi_key cfg, xapi_secret cfg)
  | [] => (xapi_endpoint cfg, xapi_key cfg, xapi_secret cfg)
  end.

(** Sends an xAPI statement to the configured LRS. *)
Definition sendXapiStatement (amb : Ambient)
    (consumerId userId courseId : jsstring) (data : XapiStatementData)
  : M unit :=
  consumerResult <~ select_consumer_lrs consumerId ;;
  let lrsEndpoint := fst (fst (resolve_lrs consumerResult)) in
  let lrsKey := snd (fst (resolve_lrs consumerResult)) in
  let lrsSecret := snd (resolve_lrs consumerResult) in
  if negb (truthy lrsEndpoint) then ret tt
  else
    courseResult <~ select_course_title courseId ;;
    let courseTitle :=
      or_else (match courseResult with
               | c :: _ => Some (crs_title c)
               | [] => None
               end) (lit "Unknown Course") in
    let statement :=
      buildStatement cfg (stmt_now amb) userId courseId courseTitle data in
    let statementsUrl := strip_trailing_slash lrsEndpoint ++ lit "/statements" in
    response <~ do_fetch
      (mkRequest (lit "POST") statementsUrl
         [(lit "Content-Type", lit "application/json");
          (lit "Authorization",
           lit "Basic " ++ base64 (utf8 (lrsKey ++ lit ":" ++ lrsSecret)));
          (lit "X-Experience-API-Version", lit "1.0.3")]
         (JsonStatement statement)) ;;
    if negb (resp_ok response) then
      throw (Error (lit "xAPI statement failed: "
                    ++ toString10 (resp_status response) ++ lit " - "
                    ++ resp_text response))
    else ret tt.

(** *** POST /lti/launch (routes/lti.ts) *)

(** The attempt-established and redirected steps of the handler: the launch
    record, then the open attempt of the learner on the course or a new
    attempt, then the redirect to the player. *)
Definition launch_row (amb : Ambient) (launchData : strmap)
    (consumer : Consumer) (userId courseId : jsstring) : Launch :=
  mkLaunch (uuid_launch amb) (c_id consumer) courseId userId
    (prop_get launchData (lit "context_id"))
    (prop_get launchData (lit "resource_link_id"))
    (prop_get launchData (lit "lis_outcome_service_url"))
    (prop_get launchData (lit "lis_result_sourcedid"))
    (json_of_strmap launchData).

Definition establishAttempt (amb : Ambient) (launchData : strmap)
    (consumer : Consumer) (userId courseId : jsstring) : M response :=
  let launchId := uuid_launch amb in
  _ <~ insert_launch (launch_row amb launchData consumer userId courseId) ;;
  existingAttempt <~ select_open_attempt userId courseId ;;
  attemptId <~ match existingAttempt with
               | Some a => ret (a_id a)
               | None =>
                   _ <~ insert_attempt (uuid_attempt amb) launchId
                          (db_now amb) ;;
                   ret (uuid_attempt amb)
               end ;;
  ret (Redirect (baseUrl cfg ++ lit "/static/player.html?attemptId="
                 ++ attemptId ++ lit "&courseId=" ++ courseId)).

Definition ltiLaunch_try (amb : Ambient) (launchData : strmap) : M response :=
  let consumerKey := prop_get launchData (lit "oauth_consumer_key") in
  if negb (truthy_opt consumerKey) then
    ret (Send 400 (lit "Missing oauth_consumer_key"))
  else
    consumerResult <~ select_consumer_by_key (the consumerKey) ;;
    match consumerResult with
    | [] => ret (Send 401 (lit "Unknown consumer"))
    | consumer :: _ =>
        let fullUrl := baseUrl cfg ++ lit "/lti/launch" in
        isValid <~ lift (validateLtiLaunch launchData
                           (c_lti_consumer_secret consumer) fullUrl) ;;
        if negb isValid then ret (Send 401 (lit "Invalid OAuth signature"))
        else
          let userId :=
            or_else (prop_get launchData (lit "user_id"))
              (or_else (prop_get launchData (lit "lis_person_sourcedid"))
                       (lit "anonymous")) in
          let customCourseId := prop_get launchData (lit "custom_course_id") in
          course <~ (if truthy_opt customCourseId
                     then ret (Some (the customCourseId))
                     else
                       courseResult <~ select_any_active_course ;;
                       match courseResult with
                       | [] => ret None
                       | c :: _ => ret (Some (crs_id c))
                       end) ;;
          match course with
          | None => ret (Send 404 (lit "No courses available"))
          | Some courseId =>
              establishAttempt amb launchData consumer userId courseId
          end
    end.

Definition ltiLaunch (amb : Ambient) (launchData : strmap) (w : World)
  : response * World :=
  match ltiLaunch_try amb launchData w with
  | (Ok r, w') => (r, w')
  | (Throw _, w') => (Send 500 (lit "Launch failed"), w')
  end.

(** *** POST /attempt/:attemptId/commit (routes/scorm-api.ts) *)

Definition normalizedScore_of (cmiData : strmap) : option number :=
  let scoreRaw := prop_get cmiData (lit "cmi.core.score.raw") in
  let scoreMax :=
    or_else (prop_get cmiData (lit "cmi.core.score.max")) (lit "100") in
  match scoreRaw with
  | Some r =>
      if truthy scoreMax then Some (fdiv (parseFloat r) (parseFloat scoreMax))
      else None
  | None => None
  end.

Definition completionStatus_of (cmiData : strmap) : jsstring :=
  let lessonStatus := prop_get cmiData (lit "cmi.core.lesson_status") in
  if truthy_opt lessonStatus
     && existsb (jseqb (the lessonStatus)) [lit "completed"; lit "passed"]
  then lit "completed" else lit "incomplete".

Definition successStatus_of (cmiData : strmap) : option jsstring :=
  let lessonStatus := prop_get cmiData (lit "cmi.core.lesson_status") in
  if truthy_opt lessonStatus then
    if jseqb (the lessonStatus) (lit "passed") then Some (lit "passed")
    else if jseqb (the lessonStatus) (lit "failed") then Some (lit "failed")
    else None
  else None.

Definition is_dispatch (launchData : json) : bool :=
  match json_field launchData (lit "type") with
  | Some (JStr t) => jseqb t (lit "dispatch")
  | _ => false
  end.

Definition commit_try (amb : Ambient) (attemptId : jsstring) (cmiData : strmap)
  : M response :=
  let totalTime := prop_get cmiData (lit "cmi.core.total_time") in
  let normalizedScore := normalizedScore_of cmiData in
  let completionStatus := completionStatus_of cmiData in
  let successStatus := successStatus_of cmiData in
  _ <~ update_attempt_commit cmiData
         (match normalizedScore with
          | Some n => Some (fmul n (num 100))
          | None => None
          end)
         completionStatus successStatus totalTime attemptId (db_now amb) ;;
  launchResult <~ select_launch_of_attempt attemptId ;;
  _ <~ match launchResult with
       | launch :: _ =>
           _ <~ match normalizedScore with
                | Some n =>
                    if truthy_opt (l_lis_outcome_service_url launch)
                       && truthy_opt (l_lis_result_sourcedid launch)
                    then
                      try_catch
                        (sendGradeToLms amb (l_consumer_id launch)
                           (the (l_lis_outcome_service_url launch))
                           (the (l_lis_result_sourcedid launch)) n)
                        (fun _ => ret tt)
                    else ret tt
                | None => ret tt
                end ;;
           if is_dispatch (l_launch_data launch) then
             try_catch
               (sendXapiStatement amb (l_consumer_id launch)
                  (l_user_id launch) (l_course_id launch)
                  (mkData (if jseqb completionStatus (lit "completed")
                           then completed else progressed)
                          normalizedScore
                          (Some (match successStatus with
                                 | Some s => jseqb s (lit "passed")
                                 | None => false
                                 end))
                          None))
               (fun _ => ret tt)
           else ret tt
       | [] => ret tt
       end ;;
  ret (SendJson 200 [(lit "success", JBool true)]).

Definition commit (amb : Ambient) (attemptId : jsstring) (cmiData : strmap)
    (w : World) : response * World :=
  match commit_try amb attemptId cmiData w with
  | (Ok r, w') => (r, w')
  | (Throw _, w') =>
      (SendJson 500 [(lit "error", JStr (lit "Failed to save data"))], w')
  end.

(** *** POST /attempt/:attemptId/finish *)

Definition finish_try (amb : Ambient) (attemptId : jsstring) : M response :=
  _ <~ update_attempt_finish attemptId (db_now amb) ;;
  ret (SendJson 200 [(lit "success", JBool true)]).

Definition finish (amb : Ambient) (attemptId : jsstring) (w : World)
  : response * World :=
  match finish_try amb attemptId w with
  | (Ok r, w') => (r, w')
  | (Throw _, w') =>
      (SendJson 500 [(lit "error", JStr (lit "Failed to finish attempt"))], w')
  end.

End Handlers.

(** ** Sample services

    An engine that runs every statement but an UPDATE whose score does not
    fit, and an outcome service and LRS that answer every request with a
    success envelope; they instantiate [Services] in the examples. *)

Definition sample_engine_accepts (q : sql) : bool :=
  match q with
  | UpdateAttemptCommit _ score _ _ _ _ => score_fits score
  | _ => true
  end.

#[export] Instance sample_services : Services := {|
  engine_accepts := sample_engine_accepts;
  fetch := fun _ =>
    Some (mkResponse 200 (lit "<imsx_codeMajor>success</imsx_codeMajor>"));
  engine_checks_score := fun _ _ _ _ _ _ H => H
|}.

(** ** The invariants of the store *)

(** Every attempt belongs to a launch of the store. *)
Definition attempts_have_launches (s : Store) : Prop :=
  forall a, In a (attempts s) ->
    exists l, In l (launches s) /\ l_id l = a_launch_id a.

(** At most one open attempt per learner and course. *)
Definition at_most_one_open (s : Store) : Prop :=
  forall userId courseId,
    (length (open_attempts s userId courseId) <= 1)%nat.

Section Verified.
Context {rt : Runtime} {sv : Services}.
Variable cfg : Config.

(** The learner of a launch. *)
Definition learner_of (launchData : strmap) : jsstring :=
  or_else (prop_get launchData (lit "user_id"))
    (or_else (prop_get launchData (lit "lis_person_sourcedid"))
             (lit "anonymous")).

(** A launch is verified for a consumer and a course: the consumer key
    selects the consumer, the signature is valid for its secret and the
    launch URL, and the course is the one of [custom_course_id] or, without
    it, the first active course. *)
Definition verified_launch (launchData : strmap) (w : World)
    (consumer : Consumer) (courseId : jsstring) : Prop :=
  truthy_opt (prop_get launchData (lit "oauth_consumer_key")) = true
  /\ engine_accepts
       (SelectConsumerByKey (the (prop_get launchData (lit "oauth_consumer_key"))))
     = true
  /\ hd_error (filter (fun c => jseqb (c_lti_consumer_key c)
                                  (the (prop_get launchData (lit "oauth_consumer_key")))
                                && c_active c) (consumers (db w)))
     = Some consumer
  /\ validateLtiLaunch launchData (c_lti_consumer_secret consumer)
                       (baseUrl cfg ++ lit "/lti/launch") = Ok true
  /\ ((truthy_opt (prop_get launchData (lit "custom_course_id")) = true
       /\ courseId = the (prop_get launchData (lit "custom_course_id")))
      \/ (truthy_opt (prop_get launchData (lit "custom_course_id")) = false
          /\ engine_accepts SelectAnyActiveCourse = true
          /\ exists crs, hd_error (filter crs_active (courses (db w))) = Some crs
                         /\ courseId = crs_id crs)).

End Verified.

(** *** The commit in the words of the specification *)

(** Raw score over maximal score ("100" when there is none), times 100;
    null without a raw score. *)
Definition spec_score (cmiData : strmap) : option number :=
  match prop_get cmiData (lit "cmi.core.score.raw") with
  | Some scoreRaw =>
      let scoreMax :=
        or_else (prop_get cmiData (lit "cmi.core.score.max")) (lit "100") in
      Some (fmul (fdiv (parseFloat scoreRaw) (parseFloat scoreMax)) (num 100))
  | None => None
  end.

Definition spec_completion (cmiData : strmap) : jsstring :=
  match prop_get cmiData (lit "cmi.core.lesson_status") with
  | Some s =>
      if jseqb s (lit "completed") || jseqb s (lit "passed")
      then lit "completed" else lit "incomplete"
  | None => lit "incomplete"
  end.

Definition spec_success (cmiData : strmap) : option jsstring :=
  match prop_get cmiData (lit "cmi.core.lesson_status") with
  | Some s =>
      if jseqb s (lit "passed") then Some (lit "passed")
      else if jseqb s (lit "failed") then Some (lit "failed")
      else None
  | None => None
  end.

(** The score as its column keeps it: rounded to two decimal places. *)
Definition stored_score (cmiData : strmap) : option numeric :=
  option_map numeric_of_number (spec_score cmiData).

(** The row of an attempt after a commit. *)
Definition committed (cmiData : strmap) (now : Z) (a : Attempt) : Attempt :=
  mkAttempt (a_id a) (a_launch_id a) (json_of_strmap cmiData)
    (stored_score cmiData) (spec_completion cmiData) (spec_success cmiData)
    (prop_get cmiData (lit "cmi.core.total_time"))
    (a_started_at a) (a_finished_at a) now.

(** The LRS endpoint that [sendXapiStatement] settles on for a consumer. *)
Definition resolved_lrs_endpoint (cfg : Config) (s : Store)
    (consumerId : jsstring) : jsstring :=
  fst (fst (resolve_lrs cfg
              (filter (fun c => jseqb (c_id c) consumerId) (consumers s)))).

(** ** Sample data for the examples *)

Definition sample_config : Config :=
  mkConfig (lit "https://host") (lit "https://lrs.example.org/xapi/")
           (lit "lrs-key") (lit "lrs-secret").

Definition sample_ambient : Ambient :=
  mkAmbient (lit "33333333-3333-4333-8333-333333333333")
            (lit "44444444-4444-4444-8444-444444444444")
            1700000300 1700000300123 (lit "k3j9x0q1z") 1700000300456
            (lit "000102030405060708090a0b0c0d0e0f")
            (lit "2023-11-14T22:18:20.000Z").

(** A signed LTI launch of learner [u1] for the sample course. *)
Definition sample_launchData : strmap :=
  [(lit "oauth_consumer_key", lit "key_abc");
   (lit "oauth_signature_method", lit "HMAC-SHA1");
   (lit "oauth_timestamp", lit "1700000000");
   (lit "oauth_nonce", lit "n0nce");
   (lit "oauth_version", lit "1.0");
   (lit "lti_message_type", lit "basic-lti-launch-request");
   (lit "user_id", lit "u1");
   (lit "custom_course_id", lit "22222222-2222-4222-8222-222222222222");
   (lit "lis_outcome_service_url", lit "https://lms.example.org/outcomes");
   (lit "lis_result_sourcedid", lit "sid-1");
   (lit "oauth_signature", lit "W8GKYBRI8tbvMVM+5wzoz5YO2CA=")].

Definition sample_consumer : Consumer :=
  mkConsumer (lit "11111111-1111-4111-8111-111111111111") (lit "key_abc")
             (lit "s3cr3t") None None None true.

Definition sample_course : Course :=
  mkCourse (lit "22222222-2222-4222-8222-222222222222") (lit "Safety") true.

(** An earlier LTI launch of [u1], and a dispatch launch. *)
Definition sample_lti_launch : Launch :=
  mkLaunch (lit "55555555-5555-4555-8555-555555555555")
    (c_id sample_consumer) (crs_id sample_course) (lit "u1") None None
    (Some (lit "https://lms.example.org/outcomes")) (Some (lit "sid-1"))
    (json_of_strmap sample_launchData).

Definition sample_dispatch_launch : Launch :=
  mkLaunch (lit "66666666-6666-4666-8666-666666666666")
    (c_id sample_consumer) (crs_id sample_course) (lit "session-9") None None
    None None
    (JObj [(lit "type", JStr (lit "dispatch"));
           (lit "token", JStr (lit "tok-1"));
           (lit "query", JObj [(lit "session_id", JStr (lit "session-9"))])]).

Definition sample_store : Store :=
  mkStore [sample_consumer] [sample_course]
    [sample_lti_launch; sample_dispatch_launch]
    [new_attempt (lit "77777777-7777-4777-8777-777777777777")
       (l_id sample_lti_launch) 1700000000;
     new_attempt (lit "88888888-8888-4888-8888-888888888888")
       (l_id sample_dispatch_launch) 1700000100].

Definition sample_world : World := mkWorld sample_store [].

(** * The rest of the service

    The manifest reader of services/content-manager.ts, the session gate
    of middleware/auth.ts, the runtime configuration of config.ts with its
    settings (db/index.ts, routes/admin.ts) and the dispatch endpoints of
    routes/dispatch.ts and routes/admin.ts, over the definitions above. *)

(** ** Reading percent-encoded text *)

(** Well-formed UTF-16: every surrogate is one half of a pair. *)
Fixpoint well_formed_utf16 (s : jsstring) : bool :=
  match s with
  | [] => true
  | c :: rest =>
      if is_high_surrogate c then
        match rest with
        | d :: rest' => is_low_surrogate d && well_formed_utf16 rest'
        | [] => false
        end
      else negb (is_low_surrogate c) && well_formed_utf16 rest
  end.

(** The unreserved characters of RFC 3986: letters, digits and [-._~]. *)
Definition rfc3986_unreserved (c : Z) : bool :=
  in_range 65 90 c || in_range 97 122 c || in_range 48 57 c
  || mem_codes c (lit "-._~").

Definition is_upper_hex (c : Z) : bool := in_range 48 57 c || in_range 65 70 c.

(** Text made of unreserved characters and of escapes: a percent sign and
    two upper-case hexadecimal digits. *)
Fixpoint percent_encoded (s : jsstring) : bool :=
  match s with
  | [] => true
  | c :: rest =>
      if c =? 37 then
        match rest with
        | h1 :: h2 :: rest' =>
            is_upper_hex h1 && is_upper_hex h2 && percent_encoded rest'
        | _ => false
        end
      else rfc3986_unreserved c && percent_encoded rest
  end.

(** The number of code units [c] in a text. *)
Definition count_code (c : Z) (s : jsstring) : nat := count_occ Z.eq_dec s c.

(** The text of a SHA-1 digest in base64: 27 characters of the alphabet and
    one padding character. *)
Definition digest_text (s : jsstring) : Prop :=
  length s = 28%nat
  /\ exists body, s = body ++ lit "="
                  /\ Forall (fun c => In c base64_alphabet) body.

(** The error that [sendXapiStatement] raises about the answer of the
    LRS. *)
Definition is_xapi_error (e : exn) : bool :=
  match e with
  | Error m => is_prefix (lit "xAPI statement failed: ") m
  | _ => false
  end.

(** The request that [sendXapiStatement] posts to an LRS. *)
Definition statement_request (endpoint key secret : jsstring)
    (statement : XapiStatement) : HttpRequest :=
  mkRequest (lit "POST") (strip_trailing_slash endpoint ++ lit "/statements")
    [(lit "Content-Type", lit "application/json");
     (lit "Authorization",
      lit "Basic " ++ base64 (utf8 (key ++ lit ":" ++ secret)));
     (lit "X-Experience-API-Version", lit "1.0.3")]
    (JsonStatement statement).

(** A consumer with an LRS of its own, beside the sample consumer. *)
Definition sample_lrs_consumer : Consumer :=
  mkConsumer (lit "aaaaaaaa-1111-4111-8111-111111111111") (lit "key_school")
             (lit "s3cr3t-2") (Some (lit "https://lrs.school.example/xapi/"))
             (Some (lit "school")) None true.

Definition sample_lrs_world : World :=
  mkWorld (mkStore [sample_consumer; sample_lrs_consumer] [sample_course] [] [])
          [].

(** ** The manifest reader (services/content-manager.ts)

    The value that xml2js gives for an element: a string for an element
    with text only, an object otherwise, with the attributes under [$],
    the text under [_] and each child element name bound to the array of
    the children of that name.  Reading the file and parsing its XML are
    xml2js's; the functions are taken from the parsed document on. *)

#[local] Unset Elimination Schemes.
Inductive xml : Type :=
| XText (s : jsstring)
| XElem (attrs : option strmap) (text : option jsstring)
        (children : list (jsstring * list xml)).
#[local] Set Elimination Schemes.

(** [x.$] *)
Definition xml_attrs (x : xml) : option strmap :=
  match x with
  | XElem a _ _ => a
  | XText _ => None
  end.

(** [x[name]]: the array of the children of that name, or undefined. *)
Definition xml_children (x : xml) (name : jsstring) : option (list xml) :=
  match x with
  | XElem _ _ children =>
      match find (fun kv => jseqb (fst kv) name) children with
      | Some kv => Some (snd kv)
      | None => None
      end
  | XText _ => None
  end.

(** [(x[name] as unknown[])?.[0]] *)
Definition xml_first (x : xml) (name : jsstring) : option xml :=
  match xml_children x name with
  | Some (first :: _) => Some first
  | _ => None
  end.

(** Truthiness of an element value: every object, and every string but the
    empty one. *)
Definition xml_truthy (x : xml) : bool :=
  match x with
  | XText s => truthy s
  | XElem _ _ _ => true
  end.

(** [attrs?.[k]] *)
Definition attr (attrs : option strmap) (k : jsstring) : option jsstring :=
  match attrs with
  | Some a => prop_get a k
  | None => None
  end.

(** [a || b] where [b] may be undefined as well. *)
Definition or_undefined (a b : option jsstring) : option jsstring :=
  if truthy_opt a then a else b.

(** Detects SCORM version from manifest namespaces. *)
Definition detectScormVersion (manifest : xml) : jsstring :=
  match xml_attrs manifest with
  | None => lit "1.2"
  | Some attrs =>
      let namespaces := join (lit " ") (map snd attrs) in
      if includes namespaces (lit "adlcp_v1p3") || includes namespaces (lit "2004")
      then lit "2004"
      else lit "1.2"
  end.

(** The [langstring] of metadata/lom/general/title, when the manifest has
    one that [extractTitle] returns. *)
Definition lom_title (manifest : xml) : option jsstring :=
  match xml_first manifest (lit "metadata") with
  | Some metadata =>
      if xml_truthy metadata then
        match xml_first metadata (lit "lom") with
        | Some lom =>
            if xml_truthy lom then
              match xml_first lom (lit "general") with
              | Some general =>
                  if xml_truthy general then
                    match xml_first general (lit "title") with
                    | Some titleObj =>
                        if xml_truthy titleObj then
                          match xml_first titleObj (lit "langstring") with
                          | Some (XText s) => Some s
                          | Some (XElem _ t _) =>
                              if truthy_opt t then t else None
                          | None => None
                          end
                        else None
                    | None => None
                    end
                  else None
              | None => None
              end
            else None
        | None => None
        end
      else None
  | None => None
  end.

(** The title of the first organization, when it is a string. *)
Definition organization_title (manifest : xml) : option jsstring :=
  match xml_first manifest (lit "organizations") with
  | Some orgsObj =>
      if xml_truthy orgsObj then
        match xml_first orgsObj (lit "organization") with
        | Some org =>
            if xml_truthy org then
              match xml_first org (lit "title") with
              | Some (XText s) => Some s
              | _ => None
              end
            else None
        | None => None
        end
      else None
  | None => None
  end.

(** Extracts course title from manifest. *)
Definition extractTitle (manifest : xml) : jsstring :=
  match lom_title manifest with
  | Some t => t
  | None =>
      match organization_title manifest with
      | Some t => t
      | None => lit "Untitled Course"
      end
  end.

(** Extracts string value from XML element. *)
Definition extractStringValue (element : option (list xml)) : jsstring :=
  match element with
  | None => []
  | Some [] => []
  | Some (XText s :: _) => s
  | Some (XElem _ t _ :: _) => or_else t []
  end.

(** Extracts items from organization. *)
Definition extractItems (its : option (list xml)) : list ItemData :=
  match its with
  | None => []
  | Some l =>
      map (fun i =>
             let attrs := xml_attrs i in
             mkItem (or_else (attr attrs (lit "identifier")) (lit "unknown"))
                    (extractStringValue (xml_children i (lit "title")))
                    (attr attrs (lit "identifierref"))) l
  end.

(** Extracts organization structure from manifest. *)
Definition extractOrganizations (manifest : xml) : list OrganizationData :=
  match xml_first manifest (lit "organizations") with
  | None => []
  | Some orgsWrapper =>
      if negb (xml_truthy orgsWrapper) then []
      else
        match xml_children orgsWrapper (lit "organization") with
        | None => []
        | Some orgs =>
            map (fun o =>
                   let attrs := xml_attrs o in
                   mkOrg (or_else (attr attrs (lit "identifier")) (lit "unknown"))
                         (extractStringValue (xml_children o (lit "title")))
                         (extractItems (xml_children o (lit "item")))) orgs
        end
  end.

(** Extracts resources from manifest. *)
Definition extractResources (manifest : xml) : list ResourceData :=
  match xml_first manifest (lit "resources") with
  | None => []
  | Some resourcesWrapper =>
      if negb (xml_truthy resourcesWrapper) then []
      else
        match xml_children resourcesWrapper (lit "resource") with
        | None => []
        | Some resources =>
            map (fun r =>
                   let attrs := xml_attrs r in
                   mkRes (or_else (attr attrs (lit "identifier")) (lit "unknown"))
                         (or_else (attr attrs (lit "type")) (lit "webcontent"))
                         (attr attrs (lit "href"))
                         (or_undefined (attr attrs (lit "adlcp:scormtype"))
                                       (attr attrs (lit "adlcp:scormType"))))
                resources
        end
  end.

Record ManifestData : Type := mkManifest {
  md_title : jsstring;
  md_scormVersion : jsstring;
  md_launchPath : jsstring;
  md_identifier : jsstring;
  md_organizations : list OrganizationData;
  md_resources : list ResourceData
}.

(** Parses the imsmanifest.xml file to extract course metadata; [root] is
    [result.manifest] of the parsed document. *)
Definition parseManifest {rt : Runtime} (root : option xml) : result ManifestData :=
  match root with
  | Some manifest =>
      if negb (xml_truthy manifest)
      then Throw (Error (lit "Invalid manifest: missing manifest root element"))
      else
        let scormVersion := detectScormVersion manifest in
        let title := extractTitle manifest in
        let organizations := extractOrganizations manifest in
        let resources := extractResources manifest in
        let launchPath := findLaunchPath organizations resources in
        Ok (mkManifest title scormVersion launchPath
              (or_else (attr (xml_attrs manifest) (lit "identifier"))
                       (lit "unknown"))
              organizations resources)
  | None => Throw (Error (lit "Invalid manifest: missing manifest root element"))
  end.

(** A SCORM 2004 manifest with one organization of one item, the resource
    it references and an asset. *)
Definition sample_manifest : xml :=
  XElem (Some [(lit "identifier", lit "course-1");
               (lit "xmlns:adlcp", lit "http://www.adlnet.org/xsd/adlcp_v1p3")])
        None
        [(lit "organizations",
          [XElem (Some [(lit "default", lit "org_1")]) None
             [(lit "organization",
               [XElem (Some [(lit "identifier", lit "org_1")]) None
                  [(lit "title", [XText (lit "Safety")]);
                   (lit "item",
                    [XElem (Some [(lit "identifier", lit "item_1");
                                  (lit "identifierref", lit "res_1")]) None
                       [(lit "title", [XText (lit "Lesson 1")])]])]])]]);
         (lit "resources",
          [XElem None None
             [(lit "resource",
               [XElem (Some [(lit "identifier", lit "assets");
                             (lit "href", lit "shared/style.css")]) None [];
                XElem (Some [(lit "identifier", lit "res_1");
                             (lit "type", lit "webcontent");
                             (lit "adlcp:scormType", lit "sco");
                             (lit "href", lit "lesson1/index.html")]) None []])]])].

(** ** The session gate (middleware/auth.ts) *)

Record Session : Type := mkSession {
  authenticated : option bool;
  username : option jsstring
}.

(** What the gate and the login handlers read of a request.  The verdicts
    of the content negotiation are express's; a body field that is not a
    string is never equal to a configured one and reads as undefined. *)
Record AdminRequest : Type := mkAdminRequest {
  rq_session : option Session;         (* req.session *)
  rq_path : jsstring;                  (* req.path, below the mount point *)
  rq_xhr : bool;                       (* req.xhr *)
  rq_accepts_html : bool;              (* req.accepts('html') is not false *)
  rq_accepts_json : bool;              (* req.accepts('json') is not false *)
  rq_body_username : option jsstring;  (* req.body.username *)
  rq_body_password : option jsstring;  (* req.body.password *)
  rq_query_redirect : option jsstring  (* req.query.redirect *)
}.

(** [config.admin] *)
Record AdminCredentials : Type := mkAdmin {
  admin_username : jsstring;
  admin_password : jsstring
}.

(** The middleware hands the request on, or answers it. *)
Inductive gate : Type :=
| Next
| Answer (r : response).

(** [req.session?.authenticated] as a condition. *)
Definition session_authenticated (s : option Session) : bool :=
  match s with
  | Some x => match authenticated x with Some b => b | None => false end
  | None => false
  end.

(** Middleware to require authentication for protected routes. *)
Definition requireAuth (req : AdminRequest) : gate :=
  if session_authenticated (rq_session req) then Next
  else
    let acceptsHtml := rq_accepts_html req in
    let isApiRequest := is_prefix (lit "/api/") (rq_path req) || rq_xhr req in
    if isApiRequest || negb acceptsHtml
    then Answer (SendJson 401
                   [(lit "error", JStr (lit "Authentication required"))])
    else Answer (Redirect (lit "/admin/login")).

(** [a === b] for a possibly undefined string and a string. *)
Definition same_string (a : option jsstring) (b : jsstring) : bool :=
  match a with
  | Some s => jseqb s b
  | None => false
  end.

(** Login handler: the answer and the session afterwards; [None] is the
    TypeError of marking a session that is not there. *)
Definition handleLogin (admin : AdminCredentials) (req : AdminRequest)
  : option (response * option Session) :=
  if same_string (rq_body_username req) (admin_username admin)
     && same_string (rq_body_password req) (admin_password admin)
  then
    match rq_session req with
    | None => None
    | Some _ =>
        let session' := mkSession (Some true) (rq_body_username req) in
        if rq_accepts_json req && negb (rq_accepts_html req)
        then Some (SendJson 200 [(lit "success", JBool true)], Some session')
        else
          let redirectTo := or_else (rq_query_redirect req) (lit "/admin") in
          Some (Redirect redirectTo, Some session')
    end
  else if rq_accepts_json req && negb (rq_accepts_html req)
  then Some (SendJson 401 [(lit "error", JStr (lit "Invalid credentials"))],
             rq_session req)
  else Some (Redirect (lit "/admin/login?error=invalid"), rq_session req).

(** Logout handler: [req.session.destroy] unsets the session of the
    request. *)
Definition handleLogout (req : AdminRequest) : option (response * option Session) :=
  match rq_session req with
  | None => None
  | Some _ =>
      if rq_accepts_json req && negb (rq_accepts_html req)
      then Some (SendJson 200 [(lit "success", JBool true)], None)
      else Some (Redirect (lit "/admin/login"), None)
  end.

(** Check auth status (for API). *)
Definition checkAuthStatus (req : AdminRequest) : response :=
  SendJson 200
    [(lit "authenticated", JBool (session_authenticated (rq_session req)));
     (lit "username",
      match rq_session req with
      | Some s => if truthy_opt (username s)
                  then JStr (the (username s)) else JNull
      | None => JNull
      end)].

(** The same request with another session: what the next request of the
    browser carries once the session is saved. *)
Definition with_session (req : AdminRequest) (s : option Session) : AdminRequest :=
  mkAdminRequest s (rq_path req) (rq_xhr req) (rq_accepts_html req)
    (rq_accepts_json req) (rq_body_username req) (rq_body_password req)
    (rq_query_redirect req).

(** ** The runtime configuration (config.ts) *)

Record RuntimeUpdates : Type := mkUpdates {
  upd_baseUrl : option jsstring;
  upd_xapiEndpoint : option jsstring;
  upd_xapiKey : option jsstring;
  upd_xapiSecret : option jsstring
}.

(** Update runtime configuration settings: the configuration afterwards. *)
Definition updateRuntimeConfig (updates : RuntimeUpdates) (c : Config) : Config :=
  mkConfig
    (if truthy_opt (upd_baseUrl updates) then the (upd_baseUrl updates)
     else baseUrl c)
    (match upd_xapiEndpoint updates with
     | Some v => v
     | None => xapi_endpoint c
     end)
    (match upd_xapiKey updates with
     | Some v => v
     | None => xapi_key c
     end)
    (match upd_xapiSecret updates with
     | Some v => v
     | None => xapi_secret c
     end).

(** ** The dispatch tokens and the settings

    The two remaining tables that the routes use, beside the store, and
    the configuration that the settings route changes while the service
    runs. *)

Record DispatchToken : Type := mkToken {
  dt_id : jsstring;
  dt_consumer_id : jsstring;
  dt_course_id : jsstring;
  dt_token : jsstring;
  dt_active : bool
}.

Record Site : Type := mkSite {
  world : World;
  dispatch_tokens : list DispatchToken;
  settings : list (jsstring * jsstring);     (* key, value *)
  config : Config
}.

(** The statements of the dispatch, attempt and admin routes. *)
Inductive statement : Type :=
| SelectDispatchToken (token : jsstring)
| SelectCourseLaunchPath (id : jsstring)
| SelectCourseInfo (id : jsstring)
| SelectActiveConsumer (id : jsstring)
| SelectTokenFor (consumerId courseId : jsstring)
| InsertDispatchToken (consumerId courseId token : jsstring)
| SelectAttempt (id : jsstring)
| DeactivateConsumer (id : jsstring)
| SelectSettings
| UpsertBaseUrl (value : jsstring).

(** The verdict of the engine on these statements, as [engine_accepts] is
    for the others. *)
Class Engine : Type := {
  engine_runs : statement -> bool
}.

Definition SiteM (A : Type) : Type := Site -> result A * Site.

Definition sret {A} (a : A) : SiteM A := fun st => (Ok a, st).

Definition sbind {A B} (m : SiteM A) (k : A -> SiteM B) : SiteM B :=
  fun st =>
    match m st with
    | (Ok a, st') => k a st'
    | (Throw e, st') => (Throw e, st')
    end.

Notation "x <~~ m ;; k" := (sbind m (fun x => k))
  (at level 61, m at next level, right associativity).

(** A computation over the store and the network, run in the site. *)
Definition in_world {A} (m : M A) : SiteM A :=
  fun st =>
    match m (world st) with
    | (r, w') => (r, mkSite w' (dispatch_tokens st) (settings st) (config st))
    end.

(** [config.baseUrl] and the like, read when the handler gets there. *)
Definition read_config : SiteM Config := fun st => (Ok (config st), st).

Section Routes.
Context {rt : Runtime} {sv : Services} {en : Engine}.

(** One of the statements above sent through [query]. *)
Definition site_query {A} (q : statement) (run : Site -> result (A * Site)) : SiteM A :=
  fun st =>
    if engine_runs q then
      match run st with
      | Ok (a, st') => (Ok a, st')
      | Throw e => (Throw e, st)
      end
    else (Throw (Error (lit "statement refused")), st).

(** SELECT dt.id, dt.consumer_id, dt.course_id FROM dispatch_tokens dt
    WHERE dt.token = $1 AND dt.active = true *)
Definition select_dispatch_token (token : jsstring) : SiteM (list DispatchToken) :=
  site_query (SelectDispatchToken token) (fun st =>
    Ok (filter (fun dt => jseqb (dt_token dt) token && dt_active dt)
               (dispatch_tokens st), st)).

(** SELECT id, launch_path FROM courses WHERE id = $1 AND active = true *)
Definition select_course_launch_path (id : jsstring) : SiteM (list Course) :=
  site_query (SelectCourseLaunchPath id) (fun st =>
    Ok (filter (fun c => jseqb (crs_id c) id && crs_active c)
               (courses (db (world st))), st)).

(** SELECT id, title FROM courses WHERE id = $1 AND active = true *)
Definition select_course_info (id : jsstring) : SiteM (list Course) :=
  site_query (SelectCourseInfo id) (fun st =>
    Ok (filter (fun c => jseqb (crs_id c) id && crs_active c)
               (courses (db (world st))), st)).

(** SELECT id FROM consumers WHERE id = $1 AND active = true *)
Definition select_active_consumer (id : jsstring) : SiteM (list Consumer) :=
  site_query (SelectActiveConsumer id) (fun st =>
    Ok (filter (fun c => jseqb (c_id c) id && c_active c)
               (consumers (db (world st))), st)).

(** SELECT token FROM dispatch_tokens
    WHERE consumer_id = $1 AND course_id = $2 AND active = true *)
Definition select_token_for (consumerId courseId : jsstring)
  : SiteM (list DispatchToken) :=
  site_query (SelectTokenFor consumerId courseId) (fun st =>
    Ok (filter (fun dt => jseqb (dt_consumer_id dt) consumerId
                          && jseqb (dt_course_id dt) courseId && dt_active dt)
               (dispatch_tokens st), st)).

(** INSERT INTO dispatch_tokens (consumer_id, course_id, token)
    VALUES ($1, $2, $3): the identifier is the engine's [rowId], the row
    is active; the key, the unique token and the two references are
    checked. *)
Definition insert_dispatch_token (rowId consumerId courseId token : jsstring)
  : SiteM unit :=
  site_query (InsertDispatchToken consumerId courseId token) (fun st =>
    if existsb (fun dt => jseqb (dt_id dt) rowId || jseqb (dt_token dt) token)
               (dispatch_tokens st)
    then Throw (Error (lit "duplicate key in dispatch_tokens"))
    else if negb (existsb (fun c => jseqb (c_id c) consumerId)
                          (consumers (db (world st))))
            || negb (existsb (fun c => jseqb (crs_id c) courseId)
                             (courses (db (world st))))
    then Throw (Error (lit "foreign key violation in dispatch_tokens"))
    else Ok (tt, mkSite (world st)
                   (dispatch_tokens st
                    ++ [mkToken rowId consumerId courseId token true])
                   (settings st) (config st))).

(** *** GET /dispatch/launch/:token (routes/dispatch.ts)

    [query] is [req.query] with each parameter given once; [uuid_user] is
    the reading of [uuidv4()] for a learner without a name. *)
Definition dispatchLaunch_try (amb : Ambient) (uuid_user token : jsstring)
    (query : strmap) : SiteM response :=
  tokenResult <~~ select_dispatch_token token ;;
  match tokenResult with
  | [] => sret (Send 404 (lit "Invalid or expired dispatch token"))
  | dispatchToken :: _ =>
      courseResult <~~ select_course_launch_path (dt_course_id dispatchToken) ;;
      match courseResult with
      | [] => sret (Send 404 (lit "Course not found"))
      | _ :: _ =>
          let launchId := uuid_launch amb in
          let userId :=
            or_else (prop_get query (lit "user_id"))
              (or_else (prop_get query (lit "session_id"))
                       (lit "dispatch_" ++ uuid_user)) in
          _ <~~ in_world
                  (insert_launch
                     (mkLaunch launchId (dt_consumer_id dispatchToken)
                        (dt_course_id dispatchToken) userId None None None None
                        (JObj [(lit "type", JStr (lit "dispatch"));
                               (lit "token", JStr token);
                               (lit "query", json_of_strmap query)]))) ;;
          let attemptId := uuid_attempt amb in
          _ <~~ in_world (insert_attempt attemptId launchId (db_now amb)) ;;
          cfg <~~ read_config ;;
          sret (Redirect (baseUrl cfg ++ lit "/static/player.html?attemptId="
                          ++ attemptId ++ lit "&courseId="
                          ++ dt_course_id dispatchToken ++ lit "&mode=dispatch"))
      end
  end.

Definition dispatchLaunch (amb : Ambient) (uuid_user token : jsstring)
    (query : strmap) (st : Site) : response * Site :=
  match dispatchLaunch_try amb uuid_user token query st with
  | (Ok r, st') => (r, st')
  | (Throw _, st') => (Send 500 (lit "Launch failed"), st')
  end.

(** *** GET /admin/api/dispatch/download/:courseId (routes/admin.ts) *)

(** [title.replace(/[^a-z0-9]/gi, '_')] *)
Definition safe_name (title : jsstring) : jsstring :=
  map (fun c => if in_range 97 122 c || in_range 65 90 c || in_range 48 57 c
                then c else 95) title.

(** An answer of the service: one of the plain ones, or a file. *)
Inductive answer : Type :=
| Plain (r : response)
| Attachment (contentType contentDisposition : jsstring)
             (entries : list zip_entry).

(** The handler of the download route, behind [requireAuth]: [newToken]
    and [rowId] are the readings of [uuidv4()] and of the engine for a new
    token, [now] the reading of the clock for the manifest. *)
Definition downloadDispatch_try (newToken rowId : jsstring) (now : Z)
    (courseId : jsstring) (consumerId : option jsstring) : SiteM answer :=
  if negb (truthy_opt consumerId) then
    sret (Plain (SendJson 400 [(lit "error", JStr (lit "consumerId required"))]))
  else
    courseResult <~~ select_course_info courseId ;;
    match courseResult with
    | [] => sret (Plain (SendJson 404 [(lit "error", JStr (lit "Course not found"))]))
    | course :: _ =>
        consumerResult <~~ select_active_consumer (the consumerId) ;;
        match consumerResult with
        | [] => sret (Plain (SendJson 404
                               [(lit "error", JStr (lit "Consumer not found"))]))
        | _ :: _ =>
            tokenResult <~~ select_token_for (the consumerId) courseId ;;
            token <~~ match tokenResult with
                      | [] =>
                          _ <~~ insert_dispatch_token rowId (the consumerId)
                                  courseId newToken ;;
                          sret newToken
                      | row :: _ => sret (dt_token row)
                      end ;;
            cfg <~~ read_config ;;
            let launchUrl := baseUrl cfg ++ lit "/dispatch/launch/" ++ token in
            let packageBuffer :=
              generateDispatchPackage (crs_title course) launchUrl now in
            let filename := safe_name (crs_title course) ++ lit "_dispatch.zip" in
            sret (Attachment (lit "application/zip")
                    (tpl "attachment; filename=`" ++ filename ++ tpl "`")
                    packageBuffer)
        end
    end.

Definition downloadDispatch (req : AdminRequest) (newToken rowId : jsstring)
    (now : Z) (courseId : jsstring) (consumerId : option jsstring) (st : Site)
  : answer * Site :=
  match requireAuth req with
  | Answer r => (Plain r, st)
  | Next =>
      match downloadDispatch_try newToken rowId now courseId consumerId st with
      | (Ok a, st') => (a, st')
      | (Throw _, st') =>
          (Plain (SendJson 500
                    [(lit "error",
                      JStr (lit "Failed to generate dispatch package"))]), st')
      end
  end.

(** *** GET /attempt/:attemptId (routes/scorm-api.ts) *)

(** The columns that the player gets back; node-pg gives a numeric column
    as its text, so the score is a string or null. *)
Record AttemptView : Type := mkView {
  v_id : jsstring;
  v_cmi_data : json;
  v_completion_status : jsstring;
  v_score : option jsstring
}.

Inductive attempt_answer : Type :=
| AttemptRow (row : AttemptView)          (* res.json(result.rows[0]) *)
| AttemptRefused (r : response).

(** SELECT id, cmi_data, completion_status, score FROM attempts WHERE id = $1 *)
Definition select_attempt (id : jsstring) : SiteM (list AttemptView) :=
  site_query (SelectAttempt id) (fun st =>
    Ok (map (fun a => mkView (a_id a) (a_cmi_data a) (a_completion_status a)
                             (option_map numeric_text (a_score a)))
            (filter (fun a => jseqb (a_id a) id) (attempts (db (world st)))),
        st)).

Definition getAttempt (attemptId : jsstring) (st : Site) : attempt_answer * Site :=
  match select_attempt attemptId st with
  | (Ok [], st') =>
      (AttemptRefused (SendJson 404 [(lit "error", JStr (lit "Attempt not found"))]),
       st')
  | (Ok (row :: _), st') => (AttemptRow row, st')
  | (Throw _, st') =>
      (AttemptRefused
         (SendJson 500 [(lit "error", JStr (lit "Failed to get attempt data"))]),
       st')
  end.

(** *** DELETE /admin/api/consumers/:id (routes/admin.ts) *)

(** UPDATE consumers SET active = false WHERE id = $1 *)
Definition deactivate_consumer (id : jsstring) : SiteM unit :=
  site_query (DeactivateConsumer id) (fun st =>
    let s := db (world st) in
    Ok (tt, mkSite
              (mkWorld
                 (mkStore
                    (map (fun c =>
                            if jseqb (c_id c) id
                            then mkConsumer (c_id c) (c_lti_consumer_key c)
                                   (c_lti_consumer_secret c)
                                   (c_xapi_lrs_endpoint c) (c_xapi_lrs_key c)
                                   (c_xapi_lrs_secret c) false
                            else c) (consumers s))
                    (courses s) (launches s) (attempts s))
                 (outbox (world st)))
              (dispatch_tokens st) (settings st) (config st))).

Definition deleteConsumer (req : AdminRequest) (id : jsstring) (st : Site)
  : response * Site :=
  match requireAuth req with
  | Answer r => (r, st)
  | Next =>
      match deactivate_consumer id st with
      | (Ok _, st') => (SendJson 200 [(lit "success", JBool true)], st')
      | (Throw _, st') =>
          (SendJson 500 [(lit "error", JStr (lit "Failed to delete consumer"))],
           st')
      end
  end.

(** *** The settings (routes/admin.ts, db/index.ts) *)

(** INSERT INTO settings (key, value, updated_at) VALUES ('base_url', $1, ...)
    ON CONFLICT (key) DO UPDATE SET value = $1, ... *)
Definition upsert_base_url (value : jsstring) : SiteM unit :=
  site_query (UpsertBaseUrl value) (fun st =>
    Ok (tt, mkSite (world st) (dispatch_tokens st)
              (prop_set (settings st) (lit "base_url") value) (config st))).

(** PUT /admin/api/settings, behind [requireAuth]; [base_url] is
    [req.body.base_url]. *)
Definition putSettings (req : AdminRequest) (base_url : option jsstring)
    (st : Site) : response * Site :=
  match requireAuth req with
  | Answer r => (r, st)
  | Next =>
      if truthy_opt base_url then
        match URL_parse (the base_url) with
        | None => (SendJson 400 [(lit "error", JStr (lit "Invalid URL format"))], st)
        | Some _ =>
            match upsert_base_url (the base_url) st with
            | (Ok _, st') =>
                (SendJson 200 [(lit "success", JBool true)],
                 mkSite (world st') (dispatch_tokens st') (settings st')
                   (updateRuntimeConfig
                      (mkUpdates (Some (the base_url)) None None None)
                      (config st')))
            | (Throw _, st') =>
                (SendJson 500
                   [(lit "error", JStr (lit "Failed to update settings"))], st')
            end
        end
      else (SendJson 200 [(lit "success", JBool true)], st)
  end.

(** Load settings from database and update runtime config: the rows are
    read from the pool directly, and a failing read is caught. *)
Definition loadSettings (st : Site) : Site :=
  if engine_runs SelectSettings then
    mkSite (world st) (dispatch_tokens st) (settings st)
      (fold_left (fun c row =>
                    if jseqb (fst row) (lit "base_url")
                    then updateRuntimeConfig
                           (mkUpdates (Some (snd row)) None None None) c
                    else c)
                 (settings st) (config st))
  else st.

End Routes.

(** An engine that runs every statement. *)
#[export] Instance sample_engine : Engine := {|
  engine_runs := fun _ => true
|}.

(** A site with the sample store, one token of the sample consumer for the
    sample course and no saved setting. *)
Definition sample_token : DispatchToken :=
  mkToken (lit "cccccccc-0000-4000-8000-000000000001") (c_id sample_consumer)
          (crs_id sample_course) (lit "tok-1") true.

Definition sample_site : Site :=
  mkSite sample_world [sample_token] [] sample_config.

(** An administrator's browser request with a session that has logged in. *)
Definition sample_admin_request : AdminRequest :=
  mkAdminRequest (Some (mkSession (Some true) (Some (lit "admin"))))
    (lit "/api/dispatch/download/22222222-2222-4222-8222-222222222222")
    false true false None None None.

(** The launch record that a dispatch launch writes. *)
Definition dispatch_row (amb : Ambient) (uuid_user token : jsstring)
    (query : strmap) (dispatchToken : DispatchToken) : Launch :=
  mkLaunch (uuid_launch amb) (dt_consumer_id dispatchToken)
    (dt_course_id dispatchToken)
    (or_else (prop_get query (lit "user_id"))
       (or_else (prop_get query (lit "session_id"))
                (lit "dispatch_" ++ uuid_user)))
    None None None None
    (JObj [(lit "type", JStr (lit "dispatch"));
           (lit "token", JStr token);
           (lit "query", json_of_strmap query)]).

(** The file that the download route answers with for a course and a
    token. *)
Definition dispatch_attachment (cfg : Config) (course : Course)
    (token : jsstring) (now : Z) : answer :=
  Attachment (lit "application/zip")
    (tpl "attachment; filename=`"
     ++ (safe_name (crs_title course) ++ lit "_dispatch.zip") ++ tpl "`")
    (generateDispatchPackage (crs_title course)
       (baseUrl cfg ++ lit "/dispatch/launch/" ++ token) now).

(** No two rows of the table hold the same token (the column is UNIQUE). *)
Definition tokens_unique (st : Site) : Prop :=
  NoDup (map dt_token (dispatch_tokens st)).

(** * Properties *)

(** ** Known answers for the hash primitives (FIPS 180-4, RFC 2202, RFC 4648) *)

Example sha1_abc :
  hex_of_bytes (sha1 (utf8 (lit "abc")))
  = lit "a9993e364706816aba3e25717850c26c9cd0d89d".
Proof. vm_compute. reflexivity. Qed.

Example sha1_two_blocks :
  hex_of_bytes
    (sha1 (utf8 (lit "abcdbcdecdefdefgefghfghighijhijkijkljklmklmnlmnomnopnopq")))
  = lit "84983e441c3bd26ebaae4aa1f95129e5e54670f1".
Proof. vm_compute. reflexivity. Qed.

Example hmac_sha1_rfc2202_2 :
  hex_of_bytes (hmac_sha1 (utf8 (lit "Jefe"))
                          (utf8 (lit "what do ya want for nothing?")))
  = lit "effcdf6ae5eb2fa2d27416d5f184df9c259a7c79".
Proof. vm_compute. reflexivity. Qed.

Example base64_foob : base64 (utf8 (lit "foob")) = lit "Zm9vYg==".
Proof. vm_compute. reflexivity. Qed.

(** ** Strings *)

Lemma jseqb_eq (a b : jsstring) : jseqb a b = true <-> a = b.
Proof.
  revert b; induction a as [|x a IH]; intros [|y b]; simpl; split;
    try congruence; try discriminate; auto.
  - intros H. apply andb_true_iff in H as [H1 H2].
    apply Z.eqb_eq in H1. apply IH in H2. congruence.
  - intros H. injection H as -> ->. rewrite Z.eqb_refl. simpl. now apply IH.
Qed.

Lemma jseqb_refl (a : jsstring) : jseqb a a = true.
Proof. now apply jseqb_eq. Qed.

Lemma jseqb_neq (a b : jsstring) : jseqb a b = false <-> a <> b.
Proof.
  split.
  - intros H E. apply jseqb_eq in E. congruence.
  - intros H. destruct (jseqb a b) eqn:E; auto. apply jseqb_eq in E. contradiction.
Qed.

(** ** Objects *)

Lemma prop_get_set_eq (o : strmap) (k v : jsstring) :
  prop_get (prop_set o k v) k = Some v.
Proof.
  induction o as [|[k' v'] o IH]; simpl.
  - now rewrite jseqb_refl.
  - destruct (jseqb k' k) eqn:E; simpl; rewrite E; auto.
Qed.

Lemma prop_delete_set (o : strmap) (k v : jsstring) :
  prop_delete (prop_set o k v) k = prop_delete o k.
Proof.
  unfold prop_delete. induction o as [|[k' v'] o IH]; simpl.
  - now rewrite jseqb_refl.
  - destruct (jseqb k' k) eqn:E; simpl; rewrite E; simpl; congruence.
Qed.

(** ** The digest text is non-empty ASCII *)

Lemma base64_char_ascii (i : Z) : 0 <= base64_char i < 128.
Proof.
  unfold base64_char.
  assert (H : Forall (fun c => 0 <= c < 128) base64_alphabet).
  { unfold base64_alphabet, lit; simpl.
    repeat (constructor; [lia|]). constructor. }
  generalize (Z.to_nat (i mod 64)) as n.
  induction H as [|c l Hc Hl IH]; intros [|n]; simpl; try lia; auto.
Qed.

Lemma base64_ascii_bounded (n : nat) (bs : list Z) :
  (length bs <= n)%nat -> ascii_text (base64 bs).
Proof.
  revert bs. induction n as [|n IH]; intros bs Hlen.
  - destruct bs; [constructor | simpl in Hlen; lia].
  - destruct bs as [|a [|b [|c rest]]]; simpl.
    + constructor.
    + repeat constructor; try apply base64_char_ascii; lia.
    + repeat constructor; try apply base64_char_ascii; lia.
    + repeat (constructor; [apply base64_char_ascii|]).
      apply IH. simpl in Hlen. lia.
Qed.

Lemma base64_ascii (bs : list Z) : ascii_text (base64 bs).
Proof. apply (base64_ascii_bounded (length bs)). lia. Qed.

Lemma base64_nonempty (bs : list Z) : bs <> [] -> base64 bs <> [].
Proof. destruct bs as [|a [|b [|c rest]]]; simpl; congruence. Qed.

Lemma sha1_nonempty (msg : list Z) : sha1 msg <> [].
Proof. unfold sha1. simpl. discriminate. Qed.

Lemma hmac_sha1_base64_truthy (key data : jsstring) :
  truthy (hmac_sha1_base64 key data) = true.
Proof.
  unfold hmac_sha1_base64, hmac_sha1.
  destruct (base64 _) eqn:E; auto.
  exfalso. revert E. apply base64_nonempty, sha1_nonempty.
Qed.

Lemma hmac_sha1_base64_ascii (key data : jsstring) :
  ascii_text (hmac_sha1_base64 key data).
Proof. apply base64_ascii. Qed.

(** ** UTF-8 of ASCII text *)

Lemma utf8_ascii (s : jsstring) : ascii_text s -> utf8 s = s.
Proof.
  induction 1 as [|c s Hc Hs IH]; simpl; auto.
  unfold is_high_surrogate, is_low_surrogate, utf8_of_code_point.
  replace (55296 <=? c) with false by (symmetry; apply Z.leb_gt; lia).
  replace (56320 <=? c) with false by (symmetry; apply Z.leb_gt; lia).
  replace (c <? 128) with true by (symmetry; apply Z.ltb_lt; lia).
  simpl. now rewrite IH.
Qed.

Lemma utf8_of_code_point_head (cp : Z) :
  match utf8_of_code_point cp with
  | [] => False
  | b :: rest => (b < 128 -> b = cp /\ rest = []) 
  end.
Proof.
  unfold utf8_of_code_point.
  destruct (cp <? 128) eqn:E1; [auto|].
  apply Z.ltb_ge in E1.
  destruct (cp <? 2048); [intros; Z.div_mod_to_equations; lia|].
  destruct (cp <? 65536); intros; Z.div_mod_to_equations; lia.
Qed.

(** A string whose UTF-8 bytes are ASCII text is that text. *)
Lemma utf8_eq_ascii (e : list Z) :
  ascii_text e -> forall s, utf8 s = e -> s = e.
Proof.
  induction 1 as [|b e Hb He IH]; intros s Hs.
  - destruct s as [|c s]; auto. simpl in Hs.
    destruct (is_high_surrogate c).
    + destruct s as [|d s']; [discriminate|].
      destruct (is_low_surrogate d); [|discriminate].
      pose proof (utf8_of_code_point_head (code_point_of_pair c d)) as H.
      destruct (utf8_of_code_point _); [contradiction|discriminate].
    + destruct (is_low_surrogate c); [discriminate|].
      pose proof (utf8_of_code_point_head c) as H.
      destruct (utf8_of_code_point _); [contradiction|discriminate].
  - destruct s as [|c s]; [discriminate|]. simpl in Hs.
    destruct (is_high_surrogate c) eqn:Hh.
    + destruct s as [|d s'].
      * injection Hs as Hs _. lia.
      * destruct (is_low_surrogate d) eqn:Hl.
        -- pose proof (utf8_of_code_point_head (code_point_of_pair c d)) as H.
           destruct (utf8_of_code_point _) as [|b' r]; [contradiction|].
           simpl in Hs. injection Hs as -> Hs.
           destruct (H ltac:(lia)) as [Hcp _].
           unfold is_high_surrogate, is_low_surrogate, code_point_of_pair in *.
           lia.
        -- injection Hs as Hs _. lia.
    + destruct (is_low_surrogate c) eqn:Hl.
      * injection Hs as Hs _. lia.
      * pose proof (utf8_of_code_point_head c) as H.
        destruct (utf8_of_code_point c) as [|b' r]; [contradiction|].
        simpl in Hs. injection Hs as -> Hs.
        destruct (H ltac:(lia)) as [-> ->]. simpl in Hs.
        f_equal. now apply IH.
Qed.

(** ** The order of strings and [sort] *)

Lemma jsltb_irrefl (a : jsstring) : jsltb a a = false.
Proof.
  induction a as [|x a IH]; simpl; auto.
  rewrite Z.ltb_irrefl, Z.eqb_refl, IH. reflexivity.
Qed.

Lemma jsltb_antisym (a b : jsstring) :
  jsltb a b = false -> jsltb b a = false -> a = b.
Proof.
  revert b; induction a as [|x a IH]; intros [|y b]; simpl; auto;
    try discriminate.
  intros H1 H2.
  apply orb_false_iff in H1 as [H1 H1'], H2 as [H2 H2'].
  apply Z.ltb_ge in H1, H2. assert (x = y) by lia. subst y.
  rewrite Z.eqb_refl in H1', H2'. simpl in H1', H2'.
  f_equal. now apply IH.
Qed.

Lemma jsltb_trans (a b c : jsstring) :
  jsltb a b = true -> jsltb b c = true -> jsltb a c = true.
Proof.
  revert b c; induction a as [|x a IH]; intros [|y b] [|z c]; simpl; auto;
    try discriminate.
  intros H1 H2.
  apply orb_true_iff in H1, H2. apply orb_true_iff.
  destruct H1 as [H1|H1], H2 as [H2|H2].
  - left. apply Z.ltb_lt in H1, H2. apply Z.ltb_lt. lia.
  - apply andb_true_iff in H2 as [H2 _]. apply Z.eqb_eq in H2. subst. now left.
  - apply andb_true_iff in H1 as [H1 _]. apply Z.eqb_eq in H1. subst. now left.
  - apply andb_true_iff in H1 as [H1 H1'], H2 as [H2 H2'].
    apply Z.eqb_eq in H1, H2. subst. right. rewrite Z.eqb_refl. simpl.
    eapply IH; eauto.
Qed.

Lemma jsltb_asym (a b : jsstring) : jsltb a b = true -> jsltb b a = false.
Proof.
  intros H. destruct (jsltb b a) eqn:E; auto.
  pose proof (jsltb_trans _ _ _ H E) as C. now rewrite jsltb_irrefl in C.
Qed.

Lemma jsle_trans (a b c : jsstring) : jsle a b -> jsle b c -> jsle a c.
Proof.
  unfold jsle. intros H1 H2.
  destruct (jsltb c a) eqn:E; auto.
  destruct (jsltb a b) eqn:E1.
  - pose proof (jsltb_trans _ _ _ E E1). congruence.
  - assert (a = b) by now apply jsltb_antisym. subst. congruence.
Qed.

Lemma sort_insert_perm (k : jsstring) (l : list jsstring) :
  Permutation (k :: l) (sort_insert k l).
Proof.
  induction l as [|x l IH]; simpl; auto.
  destruct (jsltb x k); auto.
  rewrite perm_swap. now constructor.
Qed.

Lemma sort_perm (l : list jsstring) : Permutation l (sort l).
Proof.
  induction l as [|x l IH]; simpl; auto.
  rewrite <- sort_insert_perm. now constructor.
Qed.

Lemma sort_insert_ascending (k : jsstring) (l : list jsstring) :
  ascending l -> ascending (sort_insert k l).
Proof.
  unfold ascending. induction 1 as [|x l Hl IH Hx]; simpl.
  - repeat constructor.
  - destruct (jsltb x k) eqn:E.
    + constructor; auto.
      rewrite <- sort_insert_perm. constructor; auto.
      now apply jsltb_asym.
    + constructor; [constructor; auto|].
      constructor; [exact E|].
      eapply Forall_impl; [|exact Hx]. intros y Hy.
      now apply (jsle_trans k x y).
Qed.

Lemma sort_ascending (l : list jsstring) : ascending (sort l).
Proof.
  induction l; simpl; [constructor | now apply sort_insert_ascending].
Qed.

Lemma ascending_unique (l l' : list jsstring) :
  ascending l -> ascending l' -> Permutation l l' -> l = l'.
Proof.
  intros Hl. revert l'. induction Hl as [|x l Hl IH Hx]; intros l' Hl' Hp.
  - now apply Permutation_nil in Hp.
  - destruct Hl' as [|y l' Hl' Hy].
    + apply Permutation_sym, Permutation_nil in Hp. discriminate.
    + assert (x = y).
      { assert (In x (y :: l')) as [->|Hin]
          by (eapply Permutation_in; [exact Hp|now left]); auto.
        assert (In y (x :: l)) as [->|Hin']
          by (eapply Permutation_in; [symmetry; exact Hp|now left]); auto.
        rewrite Forall_forall in Hx, Hy.
        symmetry. apply jsltb_antisym; [apply Hx | apply Hy]; auto. }
      subst y. f_equal. apply IH; auto.
      now apply Permutation_cons_inv in Hp.
Qed.

Lemma sort_permutation_eq (l l' : list jsstring) :
  Permutation l l' -> sort l = sort l'.
Proof.
  intros Hp. apply ascending_unique; auto using sort_ascending.
  now rewrite <- !sort_perm.
Qed.

(** ** Look-up in a well-formed object *)

Lemma prop_get_In (o : strmap) (k v : jsstring) :
  wf_strmap o -> (prop_get o k = Some v <-> In (k, v) o).
Proof.
  unfold wf_strmap. induction o as [|[k' v'] o IH]; simpl; intros Hnd.
  - split; [discriminate | contradiction].
  - inversion Hnd as [|? ? Hnotin Hnd']; subst.
    destruct (jseqb k' k) eqn:E.
    + apply jseqb_eq in E. subst k'. split.
      * intros H. injection H as ->. now left.
      * intros [H|H]; [congruence|].
        exfalso. apply Hnotin. apply (in_map fst) in H. exact H.
    + apply jseqb_neq in E. rewrite IH by assumption. split; auto.
      intros [H|H]; [congruence | assumption].
Qed.

Lemma distinct_NoDup (l : list jsstring) : distinct l = true -> NoDup l.
Proof.
  induction l as [|k l IH]; simpl; [constructor|].
  intros H. apply andb_true_iff in H as [H1 H2]. constructor; auto.
  intros Hin. apply negb_true_iff in H1.
  assert (existsb (jseqb k) l = true); [|congruence].
  apply existsb_exists. exists k. split; auto. apply jseqb_refl.
Qed.

Lemma prop_get_permutation (o o' : strmap) (k : jsstring) :
  wf_strmap o -> Permutation o o' -> prop_get o k = prop_get o' k.
Proof.
  intros Hwf Hp.
  assert (Hwf' : wf_strmap o').
  { unfold wf_strmap in *. eapply Permutation_NoDup; [|exact Hwf].
    now apply Permutation_map. }
  destruct (prop_get o k) as [v|] eqn:E.
  - symmetry. apply prop_get_In; auto. eapply Permutation_in; eauto.
    now apply prop_get_In.
  - destruct (prop_get o' k) as [v|] eqn:E'; auto.
    apply prop_get_In in E'; auto.
    eapply Permutation_in in E'; [|symmetry; exact Hp].
    apply prop_get_In in E'; auto. congruence.
Qed.

Lemma prop_delete_permutation (o o' : strmap) (k : jsstring) :
  Permutation o o' -> Permutation (prop_delete o k) (prop_delete o' k).
Proof.
  unfold prop_delete. induction 1; simpl; auto.
  - destruct (negb _); auto.
  - destruct (negb _), (negb _); auto. apply perm_swap.
  - etransitivity; eauto.
Qed.

Lemma prop_delete_wf (o : strmap) (k : jsstring) :
  wf_strmap o -> wf_strmap (prop_delete o k).
Proof.
  unfold wf_strmap, prop_delete. induction o as [|[k' v'] o IH]; simpl; auto.
  intros Hnd. inversion Hnd as [|? ? Hnotin Hnd']; subst.
  destruct (negb (jseqb k' k)); simpl; auto.
  constructor; auto.
  intros Hin. apply Hnotin. apply in_map_iff in Hin as [[k1 v1] [<- Hin]].
  apply filter_In in Hin as [Hin _]. now apply (in_map fst) in Hin.
Qed.

Lemma prop_delete_keys (o : strmap) (k k' : jsstring) :
  In k' (Object_keys (prop_delete o k)) <-> k' <> k /\ In k' (Object_keys o).
Proof.
  unfold Object_keys, prop_delete. rewrite !in_map_iff. split.
  - intros [[a b] [<- H]]. apply filter_In in H as [H1 H2]. simpl in *.
    apply negb_true_iff, jseqb_neq in H2. split; auto. now exists (a, b).
  - intros [Hne [[a b] [<- H]]]. exists (a, b). split; auto.
    apply filter_In. split; auto. simpl. now apply negb_true_iff, jseqb_neq.
Qed.

Lemma prop_get_delete_ne (o : strmap) (k k' : jsstring) :
  k' <> k -> prop_get (prop_delete o k) k' = prop_get o k'.
Proof.
  intros Hne. unfold prop_delete. induction o as [|[a b] o IH]; simpl; auto.
  destruct (jseqb a k) eqn:E; simpl.
  - apply jseqb_eq in E. subst a.
    destruct (jseqb k k') eqn:E'; auto. apply jseqb_eq in E'. congruence.
  - destruct (jseqb a k'); auto.
Qed.

(** ** OAuth signing and verification *)

Section OAuthProperties.
Context {rt : Runtime}.

(** The base string does not depend on the signature field. *)
Lemma buildBaseString_set_signature (method url : jsstring) (params : strmap)
    (v : jsstring) :
  buildBaseString method url (prop_set params (lit "oauth_signature") v)
  = buildBaseString method url params.
Proof. unfold buildBaseString. now rewrite prop_delete_set. Qed.

(** With a signature field present, verification compares it with the
    expected digest text, character by character. *)
Lemma validateLtiLaunch_decides (params : strmap) (secret url : jsstring)
    (base s sig : jsstring) :
  prop_get params (lit "oauth_signature") = Some sig ->
  buildBaseString (lit "POST") url params = Ok base ->
  encodeURIComponent secret = Ok s ->
  validateLtiLaunch params secret url
  = Ok (jseqb sig (hmac_sha1_base64 (s ++ lit "&") base)).
Proof.
  intros Hget Hbase Hs. unfold validateLtiLaunch. rewrite Hget.
  set (expected := hmac_sha1_base64 (s ++ lit "&") base).
  pose proof (hmac_sha1_base64_truthy (s ++ lit "&") base) as Hne.
  pose proof (hmac_sha1_base64_ascii (s ++ lit "&") base) as Hascii.
  fold expected in Hne, Hascii.
  destruct sig as [|c sig]; cbv beta iota delta [negb truthy].
  - destruct expected; [discriminate | reflexivity].
  - cbv iota. rewrite Hbase, Hs. cbv beta iota delta [rbind]. fold expected.
    unfold timingSafeEqual. rewrite (utf8_ascii expected Hascii).
    destruct (jseqb (c :: sig) expected) eqn:E.
    + apply jseqb_eq in E. rewrite E, (utf8_ascii expected Hascii).
      rewrite Nat.eqb_refl. now rewrite jseqb_refl.
    + destruct (length (utf8 (c :: sig)) =? length expected)%nat; auto.
      destruct (jseqb (utf8 (c :: sig)) expected) eqn:E'; auto.
      apply jseqb_eq in E'. apply (utf8_eq_ascii expected Hascii) in E'.
      apply jseqb_neq in E. contradiction.
Qed.

(** C1. Signing a parameter map for POST and a URL, storing the signature
    in [oauth_signature] and verifying against the same secret and URL gives
    [true]; with any other text in [oauth_signature] verification gives
    [false], in particular with the signature changed in one character. *)
Theorem sign_then_verify (params : strmap) (secret url sig : jsstring) :
  signRequest (lit "POST") url params secret = Ok sig ->
  validateLtiLaunch (prop_set params (lit "oauth_signature") sig) secret url
  = Ok true
  /\ (forall sig' : jsstring, sig' <> sig ->
        validateLtiLaunch (prop_set params (lit "oauth_signature") sig')
                          secret url
        = Ok false)
  /\ (forall (before after : jsstring) (c c' : Z),
        sig = before ++ c :: after -> c' <> c ->
        validateLtiLaunch
          (prop_set params (lit "oauth_signature") (before ++ c' :: after))
          secret url
        = Ok false).
Proof.
  unfold signRequest. intros Hsign.
  destruct (buildBaseString (lit "POST") url params) as [base|e] eqn:Hb;
    [|discriminate].
  destruct (encodeURIComponent secret) as [s|e] eqn:Hs; [|discriminate].
  simpl in Hsign. injection Hsign as Hsig.
  assert (Hdec : forall x,
    validateLtiLaunch (prop_set params (lit "oauth_signature") x) secret url
    = Ok (jseqb x sig)).
  { intros x. rewrite <- Hsig.
    apply validateLtiLaunch_decides; auto using prop_get_set_eq.
    now rewrite buildBaseString_set_signature. }
  assert (Hne : forall sig', sig' <> sig ->
    validateLtiLaunch (prop_set params (lit "oauth_signature") sig') secret url
    = Ok false).
  { intros sig' Hd. rewrite Hdec. f_equal. now apply jseqb_neq. }
  split; [|split].
  - now rewrite Hdec, jseqb_refl.
  - exact Hne.
  - intros before after c c' -> Hc. apply Hne.
    intros H. apply app_inv_head in H. injection H as H. contradiction.
Qed.

Lemma encode_pairs_ext (fp fp' : strmap) (keys : list jsstring) :
  (forall k, In k keys -> prop_get fp k = prop_get fp' k) ->
  encode_pairs fp keys = encode_pairs fp' keys.
Proof.
  induction keys as [|k keys IH]; simpl; auto.
  intros H. rewrite (H k) by now left. rewrite IH; auto.
Qed.

Lemma buildBaseString_permutation (method url : jsstring) (p q : strmap) :
  wf_strmap p -> Permutation p q ->
  buildBaseString method url p = buildBaseString method url q.
Proof.
  intros Hwf Hp. unfold buildBaseString.
  pose proof (prop_delete_permutation p q (lit "oauth_signature") Hp) as Hd.
  rewrite (sort_permutation_eq _ (Object_keys (prop_delete q (lit "oauth_signature"))))
    by (unfold Object_keys; now apply Permutation_map).
  rewrite (encode_pairs_ext _ (prop_delete q (lit "oauth_signature"))); auto.
  intros k _. apply prop_get_permutation; auto using prop_delete_wf.
Qed.

Lemma encode_pairs_texts (fp : strmap) (keys pairs : list jsstring) :
  (forall k, In k keys -> In k (Object_keys fp)) ->
  encode_pairs fp keys = Ok pairs -> Forall2 (pair_text fp) keys pairs.
Proof.
  revert pairs. induction keys as [|k keys IH]; simpl; intros pairs Hin H.
  - injection H as <-. constructor.
  - destruct (encodeRfc3986 k) as [ek|] eqn:Ek; [|discriminate].
    cbv beta iota delta [rbind] in H.
    destruct (prop_get fp k) as [v|] eqn:Eg.
    + destruct (encodeRfc3986 v) as [ev|] eqn:Ev; [|discriminate].
      destruct (encode_pairs fp keys) as [r|] eqn:Er; [|discriminate].
      injection H as <-. constructor; auto.
      exists v, ek, ev. auto.
    + exfalso. specialize (Hin k (or_introl eq_refl)).
      unfold Object_keys in Hin. apply in_map_iff in Hin as [[a b] [Ha Hb]].
      simpl in Ha. subst a. clear - Eg Hb.
      induction fp as [|[a' b'] fp IH]; simpl in *; auto.
      destruct (jseqb a' k) eqn:E; [discriminate|].
      destruct Hb as [Hb|Hb]; auto.
      injection Hb as -> ->. now rewrite jseqb_refl in E.
Qed.

(** C3, as the code has it. The base string leaves [oauth_signature] out
    and lists the remaining parameters in ascending order of their keys as
    stored (UTF-16 code units, compared before any encoding), each as
    encoded key, [=], encoded value, joined with [&]; two objects with the
    same bindings in different enumeration orders give the same base string
    and the same signature. *)
Theorem buildBaseString_order_independent
    (method url secret : jsstring) (p q : strmap) :
  wf_strmap p -> Permutation p q ->
  buildBaseString method url p = buildBaseString method url q
  /\ signRequest method url p secret = signRequest method url q secret
  /\ forall b, buildBaseString method url p = Ok b ->
       exists ks pairs n u ps,
         Permutation ks (Object_keys (prop_delete p (lit "oauth_signature")))
         /\ ~ In (lit "oauth_signature") ks
         /\ ascending ks
         /\ Forall2 (pair_text p) ks pairs
         /\ normalizeUrl url = Ok n
         /\ encodeRfc3986 n = Ok u
         /\ encodeRfc3986 (join (lit "&") pairs) = Ok ps
         /\ b = toUpperCase method ++ lit "&" ++ u ++ lit "&" ++ ps.
Proof.
  intros Hwf Hp.
  pose proof (buildBaseString_permutation method url p q Hwf Hp) as Heq.
  split; [exact Heq|]. split; [unfold signRequest; now rewrite Heq|].
  intros b Hb. unfold buildBaseString in Hb.
  set (fp := prop_delete p (lit "oauth_signature")) in *.
  destruct (encode_pairs fp (sort (Object_keys fp))) as [pairs|] eqn:Epairs;
    [|discriminate].
  cbv beta iota delta [rbind] in Hb.
  destruct (normalizeUrl url) as [n|] eqn:En; [|discriminate].
  destruct (encodeRfc3986 n) as [u|] eqn:Eu; [|discriminate].
  destruct (encodeRfc3986 (join (lit "&") pairs)) as [ps|] eqn:Eps;
    [|discriminate].
  injection Hb as <-.
  exists (sort (Object_keys fp)), pairs, n, u, ps.
  assert (Hks : forall k, In k (sort (Object_keys fp)) -> In k (Object_keys fp)).
  { intros k Hk. eapply Permutation_in; [symmetry; apply sort_perm|exact Hk]. }
  repeat split; auto using sort_ascending.
  - symmetry. apply sort_perm.
  - intros Hin. apply Hks in Hin. apply prop_delete_keys in Hin. tauto.
  - apply encode_pairs_texts in Epairs; auto.
    clear - Epairs Hks. revert Hks.
    induction Epairs as [|k s ks ss Hk Hrest IH]; intros Hks; constructor.
    + destruct Hk as (v & ek & ev & Hg & R).
      exists v, ek, ev. split; auto.
      rewrite <- Hg. symmetry. apply prop_get_delete_ne.
      intros ->. specialize (Hks _ (or_introl eq_refl)).
      apply prop_delete_keys in Hks. tauto.
    + apply IH. intros k' Hk'. apply Hks. now right.
Qed.

(** Without a usable signature field the answer is [false], whatever the
    other arguments are. *)
Lemma validateLtiLaunch_no_signature (params : strmap) (secret url : jsstring) :
  truthy_opt (prop_get params (lit "oauth_signature")) = false ->
  validateLtiLaunch params secret url = Ok false.
Proof.
  unfold validateLtiLaunch.
  destruct (prop_get params (lit "oauth_signature")) as [[|c s]|];
    intros H; try reflexivity. discriminate H.
Qed.

(** The base string needs the URL to parse. *)
Lemma buildBaseString_bad_url (method url : jsstring) (params : strmap) :
  URL_parse url = None ->
  exists e, buildBaseString method url params = Throw e.
Proof.
  intros Hu. unfold buildBaseString, normalizeUrl. rewrite Hu.
  destruct (encode_pairs _ _); simpl; eauto.
Qed.

(** C2, as the code has it. Verification answers [false] when
    [oauth_signature] is absent or empty, for every URL; with a signature
    present it answers with a boolean whenever the base string and the
    signing key can be built, and otherwise the exception of the failing
    step leaves the function: a URL that does not parse raises. *)
Theorem validateLtiLaunch_outcomes (params : strmap) (secret url : jsstring) :
  (truthy_opt (prop_get params (lit "oauth_signature")) = false ->
   validateLtiLaunch params secret url = Ok false)
  /\ (truthy_opt (prop_get params (lit "oauth_signature")) = true ->
      (forall base s, buildBaseString (lit "POST") url params = Ok base ->
                      encodeURIComponent secret = Ok s ->
                      exists b, validateLtiLaunch params secret url = Ok b)
      /\ (URL_parse url = None ->
          exists e, validateLtiLaunch params secret url = Throw e)).
Proof.
  split; [apply validateLtiLaunch_no_signature|].
  intros Hsig.
  destruct (prop_get params (lit "oauth_signature")) as [sig|] eqn:Hget;
    [|discriminate].
  split.
  - intros base s Hb Hs. eexists.
    now apply (validateLtiLaunch_decides params secret url base s sig).
  - intros Hu. unfold validateLtiLaunch. rewrite Hget.
    simpl in Hsig. rewrite Hsig. cbv beta iota delta [negb].
    destruct (buildBaseString_bad_url (lit "POST") url params Hu) as [e He].
    rewrite He. cbv beta iota delta [rbind]. eauto.
Qed.

End OAuthProperties.

(** The code orders the keys as stored; the order of the encoded keys is
    another one.  With the keys [a1] and [a=] the code puts [a1] first,
    while the encoded keys are [a1] and [a%3D], and [a%3D] sorts first. *)
Lemma buildBaseString_not_by_encoded_key :
  buildBaseString (lit "POST") (lit "https://host/lti/launch")
                  [(lit "a=", lit "y"); (lit "a1", lit "x")]
  = Ok (lit "POST&https%3A%2F%2Fhost%2Flti%2Flaunch&a1%3Dx%26a%253D%3Dy")
  /\ spec_buildBaseString (lit "POST") (lit "https://host/lti/launch")
                          [(lit "a=", lit "y"); (lit "a1", lit "x")]
     = Ok (lit "POST&https%3A%2F%2Fhost%2Flti%2Flaunch&a%253D%3Dy%26a1%3Dx")
  /\ buildBaseString (lit "POST") (lit "https://host/lti/launch")
                     [(lit "a=", lit "y"); (lit "a1", lit "x")]
     <> spec_buildBaseString (lit "POST") (lit "https://host/lti/launch")
                             [(lit "a=", lit "y"); (lit "a1", lit "x")].
Proof.
  split; [vm_compute; reflexivity|]. split; [vm_compute; reflexivity|].
  vm_compute. intros H. discriminate H.
Qed.

Lemma buildBaseString_order_independent_witness :
  buildBaseString (lit "POST") (lit "https://host/lti/launch")
      [(lit "user_id", lit "u 1"); (lit "a!", lit "1")]
  = buildBaseString (lit "POST") (lit "https://host/lti/launch")
      [(lit "a!", lit "1"); (lit "user_id", lit "u 1")].
Proof.
  refine (proj1 (buildBaseString_order_independent (rt := sample_runtime)
            (lit "POST") (lit "https://host/lti/launch") (lit "s3cr3t")
            [(lit "user_id", lit "u 1"); (lit "a!", lit "1")]
            [(lit "a!", lit "1"); (lit "user_id", lit "u 1")] _ _)).
  - apply distinct_NoDup. vm_compute. reflexivity.
  - apply perm_swap.
Defined.

(** A launch whose signature field is present, checked against a URL
    that does not parse: the TypeError of [new URL] leaves
    [validateLtiLaunch]; no boolean is returned. *)
Lemma validateLtiLaunch_throws_on_bad_url :
  validateLtiLaunch [(lit "oauth_signature", lit "abc")]
                    (lit "s3cr3t") (lit "not a url")
  = Throw TypeError_InvalidURL
  /\ forall b : bool,
       validateLtiLaunch [(lit "oauth_signature", lit "abc")]
                         (lit "s3cr3t") (lit "not a url")
       <> Ok b.
Proof.
  assert (H : validateLtiLaunch [(lit "oauth_signature", lit "abc")]
                (lit "s3cr3t") (lit "not a url") = Throw TypeError_InvalidURL)
    by (vm_compute; reflexivity).
  split; [exact H|]. intros b. rewrite H. discriminate.
Qed.

Lemma validateLtiLaunch_outcomes_witness :
  validateLtiLaunch [(lit "user_id", lit "u 1")]
                    (lit "s3cr3t") (lit "not a url") = Ok false
  /\ exists e,
       validateLtiLaunch [(lit "oauth_signature", lit "abc")]
                         (lit "s3cr3t") (lit "not a url") = Throw e.
Proof.
  split.
  - refine (proj1 (validateLtiLaunch_outcomes (rt := sample_runtime)
             [(lit "user_id", lit "u 1")] (lit "s3cr3t") (lit "not a url")) _).
    reflexivity.
  - refine (proj2 (proj2 (validateLtiLaunch_outcomes (rt := sample_runtime)
             [(lit "oauth_signature", lit "abc")] (lit "s3cr3t")
             (lit "not a url")) _) _); reflexivity.
Defined.

Lemma sign_then_verify_witness :
  validateLtiLaunch
    (prop_set [(lit "user_id", lit "u 1"); (lit "a!", lit "1")]
              (lit "oauth_signature") (lit "bJYllRpkde27zJCOF17buWVLO90="))
    (lit "s3cr3t") (lit "https://host/lti/launch")
  = Ok true.
Proof.
  refine (proj1 (sign_then_verify (rt := sample_runtime)
            [(lit "user_id", lit "u 1"); (lit "a!", lit "1")]
            (lit "s3cr3t") (lit "https://host/lti/launch")
            (lit "bJYllRpkde27zJCOF17buWVLO90=") _)).
  vm_compute. reflexivity.
Defined.

(** ** The launch path of a manifest *)

Section ManifestProperties.
Context {rt : Runtime}.

Lemma item_found (item : ItemData) (resources : list ResourceData) :
  (if truthy_opt (resourceId item) then
     match find (fun r => jseqb (res_identifier r) (the (resourceId item)))
                resources with
     | Some resource =>
         if truthy_opt (href resource) then href resource else None
     | None => None
     end
   else None)
  = match referenced resources item with
    | Some r => if has_href r then href r else None
    | None => None
    end.
Proof.
  unfold referenced, has_href.
  destruct (resourceId item) as [id|]; simpl; auto.
  destruct (truthy id); auto.
Qed.

Lemma launch_of_items_find (its : list ItemData) (resources : list ResourceData) :
  launch_of_items its resources
  = match find (fun item => match referenced resources item with
                            | Some r => has_href r
                            | None => false
                            end) its with
    | Some item => match referenced resources item with
                   | Some r => href r
                   | None => None
                   end
    | None => None
    end.
Proof.
  induction its as [|item its IH]; [reflexivity|].
  cbn [launch_of_items find]. rewrite item_found, IH.
  destruct (referenced resources item) as [r|] eqn:E; auto.
  unfold has_href, truthy_opt.
  destruct (href r) as [h|] eqn:Eh; auto.
  destruct (truthy h); auto. now rewrite E.
Qed.
Lemma find_app_first {A} (f : A -> bool) (l l' : list A) :
  find f (l ++ l') = match find f l with Some x => Some x | None => find f l' end.
Proof. induction l as [|a l IH]; simpl; auto. destruct (f a); auto. Qed.

Lemma launch_of_organizations_find (orgs : list OrganizationData)
    (resources : list ResourceData) :
  launch_of_organizations orgs resources
  = match find (fun item => match referenced resources item with
                            | Some r => has_href r
                            | None => false
                            end) (flat_map items orgs) with
    | Some item => match referenced resources item with
                   | Some r => href r
                   | None => None
                   end
    | None => None
    end.
Proof.
  induction orgs as [|org orgs IH]; simpl; auto.
  rewrite find_app_first, launch_of_items_find.
  destruct (find _ (items org)) as [item|] eqn:E.
  - apply find_some in E as [_ E].
    destruct (referenced resources item) as [r|]; [|discriminate].
    unfold has_href, truthy_opt in E. destruct (href r); [auto|discriminate].
  - exact IH.
Qed.

Lemma launch_of_sco_find (resources : list ResourceData) :
  launch_of_sco resources
  = match find (fun r => has_href r && is_sco r) resources with
    | Some r => href r
    | None => None
    end.
Proof.
  induction resources as [|r rs IH]; simpl; auto.
  unfold has_href at 1, is_sco at 1.
  destruct (truthy_opt (href r) && _); auto.
Qed.

(** C8. The launch path is the href of the resource referenced by the first
    item, in document order across the organizations, whose referenced
    resource has an href; otherwise the href of the first resource that has
    an href and whose SCORM type, in lower case, is [sco]; otherwise the
    href of the first resource with an href; otherwise [index.html].  To
    have an href (or an identifierref) is to have a non-empty one, and the
    resource an item references is the first one with that identifier. *)
Theorem findLaunchPath_spec (organizations : list OrganizationData)
    (resources : list ResourceData) :
  findLaunchPath organizations resources
  = spec_launchPath organizations resources.
Proof.
  unfold findLaunchPath, spec_launchPath.
  rewrite launch_of_organizations_find, launch_of_sco_find.
  destruct (find _ (flat_map items organizations)) as [item|] eqn:E.
  - apply find_some in E as [_ E].
    destruct (referenced resources item) as [r|]; [|discriminate].
    unfold has_href, truthy_opt in E.
    destruct (href r); [reflexivity|discriminate].
  - destruct (find (fun r => has_href r && is_sco r) resources) as [r|] eqn:E1.
    + apply find_some in E1 as [_ E1]. apply andb_true_iff in E1 as [E1 _].
      unfold has_href, truthy_opt in E1.
      destruct (href r); [reflexivity|discriminate].
    + fold has_href.
      destruct (find has_href resources) as [r|] eqn:E2; [|reflexivity].
      apply find_some in E2 as [_ E2]. unfold has_href, truthy_opt in E2.
      destruct (href r) as [h|]; [|discriminate]. simpl. now rewrite E2.
Qed.

End ManifestProperties.

(** The round trip of the specification: one organization with one item and
    one resource gives the declared href; without organizations the SCO
    resource, then any href, then the default. *)
Example findLaunchPath_examples :
  findLaunchPath
    [mkOrg (lit "org_1") (lit "Course")
       [mkItem (lit "item_1") (lit "Lesson") (Some (lit "res_1"))]]
    [mkRes (lit "res_1") (lit "webcontent") (Some (lit "a/start.html"))
       (Some (lit "sco"))]
  = lit "a/start.html"
  /\ findLaunchPath []
       [mkRes (lit "r0") (lit "webcontent") (Some (lit "asset.css")) None;
        mkRes (lit "r1") (lit "webcontent") (Some (lit "main.html"))
          (Some (lit "SCO"))]
     = lit "main.html"
  /\ findLaunchPath []
       [mkRes (lit "r0") (lit "webcontent") None None;
        mkRes (lit "r1") (lit "webcontent") (Some (lit "page.html")) None]
     = lit "page.html"
  /\ findLaunchPath [] [mkRes (lit "r0") (lit "webcontent") None None]
     = lit "index.html".
Proof. repeat split; vm_compute; reflexivity. Qed.

(** ** Decimal numerals *)

Lemma digits10_value (fuel : nat) (n : Z) (acc : jsstring) :
  0 <= n < 2 ^ Z.of_nat fuel ->
  fold_left (fun acc d => acc * 10 + (d - 48)) (digits10 fuel n acc) 0
  = fold_left (fun acc d => acc * 10 + (d - 48)) acc n.
Proof.
  revert n acc. induction fuel as [|fuel IH]; intros n acc Hn.
  - cbn [digits10]. change (2 ^ Z.of_nat 0) with 1 in Hn.
    replace n with 0 by lia. reflexivity.
  - cbn [digits10]. destruct (n <? 10) eqn:E.
    + cbn [fold_left]. f_equal. lia.
    + apply Z.ltb_ge in E. rewrite IH.
      * cbn [fold_left]. f_equal.
        pose proof (Z.div_mod n 10 ltac:(lia)). lia.
      * rewrite Nat2Z.inj_succ, Z.pow_succ_r in Hn by lia.
        split; [apply Z.div_pos; lia|].
        apply Z.div_lt_upper_bound; lia.
Qed.

(** The numeral of a non-negative integer reads back as that integer. *)
Lemma toString10_value (n : Z) : 0 <= n -> decimal_value (toString10 n) = n.
Proof.
  intros Hn. unfold toString10, decimal_value.
  replace (n <? 0) with false by (symmetry; apply Z.ltb_ge; lia).
  rewrite (digits10_value _ n []); [reflexivity|].
  rewrite Nat2Z.inj_succ, Z2Nat.id by apply Z.log2_nonneg.
  destruct (Z.eq_dec n 0) as [->|Hz]; [cbn; lia|].
  pose proof (Z.log2_spec n ltac:(lia)). lia.
Qed.

(** ** The dispatch package *)

(** Is the code unit [c] the code [k]?  In the first goal [c] is replaced
    by [k]; the second keeps the test as [E]. *)
Ltac case_code c k E :=
  destruct (c =? k) eqn:E; [apply Z.eqb_eq in E; subst c|].

Lemma replaceAll_flat_map (c : Z) (r s : jsstring) :
  replaceAll c r s = flat_map (fun x => if x =? c then r else [x]) s.
Proof. reflexivity. Qed.

Lemma flat_map_flat_map {A B C} (f : A -> list B) (g : B -> list C) (l : list A) :
  flat_map g (flat_map f l) = flat_map (fun a => flat_map g (f a)) l.
Proof.
  induction l as [|a l IH]; simpl; auto. now rewrite flat_map_app, IH.
Qed.

Lemma escapeXml_chars (s : jsstring) : escapeXml s = flat_map xml_entity s.
Proof.
  unfold escapeXml, replaceAll. rewrite !flat_map_flat_map.
  apply flat_map_ext. intros c. unfold xml_entity.
  case_code c 38 E1; [reflexivity|]. case_code c 60 E2; [reflexivity|].
  case_code c 62 E3; [reflexivity|]. case_code c 34 E4; [reflexivity|].
  case_code c 39 E5; [reflexivity|].
  simpl. rewrite E2. simpl. rewrite E3. simpl. rewrite E4. simpl.
  rewrite E5. reflexivity.
Qed.

Lemma escapeJs_chars (s : jsstring) : escapeJs s = flat_map js_escape s.
Proof.
  unfold escapeJs, replaceAll. rewrite !flat_map_flat_map.
  apply flat_map_ext. intros c. unfold js_escape.
  case_code c 92 E1; [reflexivity|]. case_code c 39 E2; [reflexivity|].
  case_code c 34 E3; [reflexivity|]. case_code c 10 E4; [reflexivity|].
  case_code c 13 E5; [reflexivity|].
  simpl. rewrite E2. simpl. rewrite E3. simpl. rewrite E4. simpl.
  rewrite E5. reflexivity.
Qed.

Lemma literal_value_step (c : Z) (rest r : jsstring) :
  literal_value rest = Some r ->
  literal_value (js_escape c ++ rest) = Some (c :: r).
Proof.
  intros H. unfold js_escape.
  case_code c 92 E1; [simpl; now rewrite H|].
  case_code c 39 E2; [simpl; now rewrite H|].
  case_code c 34 E3; [simpl; now rewrite H|].
  case_code c 10 E4; [simpl; now rewrite H|].
  case_code c 13 E5; [simpl; now rewrite H|].
  simpl. rewrite E1, E2, E4, E5, H. reflexivity.
Qed.

Lemma literal_value_escapeJs (s : jsstring) :
  literal_value (escapeJs s) = Some s.
Proof.
  rewrite escapeJs_chars.
  induction s as [|c s IH]; [reflexivity|].
  cbn [flat_map]. now apply literal_value_step.
Qed.

Lemma escapeXml_no_lt (s : jsstring) : no_lt (escapeXml s).
Proof.
  rewrite escapeXml_chars. unfold no_lt.
  induction s as [|c s IH]; simpl; [constructor|].
  apply Forall_app. split; auto. unfold xml_entity.
  destruct (c =? 38); [repeat constructor; discriminate|].
  destruct (c =? 60) eqn:E; [repeat constructor; discriminate|].
  destruct (c =? 62); [repeat constructor; discriminate|].
  destruct (c =? 34); [repeat constructor; discriminate|].
  destruct (c =? 39); [repeat constructor; discriminate|].
  repeat constructor. now apply Z.eqb_neq.
Qed.

Lemma digits10_no_lt (fuel : nat) (n : Z) (acc : jsstring) :
  no_lt acc -> no_lt (digits10 fuel n acc).
Proof.
  revert n acc.
  induction fuel as [|fuel IH]; intros n acc Hacc; cbn [digits10]; auto.
  destruct (n <? 10) eqn:E.
  - apply Z.ltb_lt in E. constructor; auto. lia.
  - apply IH. constructor; auto.
    pose proof (Z.mod_pos_bound n 10 ltac:(lia)). lia.
Qed.

Lemma toString10_no_lt (n : Z) : no_lt (toString10 n).
Proof.
  unfold toString10. destruct (n <? 0).
  - constructor; [discriminate|]. apply digits10_no_lt. constructor.
  - apply digits10_no_lt. constructor.
Qed.

Lemma count_sub_skip (p a b : jsstring) :
  no_lt a -> count_sub (60 :: p) (a ++ b) = count_sub (60 :: p) b.
Proof.
  induction 1 as [|c a Hc Ha IH]; [reflexivity|].
  cbn [app count_sub is_prefix].
  replace (60 =? c) with false by (symmetry; apply Z.eqb_neq; congruence).
  exact IH.
Qed.

(** Occurrences of a tag opening in the manifest: none lie in the
    identifier or in the escaped titles, which hold no [<]. *)
Lemma manifest_count (p : jsstring) (courseTitle : jsstring) (now : Z) :
  (forall x, count_sub (60 :: p) (manifest_part1 ++ x) = count_sub (60 :: p) x) ->
  (forall x, count_sub (60 :: p) (lit "dispatch_" ++ x) = count_sub (60 :: p) x) ->
  (forall x, count_sub (60 :: p) (manifest_part2 ++ x) = count_sub (60 :: p) x) ->
  (forall x, count_sub (60 :: p) (manifest_part3 ++ x) = count_sub (60 :: p) x) ->
  count_sub (60 :: p) (generateManifest courseTitle now)
  = count_sub (60 :: p) manifest_part4.
Proof.
  intros H1 Hd H2 H3. unfold generateManifest.
  rewrite H1, <- app_assoc, Hd.
  rewrite (count_sub_skip p _ _ (toString10_no_lt now)), H2.
  rewrite (count_sub_skip p _ _ (escapeXml_no_lt courseTitle)), H3.
  now rewrite (count_sub_skip p _ _ (escapeXml_no_lt courseTitle)).
Qed.

(** C9. The archive holds the two entries [imsmanifest.xml] and
    [launcher.html], in that order, with the UTF-8 bytes of the manifest and
    of the launcher.  The manifest opens one [resource] element, the one
    whose href is [launcher.html], and carries the title twice, with the
    five XML characters replaced by their entities.  The launcher sets
    [launchUrl] to a single-quoted literal whose body is the URL with a
    backslash put before each backslash and quote and with line feed and
    carriage return written as their escapes; read back as a string
    literal it is the URL. *)
Theorem dispatch_package_contents (courseTitle launchUrl : jsstring) (now : Z) :
  let pkg := generateDispatchPackage courseTitle launchUrl now in
  let manifest := generateManifest courseTitle now in
  let launcher := generateLauncher launchUrl in
  map entryName pkg = [lit "imsmanifest.xml"; lit "launcher.html"]
  /\ map entryData pkg = [utf8 manifest; utf8 launcher]
  /\ count_sub (tpl "<resource ") manifest = 1%nat
  /\ count_sub (tpl "<resource identifier=`res_1` type=`webcontent` adlcp:scormtype=`sco` href=`launcher.html`>") manifest = 1%nat
  /\ manifest = manifest_part1 ++ lit "dispatch_" ++ toString10 now
                  ++ manifest_part2 ++ flat_map xml_entity courseTitle
                  ++ manifest_part3 ++ flat_map xml_entity courseTitle
                  ++ manifest_part4
  /\ (exists before after,
        launcher = before ++ lit "var launchUrl = '"
                     ++ flat_map js_escape launchUrl ++ lit "';" ++ after)
  /\ literal_value (flat_map js_escape launchUrl) = Some launchUrl.
Proof.
  cbv zeta.
  split; [reflexivity|]. split; [reflexivity|].
  split.
  { change (tpl "<resource ") with (60 :: tpl "resource ").
    rewrite manifest_count; try (intros x; vm_compute; reflexivity).
    vm_compute. reflexivity. }
  split.
  { change (tpl "<resource identifier=`res_1` type=`webcontent` adlcp:scormtype=`sco` href=`launcher.html`>")
      with (60 :: tpl "resource identifier=`res_1` type=`webcontent` adlcp:scormtype=`sco` href=`launcher.html`>").
    rewrite manifest_count; try (intros x; vm_compute; reflexivity).
    vm_compute. reflexivity. }
  split.
  { unfold generateManifest. rewrite escapeXml_chars, <- !app_assoc.
    reflexivity. }
  split.
  { exists (firstn (length launcher_part1 - 17) launcher_part1).
    exists (skipn 2 launcher_part2).
    unfold generateLauncher. rewrite escapeJs_chars.
    rewrite (app_assoc _ (lit "var launchUrl = '")).
    replace (firstn (length launcher_part1 - 17) launcher_part1
             ++ lit "var launchUrl = '") with launcher_part1
      by (vm_compute; reflexivity).
    repeat f_equal. }
  rewrite <- escapeJs_chars. apply literal_value_escapeJs.
Qed.

(** ** Numbers and the text of a clamped score *)

Lemma digits2_pos_bound (m : positive) : Z.pos m < 2 ^ Z.pos (digits2_pos m).
Proof.
  induction m as [m IH|m IH|]; cbn [digits2_pos].
  - rewrite Pos2Z.inj_succ, Z.pow_succ_r by lia. lia.
  - rewrite Pos2Z.inj_succ, Z.pow_succ_r by lia. lia.
  - reflexivity.
Qed.

(** A binary64 value below 1 has a negative exponent and a mantissa below
    the matching power of two. *)
Lemma below_one (m : positive) (e : Z) :
  is_binary64 (S754_finite false m e) = true ->
  SFcompare (num 1) (S754_finite false m e) = Some Gt ->
  e < 0 /\ Z.pos m < 2 ^ (- e).
Proof.
  unfold is_binary64, valid_binary, bounded, canonical_mantissa, fexp, emin.
  intros Hv Hc. apply andb_true_iff in Hv as [Hv _]. apply Z.eqb_eq in Hv.
  pose proof (digits2_pos_bound m) as Hd.
  change (num 1) with (S754_finite false 4503599627370496 (-52)) in Hc.
  cbn [SFcompare] in Hc.
  destruct (Z.compare (-52) e) eqn:Ec; try discriminate.
  - apply Z.compare_eq in Ec. subst e. split; [lia|].
    injection Hc as Hc. rewrite Pos.compare_cont_spec in Hc.
    destruct (Pos.compare 4503599627370496 m) eqn:E; try discriminate Hc.
    apply Pos.compare_gt_iff in E. change (2 ^ (- -52)) with 4503599627370496.
    now apply Pos2Z.pos_lt_pos.
  - rewrite Z.compare_gt_iff in Ec. split; [lia|].
    assert (Z.pos (digits2_pos m) <= 53) by lia.
    eapply Z.lt_le_trans; [exact Hd|].
    apply Z.pow_le_mono_r; lia.
Qed.

Lemma hundredths_range (m : positive) (e : Z) :
  e < 0 -> Z.pos m < 2 ^ (- e) -> 0 <= hundredths m e <= 100.
Proof.
  intros He Hm. unfold hundredths.
  replace (0 <=? e) with false by (symmetry; apply Z.leb_gt; lia).
  replace (1 - e) with (Z.succ (- e)) by lia.
  rewrite Z.pow_succ_r by lia.
  set (D := 2 ^ (- e)) in *.
  assert (0 < D) by (apply Z.pow_pos_nonneg; lia).
  split.
  - apply Z.div_pos; lia.
  - assert ((200 * Z.pos m + D) / (2 * D) < 101); [|lia].
    apply Z.div_lt_upper_bound; lia.
Qed.

Lemma fixed2_text_100 : fixed2_text 100 = lit "1.00".
Proof. reflexivity. Qed.

Lemma toFixed2_clamped (x : number) :
  is_binary64 x = true -> is_nan x = false ->
  toFixed2 (Math_max (num 0) (Math_min (num 1) x))
  = Some (fixed2_text (clamped_hundredths x))
  /\ 0 <= clamped_hundredths x <= 100.
Proof.
  intros Hv Hn.
  destruct x as [s|s| |s m e]; try discriminate.
  - destruct s; split; try reflexivity; simpl; lia.
  - destruct s; split; try reflexivity; simpl; lia.
  - destruct s.
    + split; [reflexivity | simpl; lia].
    + unfold clamped_hundredths.
      destruct (SFcompare (num 1) (S754_finite false m e)) as [[| |]|] eqn:Ec.
      * unfold Math_min. rewrite Ec. split; [reflexivity|lia].
      * unfold Math_min. rewrite Ec. split; [reflexivity|lia].
      * destruct (below_one m e Hv Ec) as [He Hm].
        pose proof (hundredths_range m e He Hm) as Hr.
        split; [|exact Hr].
        unfold Math_min. rewrite Ec.
        change (is_nan (num 1)) with false. cbn [is_nan orb].
        change (num 0) with (S754_zero false).
        unfold Math_max. cbn [is_nan orb SFcompare].
        unfold toFixed2.
        replace (10 ^ 23 <=? hundredths m e) with false
          by (symmetry; apply Z.leb_gt;
              apply Z.le_lt_trans with 100; [apply Hr | reflexivity]).
        reflexivity.
      * exfalso. change (num 1) with (S754_finite false 4503599627370496 (-52)) in Ec.
        cbn [SFcompare] in Ec. discriminate.
Qed.

(** ** Which exceptions the pure functions raise *)

Lemma rbind_throws {A B} (P : exn -> Prop) (r : result A) (k : A -> result B) (e : exn) :
  (forall e', r = Throw e' -> P e') ->
  (forall a e', r = Ok a -> k a = Throw e' -> P e') ->
  rbind r k = Throw e -> P e.
Proof.
  intros H1 H2. destruct r as [a|e']; simpl; intros H.
  - eapply H2; eauto.
  - injection H as <-. now apply H1.
Qed.

Lemma encodeURIComponent_throws_bounded (n : nat) (s : jsstring) (e : exn) :
  (length s <= n)%nat -> encodeURIComponent s = Throw e -> e = URIError_malformed.
Proof.
  revert s e. induction n as [|n IH]; intros s e Hlen.
  - destruct s; [discriminate | simpl in Hlen; lia].
  - destruct s as [|c s]; [discriminate|]. cbn [encodeURIComponent].
    simpl in Hlen.
    destruct (uri_unescaped c).
    { apply (rbind_throws (fun x => x = URIError_malformed)); [|discriminate]. intros e'. apply IH. lia. }
    destruct (is_low_surrogate c); [congruence|].
    destruct (is_high_surrogate c).
    + destruct s as [|d s]; [congruence|].
      destruct (is_low_surrogate d); [|congruence].
      apply (rbind_throws (fun x => x = URIError_malformed)); [|discriminate]. intros e'. apply IH.
      simpl in Hlen. lia.
    + apply (rbind_throws (fun x => x = URIError_malformed)); [|discriminate]. intros e'. apply IH. lia.
Qed.

Lemma encodeURIComponent_throws (s : jsstring) (e : exn) :
  encodeURIComponent s = Throw e -> e = URIError_malformed.
Proof. apply (encodeURIComponent_throws_bounded (length s)). lia. Qed.

Section Throws.
Context {rt : Runtime}.

Lemma encodeRfc3986_throws (s : jsstring) (e : exn) :
  encodeRfc3986 s = Throw e -> canonicalisation_error e.
Proof.
  unfold encodeRfc3986. apply rbind_throws; [|discriminate].
  intros e' H. left. now apply encodeURIComponent_throws in H.
Qed.

Lemma encode_pairs_throws (fp : strmap) (keys : list jsstring) (e : exn) :
  encode_pairs fp keys = Throw e -> canonicalisation_error e.
Proof.
  revert e. induction keys as [|k keys IH]; intros e; [discriminate|].
  cbn [encode_pairs].
  apply rbind_throws; [apply encodeRfc3986_throws|]. intros ek e1 _.
  apply rbind_throws; [apply encodeRfc3986_throws|]. intros ev e2 _.
  apply rbind_throws; [apply IH | discriminate].
Qed.

Lemma buildBaseString_throws (method url : jsstring) (params : strmap) (e : exn) :
  buildBaseString method url params = Throw e -> canonicalisation_error e.
Proof.
  unfold buildBaseString.
  apply rbind_throws; [apply encode_pairs_throws|]. intros pairs e1 _.
  apply rbind_throws.
  { unfold normalizeUrl. intros e'. destruct (URL_parse url); [discriminate|].
    intros H. injection H as <-. now right. }
  intros n e2 _.
  apply rbind_throws; [apply encodeRfc3986_throws|]. intros u e3 _.
  apply rbind_throws; [apply encodeRfc3986_throws|discriminate].
Qed.

Lemma signRequest_throws (method url : jsstring) (params : strmap)
    (secret : jsstring) (e : exn) :
  signRequest method url params secret = Throw e -> canonicalisation_error e.
Proof.
  unfold signRequest.
  apply rbind_throws; [apply buildBaseString_throws|]. intros b e1 _.
  apply rbind_throws; [|discriminate].
  intros e' H. left. now apply encodeURIComponent_throws in H.
Qed.

Lemma auth_pairs_throws (entries : strmap) (e : exn) :
  auth_pairs entries = Throw e -> canonicalisation_error e.
Proof.
  revert e. induction entries as [|[k v] entries IH]; intros e; [discriminate|].
  cbn [auth_pairs].
  apply rbind_throws; [apply encodeRfc3986_throws|]. intros ek e1 _.
  apply rbind_throws; [apply encodeRfc3986_throws|]. intros ev e2 _.
  apply rbind_throws; [apply IH | discriminate].
Qed.

Lemma buildAuthHeader_throws (params : strmap) (e : exn) :
  buildAuthHeader params = Throw e -> canonicalisation_error e.
Proof.
  unfold buildAuthHeader. apply rbind_throws; [apply auth_pairs_throws|discriminate].
Qed.

Lemma canonicalisation_error_not_passback (e : exn) :
  canonicalisation_error e -> is_grade_passback_error e = false.
Proof. intros [->| ->]; reflexivity. Qed.

End Throws.

Section GradePassback.
Context {rt : Runtime} {sv : Services}.

Lemma outbox_grows_by_one (l : list HttpRequest) (req req' : HttpRequest) :
  l ++ [req'] = l ++ [req] -> req' = req.
Proof. intros H. apply app_inv_head in H. now injection H. Qed.

Lemma outbox_unchanged (l : list HttpRequest) (req : HttpRequest) :
  l <> l ++ [req].
Proof.
  intros H. apply (f_equal (@length _)) in H.
  rewrite length_app in H. simpl in H. lia.
Qed.

(** The passback raises an error about the answer of the outcome service
    exactly when an answer came and it is not a 2xx one or lacks the
    success marker. *)
Lemma sendGradeToLms_error (amb : Ambient)
    (consumerId outcomeServiceUrl sourcedid : jsstring) (score : number)
    (w : World) :
  (exists e, fst (sendGradeToLms amb consumerId outcomeServiceUrl sourcedid score w) = Throw e
             /\ is_grade_passback_error e = true)
  <-> exists req r,
        outbox (snd (sendGradeToLms amb consumerId outcomeServiceUrl sourcedid score w))
        = outbox w ++ [req]
        /\ req_url req = outcomeServiceUrl
        /\ req_body req
           = XmlText (buildReplaceResultXml sourcedid score
                        (lit "msg_" ++ toString10 (msg_now amb) ++ lit "_"
                         ++ msg_random amb))
        /\ fetch req = Some r
        /\ (resp_ok r = false \/ includes (resp_text r) success_marker = false).
Proof.
  assert (Hno : forall e0 : exn, is_grade_passback_error e0 = false ->
    ((exists e, @Throw unit e0 = Throw e /\ is_grade_passback_error e = true)
     <-> exists req r, outbox w = outbox w ++ [req]
         /\ req_url req = outcomeServiceUrl
         /\ req_body req
            = XmlText (buildReplaceResultXml sourcedid score
                         (lit "msg_" ++ toString10 (msg_now amb) ++ lit "_"
                          ++ msg_random amb))
         /\ fetch req = Some r
         /\ (resp_ok r = false \/ includes (resp_text r) success_marker = false))).
  { intros e0 H0. split.
    - intros (e & He & Hg). injection He as <-. congruence.
    - intros (req & r & Ho & _). now apply outbox_unchanged in Ho. }
  unfold sendGradeToLms, select_consumer_credentials, query, bind.
  destruct (engine_accepts (SelectConsumerCredentials consumerId));
    [|now apply Hno].
  cbv beta iota.
  destruct (filter _ (consumers (db w))) as [|consumer rest];
    [now apply Hno|].
  unfold lift.
  destruct (signRequest _ _ _ _) as [signature|e1] eqn:Es.
  2:{ apply Hno, canonicalisation_error_not_passback.
      now apply signRequest_throws in Es. }
  destruct (buildAuthHeader _) as [authHeader|e2] eqn:Ea.
  2:{ apply Hno, canonicalisation_error_not_passback.
      now apply buildAuthHeader_throws in Ea. }
  unfold do_fetch. cbn [db outbox].
  match goal with |- context [fetch ?r] => set (req := r) end.
  destruct (fetch req) as [r|] eqn:Ef.
  - destruct (resp_ok r) eqn:Hok; cbn [negb].
    + destruct (includes (resp_text r) success_marker) eqn:Hm; cbn [negb].
      * unfold ret. cbn [fst snd outbox]. split.
        -- intros (e & He & _). discriminate He.
        -- intros (req' & r' & Ho & _ & _ & Hf & Hc).
           apply outbox_grows_by_one in Ho. subst req'.
           rewrite Ef in Hf. injection Hf as <-.
           rewrite Hok, Hm in Hc. destruct Hc; discriminate.
      * unfold throw. cbn [fst snd outbox]. split.
        -- intros _. exists req, r. repeat split; auto.
        -- intros _. eexists. split; [reflexivity|reflexivity].
    + unfold throw. cbn [fst snd outbox]. split.
      * intros _. exists req, r. repeat split; auto.
      * intros _. eexists. split; [reflexivity|reflexivity].
  - cbn [fst snd outbox]. split.
    + intros (e & He & Hg). injection He as <-. discriminate Hg.
    + intros (req' & r' & Ho & _ & _ & Hf & _).
      apply outbox_grows_by_one in Ho. subst req'. congruence.
Qed.

(** C7, as the code has it. For every binary64 score other than NaN the
    envelope is a [replaceResultRequest] whose [textString] is the score
    clamped to the interval from 0 to 1 and written with two decimals: the
    digits of the nearest count of hundredths, between [0.00] and [1.00].
    The passback raises a grade-passback error exactly when the outcome
    service answered the request that carries this envelope and the answer
    is not a 2xx one or its body lacks the success marker. *)
Theorem replaceResult_envelope_and_errors (amb : Ambient)
    (consumerId outcomeServiceUrl sourcedid messageId : jsstring)
    (score : number) (w : World) :
  is_binary64 score = true -> is_nan score = false ->
  (buildReplaceResultXml sourcedid score messageId
   = pox_part1 ++ escapeXml messageId ++ pox_part2 ++ escapeXml sourcedid
       ++ pox_part3 ++ fixed2_text (clamped_hundredths score) ++ pox_part4
   /\ 0 <= clamped_hundredths score <= 100
   /\ includes pox_part2 (lit "<replaceResultRequest>") = true
   /\ (exists before, pox_part3 = before ++ lit "<textString>")
   /\ (exists after, pox_part4 = lit "</textString>" ++ after))
  /\ ((exists e,
         fst (sendGradeToLms amb consumerId outcomeServiceUrl sourcedid score w)
         = Throw e
         /\ is_grade_passback_error e = true)
      <-> exists req r,
            outbox (snd (sendGradeToLms amb consumerId outcomeServiceUrl
                           sourcedid score w))
            = outbox w ++ [req]
            /\ req_url req = outcomeServiceUrl
            /\ req_body req
               = XmlText (buildReplaceResultXml sourcedid score
                            (lit "msg_" ++ toString10 (msg_now amb) ++ lit "_"
                             ++ msg_random amb))
            /\ fetch req = Some r
            /\ (resp_ok r = false
                \/ includes (resp_text r) success_marker = false)).
Proof.
  intros Hv Hn. split; [|apply sendGradeToLms_error].
  destruct (toFixed2_clamped score Hv Hn) as [Ht Hr].
  unfold buildReplaceResultXml. rewrite Ht. cbn [the].
  split; [reflexivity|]. split; [exact Hr|].
  split; [vm_compute; reflexivity|].
  split.
  - exists (firstn (length pox_part3 - 12) pox_part3). vm_compute. reflexivity.
  - exists (skipn 13 pox_part4). vm_compute. reflexivity.
Qed.

End GradePassback.

(** A score that is not a number: the text of the envelope is [NaN], which
    is no two-decimal numeral.  The commit handler hands such a score over
    when the raw score of the learner is not numeric. *)
Lemma replaceResult_textString_NaN :
  parseFloat (lit "abc") = NaN
  /\ buildReplaceResultXml (lit "sid-1") NaN (lit "msg_1_x")
     = pox_part1 ++ escapeXml (lit "msg_1_x") ++ pox_part2
         ++ escapeXml (lit "sid-1") ++ pox_part3 ++ lit "NaN" ++ pox_part4
  /\ forall n : Z, lit "NaN" <> fixed2_text n.
Proof.
  split; [reflexivity|]. split; [reflexivity|].
  intros n H. unfold fixed2_text in H.
  apply (f_equal (@rev Z)) in H. rewrite rev_app_distr in H.
  cbn [rev app lit list_ascii_of_string map] in H.
  injection H as _ _ H _. vm_compute in H. discriminate H.
Qed.

Example replaceResult_textString_086 :
  fixed2_text (clamped_hundredths (parseFloat (lit "0.856"))) = lit "0.86"
  /\ fixed2_text (clamped_hundredths (parseFloat (lit "1.7"))) = lit "1.00"
  /\ fixed2_text (clamped_hundredths (parseFloat (lit "-3"))) = lit "0.00".
Proof. repeat split; vm_compute; reflexivity. Qed.

Lemma replaceResult_envelope_and_errors_witness :
  buildReplaceResultXml (lit "sid-1") (parseFloat (lit "0.856")) (lit "msg_1_x")
  = pox_part1 ++ escapeXml (lit "msg_1_x") ++ pox_part2
      ++ escapeXml (lit "sid-1") ++ pox_part3
      ++ fixed2_text (clamped_hundredths (parseFloat (lit "0.856")))
      ++ pox_part4.
Proof.
  refine (proj1 (proj1 (replaceResult_envelope_and_errors
            (rt := sample_runtime) (sv := sample_services)
            (mkAmbient [] [] 0 0 [] 0 [] []) (lit "c1")
            (lit "https://lms.example.org/outcomes") (lit "sid-1")
            (lit "msg_1_x") (parseFloat (lit "0.856"))
            (mkWorld (mkStore [] [] [] []) []) _ _))).
  - vm_compute. reflexivity.
  - vm_compute. reflexivity.
Defined.

(** ** Computations that leave the tables alone *)

Lemma keeps_db_ret {A} (a : A) : keeps_db (ret a).
Proof. intros w. reflexivity. Qed.

Lemma keeps_db_throw {A} (e : exn) : keeps_db (@throw A e).
Proof. intros w. reflexivity. Qed.

Lemma keeps_db_lift {A} (r : result A) : keeps_db (lift r).
Proof. intros w. reflexivity. Qed.

Lemma keeps_db_bind {A B} (m : M A) (k : A -> M B) :
  keeps_db m -> (forall a, keeps_db (k a)) -> keeps_db (bind m k).
Proof.
  intros Hm Hk w. unfold bind. specialize (Hm w).
  destruct (m w) as [[a|e] w']; simpl in *; [|exact Hm].
  now rewrite Hk.
Qed.

Lemma keeps_db_try_catch {A} (m : M A) (h : exn -> M A) :
  keeps_db m -> (forall e, keeps_db (h e)) -> keeps_db (try_catch m h).
Proof.
  intros Hm Hh w. unfold try_catch. specialize (Hm w).
  destruct (m w) as [[a|e] w']; simpl in *; [exact Hm|].
  now rewrite Hh.
Qed.

Section ReadOnly.
Context {rt : Runtime} {sv : Services}.

Lemma keeps_db_query {A} (q : sql) (f : Store -> A) :
  keeps_db (query q (fun s => Ok (f s, s))).
Proof.
  intros w. unfold query. destruct (engine_accepts q); reflexivity.
Qed.

Lemma keeps_db_do_fetch (req : HttpRequest) : keeps_db (do_fetch req).
Proof. intros w. unfold do_fetch. destruct (fetch req); reflexivity. Qed.

Lemma keeps_db_sendGradeToLms (amb : Ambient) (cid url sid : jsstring)
    (score : number) :
  keeps_db (sendGradeToLms amb cid url sid score).
Proof.
  unfold sendGradeToLms.
  apply keeps_db_bind; [apply keeps_db_query|]. intros [|consumer rest].
  - apply keeps_db_throw.
  - apply keeps_db_bind; [apply keeps_db_lift|]. intros signature.
    apply keeps_db_bind; [apply keeps_db_lift|]. intros authHeader.
    apply keeps_db_bind; [apply keeps_db_do_fetch|]. intros response.
    destruct (negb (resp_ok response)); [apply keeps_db_throw|].
    destruct (negb (includes _ _)); [apply keeps_db_throw|apply keeps_db_ret].
Qed.

Lemma keeps_db_sendXapiStatement (cfg : Config) (amb : Ambient)
    (cid uid crs : jsstring) (data : XapiStatementData) :
  keeps_db (sendXapiStatement cfg amb cid uid crs data).
Proof.
  unfold sendXapiStatement.
  apply keeps_db_bind; [apply keeps_db_query|]. intros rows.
  cbv zeta. destruct (negb (truthy _)); [apply keeps_db_ret|].
  apply keeps_db_bind; [apply keeps_db_query|]. intros courseResult.
  apply keeps_db_bind; [apply keeps_db_do_fetch|]. intros response.
  destruct (negb (resp_ok response)); [apply keeps_db_throw|apply keeps_db_ret].
Qed.

(** What the commit derives from the CMI data is what the specification
    words say. *)
Lemma commit_score (cmiData : strmap) :
  match normalizedScore_of cmiData with
  | Some n => Some (fmul n (num 100))
  | None => None
  end = spec_score cmiData.
Proof.
  unfold normalizedScore_of, spec_score.
  destruct (prop_get cmiData (lit "cmi.core.score.raw")) as [r|]; auto.
  assert (H : truthy (or_else (prop_get cmiData (lit "cmi.core.score.max"))
                              (lit "100")) = true).
  { unfold or_else. destruct (prop_get cmiData (lit "cmi.core.score.max")) as [m|];
      [|reflexivity]. destruct (truthy m) eqn:E; [exact E|reflexivity]. }
  now rewrite H.
Qed.

Lemma commit_completion (cmiData : strmap) :
  completionStatus_of cmiData = spec_completion cmiData.
Proof.
  unfold completionStatus_of, spec_completion.
  destruct (prop_get cmiData (lit "cmi.core.lesson_status")) as [[|c s]|]; auto.
  cbn [truthy_opt truthy andb the existsb]. now rewrite orb_false_r.
Qed.

Lemma commit_success (cmiData : strmap) :
  successStatus_of cmiData = spec_success cmiData.
Proof.
  unfold successStatus_of, spec_success.
  destruct (prop_get cmiData (lit "cmi.core.lesson_status")) as [[|c s]|]; auto.
Qed.

(** [round_scale2] is a rounding to the nearest count of hundredths: the
    result is within half a hundredth of the decimal, the upper end left
    out. *)
Lemma round_scale2_nearest (s q : Z) :
  0 <= s ->
  (-2 <= q -> round_scale2 s q = s * 10 ^ (q + 2))
  /\ (q < -2 ->
      let d := 10 ^ (- q - 2) in
      2 * d * round_scale2 s q <= 2 * s + d < 2 * d * round_scale2 s q + 2 * d).
Proof.
  intros Hs. unfold round_scale2. split.
  - intros Hq. apply Z.leb_le in Hq. now rewrite Hq.
  - intros Hq. cbv zeta.
    assert (E : (-2 <=? q) = false) by (apply Z.leb_gt; lia). rewrite E.
    assert (Hd : 0 < 10 ^ (- q - 2)) by (apply Z.pow_pos_nonneg; lia).
    pose proof (Z.div_mod (2 * s + 10 ^ (- q - 2)) (2 * 10 ^ (- q - 2))
                  ltac:(lia)) as Hdm.
    pose proof (Z.mod_pos_bound (2 * s + 10 ^ (- q - 2)) (2 * 10 ^ (- q - 2))
                  ltac:(lia)) as Hb.
    set (d := 10 ^ (- q - 2)) in *.
    set (h := (2 * s + d) / (2 * d)) in *.
    set (r := (2 * s + d) mod (2 * d)) in *.
    nia.
Qed.

(** An UPDATE of a commit that the engine accepts has a score that fits,
    and runs. *)
Lemma update_attempt_commit_runs (cmi : strmap) (score : option number)
    (completion : jsstring) (success totalTime : option jsstring)
    (id : jsstring) (now : Z) (w : World) :
  engine_accepts
    (UpdateAttemptCommit cmi score completion success totalTime id) = true ->
  update_attempt_commit cmi score completion success totalTime id now w
  = (Ok tt,
     mkWorld
       (mkStore (consumers (db w)) (courses (db w)) (launches (db w))
          (map (fun a =>
                  if jseqb (a_id a) id
                  then mkAttempt (a_id a) (a_launch_id a) (json_of_strmap cmi)
                         (option_map numeric_of_number score) completion
                         success totalTime (a_started_at a) (a_finished_at a)
                         now
                  else a) (attempts (db w))))
       (outbox w)).
Proof.
  intros H. unfold update_attempt_commit, query.
  rewrite H, (engine_checks_score _ _ _ _ _ _ H). reflexivity.
Qed.

(** An UPDATE of a commit that the engine refuses, or whose score does not
    fit, throws and changes nothing. *)
Lemma update_attempt_commit_fails (cmi : strmap) (score : option number)
    (completion : jsstring) (success totalTime : option jsstring)
    (id : jsstring) (now : Z) (w : World) :
  engine_accepts
    (UpdateAttemptCommit cmi score completion success totalTime id) = false
  \/ score_fits score = false ->
  exists e,
    update_attempt_commit cmi score completion success totalTime id now w
    = (Throw e, w).
Proof.
  intros H. unfold update_attempt_commit, query.
  destruct (engine_accepts _) eqn:Ha; [|eauto].
  destruct H as [H|H]; [discriminate|]. rewrite H. eauto.
Qed.

(** The tables after a commit that the engine ran. *)
Lemma commit_try_db (cfg : Config) (amb : Ambient) (attemptId : jsstring)
    (cmiData : strmap) (w : World) :
  engine_accepts (UpdateAttemptCommit cmiData (spec_score cmiData)
                    (spec_completion cmiData) (spec_success cmiData)
                    (prop_get cmiData (lit "cmi.core.total_time")) attemptId)
  = true ->
  db (snd (commit_try cfg amb attemptId cmiData w))
  = mkStore (consumers (db w)) (courses (db w)) (launches (db w))
      (map (fun a => if jseqb (a_id a) attemptId
                     then committed cmiData (db_now amb) a else a)
           (attempts (db w))).
Proof.
  intros Hacc. unfold commit_try.
  rewrite commit_score, commit_completion, commit_success.
  unfold bind at 1. rewrite update_attempt_commit_runs by exact Hacc.
  match goal with |- db (snd (?m ?w1)) = _ =>
    assert (Hk : keeps_db m); [|exact (Hk w1)] end.
  apply keeps_db_bind; [apply keeps_db_query|]. intros launchResult.
  apply keeps_db_bind; [|intros; apply keeps_db_ret].
  destruct launchResult as [|launch rest]; [apply keeps_db_ret|].
  apply keeps_db_bind.
  - destruct (normalizedScore_of cmiData); [|apply keeps_db_ret].
    destruct (_ && _); [|apply keeps_db_ret].
    apply keeps_db_try_catch; [apply keeps_db_sendGradeToLms|].
    intros; apply keeps_db_ret.
  - intros _. destruct (is_dispatch _); [|apply keeps_db_ret].
    apply keeps_db_try_catch; [apply keeps_db_sendXapiStatement|].
    intros; apply keeps_db_ret.
Qed.

Lemma commit_world (cfg : Config) (amb : Ambient) (attemptId : jsstring)
    (cmiData : strmap) (w : World) :
  snd (commit cfg amb attemptId cmiData w)
  = snd (commit_try cfg amb attemptId cmiData w).
Proof.
  unfold commit. destruct (commit_try cfg amb attemptId cmiData w) as [[r|e] w'];
    reflexivity.
Qed.

(** C5, as the code has it. After a commit that the engine runs, the row
    of the attempt holds the score (scoreRaw / scoreMax) * 100, each text
    read with parseFloat and "100" standing for an absent or empty maximal
    score, as its DECIMAL(5,2) column keeps it: the decimal text of the
    number rounded to two decimal places; the row holds null exactly when
    there is no raw score.  A score that the column cannot take, one of
    1000 or more after the rounding or an infinite one, is never saved:
    the commit answers 500 and leaves the store as it is.  The completion
    status is [completed] when the lesson status is [completed] or
    [passed] and [incomplete] otherwise; the success status is [passed]
    for [passed], [failed] for [failed] and unset otherwise. *)
Theorem commit_persists (cfg : Config) (amb : Ambient) (attemptId : jsstring)
    (cmiData : strmap) (w : World) :
  let scoreRaw := prop_get cmiData (lit "cmi.core.score.raw") in
  let scoreMax :=
    or_else (prop_get cmiData (lit "cmi.core.score.max")) (lit "100") in
  (engine_accepts (UpdateAttemptCommit cmiData (spec_score cmiData)
                     (spec_completion cmiData) (spec_success cmiData)
                     (prop_get cmiData (lit "cmi.core.total_time")) attemptId)
   = true ->
   attempts (db (snd (commit cfg amb attemptId cmiData w)))
   = map (fun a => if jseqb (a_id a) attemptId
                   then committed cmiData (db_now amb) a else a)
         (attempts (db w))
   /\ score_fits (spec_score cmiData) = true)
  /\ (score_fits (spec_score cmiData) = false ->
      commit cfg amb attemptId cmiData w
      = (SendJson 500 [(lit "error", JStr (lit "Failed to save data"))], w))
  /\ stored_score cmiData
     = match scoreRaw with
       | Some r =>
           Some (numeric_of_number
                   (fmul (fdiv (parseFloat r) (parseFloat scoreMax)) (num 100)))
       | None => None
       end
  /\ (stored_score cmiData = None <-> scoreRaw = None)
  /\ (forall h, stored_score cmiData = Some (Numeric h) ->
      score_fits (spec_score cmiData) = true -> -100000 < h < 100000).
Proof.
  cbv zeta. split; [|split; [|split; [|split]]].
  - intros Hacc. split.
    + rewrite commit_world, commit_try_db by exact Hacc. reflexivity.
    + exact (engine_checks_score _ _ _ _ _ _ Hacc).
  - intros Hfit. unfold commit, commit_try.
    rewrite commit_score, commit_completion, commit_success.
    unfold bind at 1.
    destruct (update_attempt_commit_fails cmiData (spec_score cmiData)
                (spec_completion cmiData) (spec_success cmiData)
                (prop_get cmiData (lit "cmi.core.total_time")) attemptId
                (db_now amb) w (or_intror Hfit)) as [e He].
    rewrite He. reflexivity.
  - unfold stored_score, spec_score.
    destruct (prop_get cmiData (lit "cmi.core.score.raw")); reflexivity.
  - unfold stored_score, spec_score.
    destruct (prop_get cmiData (lit "cmi.core.score.raw")); split;
      intros H; auto; discriminate.
  - intros h Hs Hfit. unfold stored_score in Hs. unfold score_fits in Hfit.
    destruct (spec_score cmiData) as [x|]; [|discriminate].
    cbn [option_map] in Hs. injection Hs as Hs. rewrite Hs in Hfit.
    cbn [fits_decimal_5_2] in Hfit. apply Z.ltb_lt in Hfit. lia.
Qed.

(** Every answer of the commit and finish handlers is a 200 or a 500. *)
Lemma commit_status (cfg : Config) (amb : Ambient) (attemptId : jsstring)
    (cmiData : strmap) (w : World) :
  response_status (fst (commit cfg amb attemptId cmiData w)) = 200
  \/ response_status (fst (commit cfg amb attemptId cmiData w)) = 500.
Proof.
  unfold commit.
  destruct (commit_try cfg amb attemptId cmiData w) as [[r|e] w'] eqn:E;
    [|now right].
  left. revert E. unfold commit_try, bind.
  repeat match goal with
         | |- context [match ?m ?x with pair _ _ => _ end] =>
             destruct (m x) as [[?|?] ?]
         end; intros E; try discriminate E; injection E as <- _; reflexivity.
Qed.

Lemma finish_status (amb : Ambient) (attemptId : jsstring) (w : World) :
  response_status (fst (finish amb attemptId w)) = 200
  \/ response_status (fst (finish amb attemptId w)) = 500.
Proof.
  unfold finish, finish_try, bind, update_attempt_finish, query.
  destruct (engine_accepts _); cbn; auto.
Qed.

End ReadOnly.

(** The score of the specification's scenario: 80 of 100, passed. *)
Example commit_80_of_100 :
  spec_score [(lit "cmi.core.score.raw", lit "80");
              (lit "cmi.core.score.max", lit "100");
              (lit "cmi.core.lesson_status", lit "passed")]
  = Some (num 80)
  /\ spec_completion [(lit "cmi.core.lesson_status", lit "passed")]
     = lit "completed"
  /\ spec_success [(lit "cmi.core.lesson_status", lit "passed")]
     = Some (lit "passed")
  /\ spec_score [(lit "cmi.core.lesson_status", lit "incomplete")] = None.
Proof. repeat split; vm_compute; reflexivity. Qed.

(** The score column at work.  The rounding is of the decimal text of the
    number: 1.005 is kept as 1.01, although the binary64 value lies below
    the tie; 999.994 fits and 999.995, which rounds to 1000.00, does not;
    a small negative number is kept as zero; NaN is kept and an infinity
    is refused. *)
Example score_column_examples :
  numeric_of_number (parseFloat (lit "1.005")) = Numeric 101
  /\ numeric_of_number (parseFloat (lit "80")) = Numeric 8000
  /\ numeric_of_number (parseFloat (lit "999.994")) = Numeric 99999
  /\ score_fits (Some (parseFloat (lit "999.994"))) = true
  /\ numeric_of_number (parseFloat (lit "999.995")) = Numeric 100000
  /\ score_fits (Some (parseFloat (lit "999.995"))) = false
  /\ numeric_of_number (parseFloat (lit "-0.004")) = Numeric 0
  /\ numeric_text (numeric_of_number (parseFloat (lit "-12.345")))
     = lit "-12.35"
  /\ score_fits (Some NaN) = true
  /\ score_fits (Some (parseFloat (lit "Infinity"))) = false
  /\ score_fits None = true.
Proof. repeat split; vm_compute; reflexivity. Qed.

(** Two commits whose row is not what the specification states.  A raw
    score that is present and not numeric: the row of the attempt holds
    NaN, not null.  A raw score of 1 out of 3: the row holds 33.33, which
    the player reads back as that text, while (1 / 3) * 100 is the greater
    number 33.33333333333333.  And a raw score of 5000 out of 100 is not
    saved at all. *)
Lemma commit_score_as_stored :
  map a_score
      (attempts (db (snd (commit sample_config sample_ambient
                            (lit "77777777-7777-4777-8777-777777777777")
                            [(lit "cmi.core.score.raw", lit "abc")]
                            sample_world))))
  = [Some NumericNaN; None]
  /\ map a_score
       (attempts (db (snd (commit sample_config sample_ambient
                             (lit "77777777-7777-4777-8777-777777777777")
                             [(lit "cmi.core.score.raw", lit "1");
                              (lit "cmi.core.score.max", lit "3")]
                             sample_world))))
     = [Some (Numeric 3333); None]
  /\ numeric_text (Numeric 3333) = lit "33.33"
  /\ SFcompare (fmul (fdiv (parseFloat (lit "1")) (parseFloat (lit "3")))
                     (num 100))
               (fdiv (num 3333) (num 100)) = Some Gt
  /\ commit sample_config sample_ambient
       (lit "77777777-7777-4777-8777-777777777777")
       [(lit "cmi.core.score.raw", lit "5000")] sample_world
     = (SendJson 500 [(lit "error", JStr (lit "Failed to save data"))],
        sample_world).
Proof. repeat split; vm_compute; reflexivity. Qed.

Lemma commit_persists_witness :
  attempts (db (snd (commit sample_config sample_ambient
                       (lit "77777777-7777-4777-8777-777777777777")
                       [(lit "cmi.core.score.raw", lit "80");
                        (lit "cmi.core.lesson_status", lit "passed")]
                       sample_world)))
  = map (fun a => if jseqb (a_id a) (lit "77777777-7777-4777-8777-777777777777")
                  then committed [(lit "cmi.core.score.raw", lit "80");
                                  (lit "cmi.core.lesson_status", lit "passed")]
                                 (db_now sample_ambient) a
                  else a)
        (attempts (db sample_world)).
Proof.
  refine (proj1 (proj1 (commit_persists (rt := sample_runtime)
            (sv := sample_services) sample_config sample_ambient
            (lit "77777777-7777-4777-8777-777777777777")
            [(lit "cmi.core.score.raw", lit "80");
             (lit "cmi.core.lesson_status", lit "passed")]
            sample_world) _)).
  vm_compute. reflexivity.
Defined.

(** C6. A commit or a finish that names an attempt the store does not hold
    answers 200 with the success payload, where the specification asks for
    a 404 with an error payload; the tables are left as they were.  The GET
    handler of the same router answers 404 when its query finds no row. *)
Theorem commit_finish_unknown_attempt :
  fst (commit sample_config sample_ambient
         (lit "99999999-9999-4999-8999-999999999999")
         [(lit "cmi.core.lesson_status", lit "completed")] sample_world)
  = SendJson 200 [(lit "success", JBool true)]
  /\ db (snd (commit sample_config sample_ambient
                (lit "99999999-9999-4999-8999-999999999999")
                [(lit "cmi.core.lesson_status", lit "completed")] sample_world))
     = db sample_world
  /\ finish sample_ambient (lit "99999999-9999-4999-8999-999999999999")
            sample_world
     = (SendJson 200 [(lit "success", JBool true)], sample_world).
Proof. repeat split; vm_compute; reflexivity. Qed.

(** ** The xAPI statement of a commit *)

Lemma buildStatement_success (cfg : Config) (now_iso uid crs title : jsstring)
    (data : XapiStatementData) (b : bool) :
  d_success data = Some b ->
  exists r, result_ (buildStatement cfg now_iso uid crs title data) = Some r
            /\ r_success r = Some b.
Proof.
  intros H. unfold buildStatement. rewrite H. cbn [result_].
  destruct (d_score data), (d_verb data), (truthy_opt (d_duration data));
    eexists; split; reflexivity.
Qed.

Section Xapi.
Context {rt : Runtime} {sv : Services}.
Variable cfg : Config.

Lemma sendXapiStatement_sends (amb : Ambient) (cid uid crs : jsstring)
    (data : XapiStatementData) (w : World) :
  engine_accepts (SelectConsumerLrs cid) = true ->
  truthy (resolved_lrs_endpoint cfg (db w) cid) = true ->
  engine_accepts (SelectCourseTitle crs) = true ->
  exists req title,
    outbox (snd (sendXapiStatement cfg amb cid uid crs data w))
    = outbox w ++ [req]
    /\ req_body req
       = JsonStatement (buildStatement cfg (stmt_now amb) uid crs title data).
Proof.
  intros H1 H2 H3. unfold sendXapiStatement.
  unfold bind at 1. unfold select_consumer_lrs, query. rewrite H1.
  cbv beta iota zeta. cbn [db outbox].
  unfold resolved_lrs_endpoint in H2. rewrite H2. cbn [negb].
  unfold bind at 1. unfold select_course_title, query. rewrite H3.
  cbv beta iota. cbn [db outbox].
  unfold bind, do_fetch. cbn [db outbox].
  match goal with |- context [fetch ?r] => set (req := r) end.
  exists req. eexists.
  destruct (fetch req) as [r|]; [destruct (negb (resp_ok r))|];
    cbn [snd outbox]; split; reflexivity.
Qed.

(** A step whose exceptions are caught ends normally. *)
Lemma try_catch_ends (m : M unit) (w : World) :
  fst (try_catch m (fun _ => ret tt) w) = Ok tt.
Proof.
  unfold try_catch, ret. destruct (m w) as [[[]|e] w']; reflexivity.
Qed.

Lemma owning_launches_commit (s : Store) (id id' : jsstring)
    (f : Attempt -> Attempt) :
  (forall a, a_id (f a) = a_id a /\ a_launch_id (f a) = a_launch_id a) ->
  owning_launches
    (mkStore (consumers s) (courses s) (launches s)
       (map (fun a => if jseqb (a_id a) id' then f a else a) (attempts s))) id
  = owning_launches s id.
Proof.
  intros Hf. unfold owning_launches. cbn [launches attempts].
  induction (attempts s) as [|a l IH]; [reflexivity|].
  cbn [map filter].
  assert (Ha : a_id (if jseqb (a_id a) id' then f a else a) = a_id a
               /\ a_launch_id (if jseqb (a_id a) id' then f a else a)
                  = a_launch_id a)
    by (destruct (jseqb (a_id a) id'); [apply Hf | auto]).
  destruct Ha as [Ha1 Ha2]. rewrite Ha1.
  destruct (jseqb (a_id a) id); cbn [flat_map]; rewrite ?Ha2, IH; reflexivity.
Qed.

(** C10. A commit on an attempt whose launch payload is dispatch-typed,
    with an LRS endpoint that resolves and an engine that runs the
    statements, hands to the network, last, a statement whose result holds
    a boolean success field: true when the derived success status is
    [passed], false otherwise, and so false when that status is unset. *)
Theorem commit_xapi_success (amb : Ambient) (attemptId : jsstring)
    (cmiData : strmap) (w : World) (launch : Launch) (others : list Launch) :
  engine_accepts (UpdateAttemptCommit cmiData (spec_score cmiData)
                    (spec_completion cmiData) (spec_success cmiData)
                    (prop_get cmiData (lit "cmi.core.total_time")) attemptId)
  = true ->
  engine_accepts (SelectLaunchOfAttempt attemptId) = true ->
  owning_launches (db w) attemptId = launch :: others ->
  is_dispatch (l_launch_data launch) = true ->
  engine_accepts (SelectConsumerLrs (l_consumer_id launch)) = true ->
  truthy (resolved_lrs_endpoint cfg (db w) (l_consumer_id launch)) = true ->
  engine_accepts (SelectCourseTitle (l_course_id launch)) = true ->
  exists earlier req st r,
    outbox (snd (commit cfg amb attemptId cmiData w)) = earlier ++ [req]
    /\ req_body req = JsonStatement st
    /\ result_ st = Some r
    /\ r_success r = Some (match spec_success cmiData with
                           | Some s => jseqb s (lit "passed")
                           | None => false
                           end)
    /\ (spec_success cmiData = None -> r_success r = Some false).
Proof.
  intros Hupd Hsel Hown Hdisp Hlrs Hep Htitle.
  rewrite commit_world. unfold commit_try.
  rewrite commit_score, commit_completion, commit_success.
  unfold bind at 1. rewrite update_attempt_commit_runs by exact Hupd.
  cbv beta iota. cbn [db outbox].
  unfold bind at 1. unfold select_launch_of_attempt, query. rewrite Hsel.
  cbv beta iota. cbn [db outbox].
  rewrite owning_launches_commit by (intros a; split; reflexivity).
  rewrite Hown. rewrite Hdisp.
  set (s1 := mkStore _ _ _ _).
  unfold bind at 1. unfold bind at 1.
  match goal with |- context [match ?g (mkWorld s1 (outbox w)) with pair _ _ => _ end] =>
    set (grade := g) end.
  assert (Hg1 : fst (grade (mkWorld s1 (outbox w))) = Ok tt).
  { unfold grade. destruct (normalizedScore_of cmiData); [|reflexivity].
    destruct (_ && _); [apply try_catch_ends | reflexivity]. }
  assert (Hg2 : db (snd (grade (mkWorld s1 (outbox w)))) = s1).
  { assert (Hk : keeps_db grade); [|exact (Hk _)].
    unfold grade. destruct (normalizedScore_of cmiData); [|apply keeps_db_ret].
    destruct (_ && _); [|apply keeps_db_ret].
    apply keeps_db_try_catch; [apply keeps_db_sendGradeToLms|].
    intros; apply keeps_db_ret. }
  destruct (grade (mkWorld s1 (outbox w))) as [[[]|e] w2]; [|discriminate Hg1].
  cbn [snd] in Hg2. cbv beta iota.
  match goal with |- context [try_catch (sendXapiStatement cfg amb ?c ?u ?k ?d) _ w2] =>
    destruct (sendXapiStatement_sends amb c u k d w2) as (req & title & Ho & Hb);
    [exact Hlrs | rewrite Hg2; exact Hep | exact Htitle |];
    destruct (buildStatement_success cfg (stmt_now amb) u k title d
                (match spec_success cmiData with
                 | Some s => jseqb s (lit "passed")
                 | None => false
                 end) eq_refl) as (r & Hr1 & Hr2)
  end.
  exists (outbox w2), req. eexists. exists r.
  split; [|split; [exact Hb|split; [exact Hr1|split; [exact Hr2|]]]].
  - unfold try_catch, ret.
    match goal with |- context [sendXapiStatement cfg amb ?c ?u ?k ?d w2] =>
      destruct (sendXapiStatement cfg amb c u k d w2) as [[[]|e] w3] end;
      cbn [snd] in *; exact Ho.
  - intros Hnone. rewrite Hr2, Hnone. reflexivity.
Qed.

End Xapi.

Lemma commit_xapi_success_witness :
  exists earlier req st r,
    outbox (snd (commit sample_config sample_ambient
                   (lit "88888888-8888-4888-8888-888888888888")
                   [(lit "cmi.core.lesson_status", lit "incomplete")]
                   sample_world))
    = earlier ++ [req]
    /\ req_body req = JsonStatement st
    /\ result_ st = Some r
    /\ r_success r
       = Some (match spec_success
                       [(lit "cmi.core.lesson_status", lit "incomplete")] with
               | Some s => jseqb s (lit "passed")
               | None => false
               end)
    /\ (spec_success [(lit "cmi.core.lesson_status", lit "incomplete")] = None
        -> r_success r = Some false).
Proof.
  refine (commit_xapi_success (rt := sample_runtime) (sv := sample_services)
            sample_config sample_ambient
            (lit "88888888-8888-4888-8888-888888888888")
            [(lit "cmi.core.lesson_status", lit "incomplete")]
            sample_world sample_dispatch_launch [] _ _ _ _ _ _ _);
    vm_compute; reflexivity.
Defined.

Example commit_xapi_statement_incomplete :
  map req_body
      (outbox (snd (commit sample_config sample_ambient
                      (lit "88888888-8888-4888-8888-888888888888")
                      [(lit "cmi.core.lesson_status", lit "incomplete")]
                      sample_world)))
  = [JsonStatement
       (mkStatement (lit "https://host") (lit "session-9")
          (lit "http://adlnet.gov/expapi/verbs/progressed") (lit "progressed")
          (lit "https://host/course/22222222-2222-4222-8222-222222222222")
          (lit "http://adlnet.gov/expapi/activities/course") (lit "Safety")
          (Some (mkResult None (Some false) None None))
          (lit "2023-11-14T22:18:20.000Z"))].
Proof. vm_compute. reflexivity. Qed.

(** ** The attempts of an LTI launch *)

Lemma latest_In (l : list Attempt) (a : Attempt) : latest l = Some a -> In a l.
Proof.
  revert a. induction l as [|x l IH]; intros a; [discriminate|].
  cbn [latest]. destruct (latest l) as [b|].
  - destruct (a_started_at x <? a_started_at b); intros H; injection H as <-.
    + right. now apply IH.
    + now left.
  - intros H. injection H as <-. now left.
Qed.

Lemma latest_None (l : list Attempt) : latest l = None -> l = [].
Proof.
  destruct l as [|x l]; [reflexivity|]. cbn [latest].
  destruct (latest l) as [b|]; [|discriminate].
  destruct (a_started_at x <? a_started_at b); discriminate.
Qed.

Lemma existsb_app_last {A} (f : A -> bool) (l : list A) (x : A) :
  existsb f (l ++ [x]) = existsb f l || f x.
Proof. rewrite existsb_app. cbn [existsb]. now rewrite orb_false_r. Qed.

(** A launch under a fresh identifier owns none of the attempts. *)
Lemma attempt_of_with_launch (s : Store) (row : Launch) (u c : jsstring)
    (a : Attempt) :
  attempts_have_launches s -> fresh_launch s (l_id row) = true ->
  In a (attempts s) ->
  attempt_of (with_launch s row) u c a = attempt_of s u c a.
Proof.
  intros Hfk Hfresh Ha. unfold attempt_of, with_launch. cbn [launches].
  rewrite existsb_app_last.
  destruct (jseqb (l_id row) (a_launch_id a)) eqn:E;
    [|cbn [andb]; now rewrite orb_false_r].
  exfalso. apply jseqb_eq in E.
  destruct (Hfk a Ha) as (l & Hl & Hid).
  unfold fresh_launch in Hfresh. apply negb_true_iff in Hfresh.
  assert (existsb (fun l0 => jseqb (l_id l0) (l_id row)) (launches s) = true);
    [|congruence].
  apply existsb_exists. exists l. split; [exact Hl|].
  apply jseqb_eq. congruence.
Qed.

Lemma open_attempts_with_launch (s : Store) (row : Launch) (u c : jsstring) :
  attempts_have_launches s -> fresh_launch s (l_id row) = true ->
  open_attempts (with_launch s row) u c = open_attempts s u c.
Proof.
  intros Hfk Hfresh. unfold open_attempts. cbn [with_launch attempts].
  apply filter_ext_in. intros a Ha.
  now rewrite (attempt_of_with_launch s row u c a Hfk Hfresh Ha).
Qed.

Lemma attempts_have_launches_with_launch (s : Store) (row : Launch) :
  attempts_have_launches s -> attempts_have_launches (with_launch s row).
Proof.
  intros Hfk a Ha. destruct (Hfk a Ha) as (l & Hl & Hid).
  exists l. split; [|exact Hid]. cbn [with_launch launches].
  apply in_or_app. now left.
Qed.

Lemma attempts_have_launches_with_attempt (s : Store) (a : Attempt) :
  attempts_have_launches s ->
  existsb (fun l => jseqb (l_id l) (a_launch_id a)) (launches s) = true ->
  attempts_have_launches (with_attempt s a).
Proof.
  intros Hfk Hl b Hb. cbn [with_attempt attempts launches] in *.
  apply in_app_or in Hb as [Hb|[<-|[]]]; [now apply Hfk|].
  apply existsb_exists in Hl as (l & Hl & E). apply jseqb_eq in E.
  exists l. auto.
Qed.

(** The new attempt of a launch belongs to the learner and course of that
    launch only. *)
Lemma attempt_of_new (s : Store) (row : Launch) (id : jsstring) (now : Z)
    (u c : jsstring) :
  fresh_launch s (l_id row) = true ->
  attempt_of (with_launch s row) u c (new_attempt id (l_id row) now)
  = jseqb (l_user_id row) u && jseqb (l_course_id row) c.
Proof.
  intros Hfresh. unfold attempt_of. cbn [with_launch launches new_attempt a_launch_id].
  rewrite existsb_app_last, jseqb_refl. cbn [andb].
  replace (existsb _ (launches s)) with false; [reflexivity|].
  symmetry. apply not_true_is_false. intros H.
  apply existsb_exists in H as (l & Hl & E).
  apply andb_true_iff in E as [E _]. apply andb_true_iff in E as [E _].
  unfold fresh_launch in Hfresh. apply negb_true_iff in Hfresh.
  assert (existsb (fun l0 => jseqb (l_id l0) (l_id row)) (launches s) = true);
    [|congruence].
  apply existsb_exists. exists l. auto.
Qed.

Lemma open_attempts_with_attempt (s : Store) (a : Attempt) (u c : jsstring) :
  open_attempts (with_attempt s a) u c
  = open_attempts s u c
    ++ (if attempt_of s u c a && unfinished a then [a] else []).
Proof.
  unfold open_attempts. cbn [with_attempt attempts].
  rewrite filter_app. f_equal.
Qed.

Section LtiLaunch.
Context {rt : Runtime} {sv : Services}.
Variable cfg : Config.

(** Where [establishAttempt] can leave the tables: as they were, with the
    launch record added, or with the launch record and a new attempt added,
    the latter when the learner had no open attempt on the course. *)
Lemma establishAttempt_db (amb : Ambient) (launchData : strmap)
    (consumer : Consumer) (u c : jsstring) (w : World) :
  let row := launch_row amb launchData consumer u c in
  let s1 := with_launch (db w) row in
  let w' := snd (establishAttempt cfg amb launchData consumer u c w) in
  db w' = db w
  \/ (fresh_launch (db w) (l_id row) = true /\ db w' = s1)
  \/ (fresh_launch (db w) (l_id row) = true
      /\ open_attempts s1 u c = []
      /\ db w' = with_attempt s1 (new_attempt (uuid_attempt amb) (l_id row)
                                              (db_now amb))).
Proof.
  cbv zeta.
  set (row := launch_row amb launchData consumer u c).
  unfold establishAttempt, bind, insert_launch, select_open_attempt,
    insert_attempt, query, ret.
  fold row. change (uuid_launch amb) with (l_id row).
  destruct (engine_accepts (InsertLaunch row)); [|now left].
  destruct (existsb _ (launches (db w))) eqn:Hfresh; [now left|].
  destruct (_ || _); [now left|].
  assert (Hf : fresh_launch (db w) (l_id row) = true)
    by (unfold fresh_launch; now rewrite Hfresh).
  cbn [db outbox].
  destruct (engine_accepts (SelectOpenAttempt u c)); [|right; left; auto].
  cbn [db outbox].
  destruct (latest (open_attempts (with_launch (db w) row) u c)) as [a|] eqn:El.
  - right; left. split; [exact Hf|]. reflexivity.
  - apply latest_None in El.
    destruct (engine_accepts (InsertAttempt _ _)); [|right; left; auto].
    cbn [db outbox].
    destruct (existsb _ (attempts _)); [right; left; auto|].
    destruct (negb _); [right; left; auto|].
    right; right. repeat split; auto.
Qed.

Lemma establishAttempt_invariant (amb : Ambient) (launchData : strmap)
    (consumer : Consumer) (u c : jsstring) (w : World) :
  attempts_have_launches (db w) /\ at_most_one_open (db w) ->
  attempts_have_launches (db (snd (establishAttempt cfg amb launchData consumer u c w)))
  /\ at_most_one_open (db (snd (establishAttempt cfg amb launchData consumer u c w))).
Proof.
  intros [Hfk Hinv].
  pose proof (establishAttempt_db amb launchData consumer u c w) as H.
  cbv zeta in H.
  set (row := launch_row amb launchData consumer u c) in *.
  destruct H as [-> | [[Hf ->] | (Hf & Hnone & ->)]].
  - auto.
  - split; [now apply attempts_have_launches_with_launch|].
    intros u' c'. rewrite open_attempts_with_launch by assumption. apply Hinv.
  - split.
    + apply attempts_have_launches_with_attempt;
        [now apply attempts_have_launches_with_launch|].
      cbn [new_attempt a_launch_id with_launch launches].
      rewrite existsb_app_last, jseqb_refl. apply orb_true_r.
    + intros u' c'. rewrite open_attempts_with_attempt, length_app.
      rewrite attempt_of_new by assumption.
      destruct (jseqb (l_user_id row) u' && jseqb (l_course_id row) c') eqn:E.
      * apply andb_true_iff in E as [E1 E2]. apply jseqb_eq in E1, E2.
        subst u' c'. change (l_user_id row) with u. change (l_course_id row) with c.
        rewrite Hnone. cbn. lia.
      * cbn [andb length]. rewrite open_attempts_with_launch by assumption.
        specialize (Hinv u' c'). lia.
Qed.

End LtiLaunch.

Section LtiLaunchHandler.
Context {rt : Runtime} {sv : Services}.
Variable cfg : Config.

Lemma world_eta (w : World) : mkWorld (db w) (outbox w) = w.
Proof. destruct w; reflexivity. Qed.

Lemma ltiLaunch_verified (amb : Ambient) (launchData : strmap) (w : World)
    (consumer : Consumer) (courseId : jsstring) :
  verified_launch cfg launchData w consumer courseId ->
  ltiLaunch_try cfg amb launchData w
  = establishAttempt cfg amb launchData consumer (learner_of launchData)
                     courseId w.
Proof.
  intros (Hkey & Hacc & Hcons & Hvalid & Hcourse).
  unfold ltiLaunch_try. rewrite Hkey. cbn [negb].
  unfold bind at 1. unfold select_consumer_by_key, query. rewrite Hacc.
  cbv beta iota. rewrite world_eta.
  destruct (filter _ (consumers (db w))) as [|c0 rest]; [discriminate|].
  injection Hcons as ->.
  unfold bind at 1. unfold lift. rewrite Hvalid. cbn [negb]. cbv beta iota.
  fold (learner_of launchData).
  destruct Hcourse as [[Hc ->] | (Hc & Hany & crs & Hcrs & ->)].
  - rewrite Hc. unfold bind at 1. unfold ret. reflexivity.
  - rewrite Hc. unfold bind at 1. unfold bind at 1.
    unfold select_any_active_course, query. rewrite Hany.
    cbv beta iota. rewrite world_eta.
    destruct (filter crs_active (courses (db w))) as [|c1 rest1]; [discriminate|].
    injection Hcrs as ->. reflexivity.
Qed.

(** The handler leaves the tables as they are or as [establishAttempt]
    leaves them. *)
Lemma ltiLaunch_try_db (P : Store -> Prop) (amb : Ambient)
    (launchData : strmap) (w : World) :
  P (db w) ->
  (forall consumer u c,
     P (db (snd (establishAttempt cfg amb launchData consumer u c w)))) ->
  P (db (snd (ltiLaunch_try cfg amb launchData w))).
Proof.
  intros Hw He. unfold ltiLaunch_try.
  destruct (negb _); [exact Hw|].
  unfold bind at 1. unfold select_consumer_by_key, query.
  destruct (engine_accepts _); [|exact Hw].
  cbv beta iota. rewrite world_eta.
  destruct (filter _ (consumers (db w))) as [|consumer rest]; [exact Hw|].
  unfold bind at 1. unfold lift.
  destruct (validateLtiLaunch _ _ _) as [[|]|e]; cbn [negb]; cbv beta iota;
    try exact Hw.
  unfold bind at 1.
  destruct (truthy_opt (prop_get launchData (lit "custom_course_id"))).
  - unfold ret. apply He.
  - unfold bind at 1. unfold select_any_active_course, query.
    destruct (engine_accepts _); [|exact Hw].
    cbv beta iota. rewrite world_eta.
    destruct (firstn 1 _) as [|crs rest']; unfold ret; [exact Hw|].
    apply He.
Qed.

Lemma ltiLaunch_invariant (amb : Ambient) (launchData : strmap) (w : World) :
  attempts_have_launches (db w) /\ at_most_one_open (db w) ->
  attempts_have_launches (db (snd (ltiLaunch cfg amb launchData w)))
  /\ at_most_one_open (db (snd (ltiLaunch cfg amb launchData w))).
Proof.
  intros Hinv.
  assert (Hw : snd (ltiLaunch cfg amb launchData w)
               = snd (ltiLaunch_try cfg amb launchData w)).
  { unfold ltiLaunch. destruct (ltiLaunch_try cfg amb launchData w) as [[r|e] w'];
      reflexivity. }
  rewrite Hw.
  apply (ltiLaunch_try_db
           (fun s => attempts_have_launches s /\ at_most_one_open s));
    [exact Hinv|].
  intros consumer u c. now apply establishAttempt_invariant.
Qed.

Lemma latest_newest (l : list Attempt) (a : Attempt) :
  latest l = Some a -> forall b, In b l -> a_started_at b <= a_started_at a.
Proof.
  revert a. induction l as [|x l IH]; intros a; [discriminate|].
  cbn [latest]. destruct (latest l) as [b0|] eqn:El.
  - destruct (a_started_at x <? a_started_at b0) eqn:E;
      intros H b [<-|Hb]; injection H as <-.
    + apply Z.ltb_lt in E. lia.
    + now apply IH.
    + lia.
    + apply Z.ltb_ge in E. specialize (IH b0 eq_refl b Hb). lia.
  - apply latest_None in El. subst l.
    intros H b [<-|[]]. injection H as <-. lia.
Qed.

(** Once the launch record is in, it stays: whatever the later statements
    do, the launches are the old ones and the new record. *)
Lemma establishAttempt_launches (amb : Ambient) (launchData : strmap)
    (consumer : Consumer) (u c : jsstring) (w : World) :
  let row := launch_row amb launchData consumer u c in
  engine_accepts (InsertLaunch row) = true ->
  fresh_launch (db w) (l_id row) = true ->
  existsb (fun x => jseqb (c_id x) (l_consumer_id row)) (consumers (db w)) = true ->
  existsb (fun x => jseqb (crs_id x) (l_course_id row)) (courses (db w)) = true ->
  launches (db (snd (establishAttempt cfg amb launchData consumer u c w)))
  = launches (db w) ++ [row].
Proof.
  cbv zeta. set (row := launch_row amb launchData consumer u c).
  intros Hins Hfresh Hc1 Hc2.
  unfold establishAttempt, bind, insert_launch, select_open_attempt,
    insert_attempt, query, ret.
  fold row. change (uuid_launch amb) with (l_id row). rewrite Hins.
  unfold fresh_launch in Hfresh. apply negb_true_iff in Hfresh.
  rewrite Hfresh, Hc1, Hc2. cbn [negb orb db outbox].
  destruct (engine_accepts (SelectOpenAttempt u c)); [|reflexivity].
  cbn [db outbox].
  destruct (latest _) as [a|]; [reflexivity|].
  destruct (engine_accepts (InsertAttempt _ _)); [|reflexivity].
  cbn [db outbox].
  destruct (existsb _ (attempts _)); [reflexivity|].
  destruct (negb _); reflexivity.
Qed.

Lemma establishAttempt_reuses (amb : Ambient) (launchData : strmap)
    (consumer : Consumer) (u c : jsstring) (w : World) :
  let row := launch_row amb launchData consumer u c in
  attempts_have_launches (db w) ->
  engine_accepts (InsertLaunch row) = true ->
  fresh_launch (db w) (l_id row) = true ->
  existsb (fun x => jseqb (c_id x) (l_consumer_id row)) (consumers (db w)) = true ->
  existsb (fun x => jseqb (crs_id x) (l_course_id row)) (courses (db w)) = true ->
  engine_accepts (SelectOpenAttempt u c) = true ->
  open_attempts (db w) u c <> [] ->
  exists a,
    latest (open_attempts (db w) u c) = Some a
    /\ establishAttempt cfg amb launchData consumer u c w
       = (Ok (Redirect (baseUrl cfg ++ lit "/static/player.html?attemptId="
                        ++ a_id a ++ lit "&courseId=" ++ c)),
          mkWorld (with_launch (db w) row) (outbox w)).
Proof.
  cbv zeta. set (row := launch_row amb launchData consumer u c).
  intros Hfk Hins Hfresh Hc1 Hc2 Hsel Hopen.
  unfold establishAttempt, bind, insert_launch, select_open_attempt, query, ret.
  fold row. rewrite Hins.
  unfold fresh_launch in Hfresh. apply negb_true_iff in Hfresh.
  rewrite Hfresh, Hc1, Hc2. cbn [negb orb db outbox]. rewrite Hsel.
  cbn [db outbox].
  rewrite open_attempts_with_launch
    by (auto; unfold fresh_launch; now rewrite Hfresh).
  destruct (latest (open_attempts (db w) u c)) as [a|] eqn:El.
  - exists a. split; reflexivity.
  - apply latest_None in El. contradiction.
Qed.

Lemma establishAttempt_creates (amb : Ambient) (launchData : strmap)
    (consumer : Consumer) (u c : jsstring) (w : World) :
  let row := launch_row amb launchData consumer u c in
  attempts_have_launches (db w) ->
  engine_accepts (InsertLaunch row) = true ->
  fresh_launch (db w) (l_id row) = true ->
  existsb (fun x => jseqb (c_id x) (l_consumer_id row)) (consumers (db w)) = true ->
  existsb (fun x => jseqb (crs_id x) (l_course_id row)) (courses (db w)) = true ->
  engine_accepts (SelectOpenAttempt u c) = true ->
  open_attempts (db w) u c = [] ->
  engine_accepts (InsertAttempt (uuid_attempt amb) (l_id row)) = true ->
  existsb (fun a => jseqb (a_id a) (uuid_attempt amb)) (attempts (db w)) = false ->
  establishAttempt cfg amb launchData consumer u c w
  = (Ok (Redirect (baseUrl cfg ++ lit "/static/player.html?attemptId="
                   ++ uuid_attempt amb ++ lit "&courseId=" ++ c)),
     mkWorld (with_attempt (with_launch (db w) row)
                (new_attempt (uuid_attempt amb) (l_id row) (db_now amb)))
             (outbox w)).
Proof.
  cbv zeta. set (row := launch_row amb launchData consumer u c).
  intros Hfk Hins Hfresh Hc1 Hc2 Hsel Hopen Hatt Hnew.
  unfold establishAttempt, bind, insert_launch, select_open_attempt,
    insert_attempt, query, ret.
  fold row. change (uuid_launch amb) with (l_id row). rewrite Hins.
  pose proof Hfresh as Hfresh'.
  unfold fresh_launch in Hfresh. apply negb_true_iff in Hfresh.
  rewrite Hfresh, Hc1, Hc2. cbn [negb orb db outbox]. rewrite Hsel.
  cbn [db outbox].
  rewrite open_attempts_with_launch by auto.
  rewrite Hopen. cbn [latest]. rewrite Hatt. cbn [db outbox].
  cbn [with_launch attempts launches]. rewrite Hnew.
  rewrite existsb_app_last, jseqb_refl, orb_true_r. cbn [negb].
  reflexivity.
Qed.

(** C4, as the code has it. A verified launch whose INSERT the engine runs
    always adds its Launch record, with or without an open attempt and
    whatever the later statements do.  When the learner has unfinished
    attempts on the course, the handler redirects to the one started last
    and adds no attempt; when there is none, it adds a new attempt under
    the new record and redirects to it; the attempts change only in that
    case; and the launch keeps the store at no more than one open attempt
    per learner and course. *)
Theorem lti_launch_resumes (amb : Ambient) (launchData : strmap) (w : World)
    (consumer : Consumer) (courseId : jsstring) :
  let userId := learner_of launchData in
  let row := launch_row amb launchData consumer userId courseId in
  let out := ltiLaunch cfg amb launchData w in
  let player attemptId :=
    Redirect (baseUrl cfg ++ lit "/static/player.html?attemptId="
              ++ attemptId ++ lit "&courseId=" ++ courseId) in
  verified_launch cfg launchData w consumer courseId ->
  attempts_have_launches (db w) ->
  (engine_accepts (InsertLaunch row) = true ->
   fresh_launch (db w) (l_id row) = true ->
   existsb (fun x => jseqb (crs_id x) courseId) (courses (db w)) = true ->
   launches (db (snd out)) = launches (db w) ++ [row]
   /\ (engine_accepts (SelectOpenAttempt userId courseId) = true ->
       (open_attempts (db w) userId courseId <> [] ->
        exists a,
          In a (open_attempts (db w) userId courseId)
          /\ (forall b, In b (open_attempts (db w) userId courseId) ->
                a_started_at b <= a_started_at a)
          /\ fst out = player (a_id a)
          /\ attempts (db (snd out)) = attempts (db w))
       /\ (open_attempts (db w) userId courseId = [] ->
           engine_accepts (InsertAttempt (uuid_attempt amb) (l_id row)) = true ->
           existsb (fun a => jseqb (a_id a) (uuid_attempt amb))
                   (attempts (db w)) = false ->
           fst out = player (uuid_attempt amb)
           /\ attempts (db (snd out))
              = attempts (db w)
                ++ [new_attempt (uuid_attempt amb) (l_id row) (db_now amb)])))
  /\ (attempts (db (snd out)) <> attempts (db w) ->
      open_attempts (db w) userId courseId = [])
  /\ (at_most_one_open (db w) -> at_most_one_open (db (snd out))).
Proof.
  cbv zeta. intros Hver Hfk.
  pose proof (ltiLaunch_verified amb launchData w consumer courseId Hver) as Htry.
  assert (Hw : snd (ltiLaunch cfg amb launchData w)
               = snd (establishAttempt cfg amb launchData consumer
                        (learner_of launchData) courseId w)).
  { unfold ltiLaunch. rewrite Htry.
    destruct (establishAttempt _ _ _ _ _ _ w) as [[r|e] w']; reflexivity. }
  split; [|split].
  - intros Hins Hfresh Hcrs.
    assert (Hcons : existsb (fun x => jseqb (c_id x) (c_id consumer))
                            (consumers (db w)) = true).
    { destruct Hver as (_ & _ & Hc & _).
      apply existsb_exists. exists consumer. split; [|apply jseqb_refl].
      destruct (filter _ (consumers (db w))) as [|c0 rest] eqn:E; [discriminate|].
      injection Hc as ->.
      assert (Hin : In consumer (consumer :: rest)) by now left.
      rewrite <- E in Hin. now apply filter_In in Hin. }
    split.
    + rewrite Hw.
      now apply (establishAttempt_launches amb launchData consumer
                   (learner_of launchData) courseId w).
    + intros Hsel. split.
      * intros Hopen.
        destruct (establishAttempt_reuses amb launchData consumer
                    (learner_of launchData) courseId w Hfk Hins Hfresh Hcons
                    Hcrs Hsel Hopen) as (a & Ha & Hrun).
        exists a. split; [now apply latest_In|].
        split; [now apply latest_newest|].
        unfold ltiLaunch. rewrite Htry, Hrun. cbn [fst snd db]. auto.
      * intros Hnone Hatt Hnew.
        pose proof (establishAttempt_creates amb launchData consumer
                      (learner_of launchData) courseId w Hfk Hins Hfresh Hcons
                      Hcrs Hsel Hnone Hatt Hnew) as Hrun.
        cbv zeta in Hrun.
        unfold ltiLaunch. rewrite Htry, Hrun. cbn [fst snd db]. auto.
  - intros Hchg. rewrite Hw in Hchg.
    pose proof (establishAttempt_db cfg amb launchData consumer
                  (learner_of launchData) courseId w) as H.
    cbv zeta in H.
    destruct H as [H | [[Hf H] | (Hf & Hnone & H)]];
      try (rewrite H in Hchg; now contradiction Hchg).
    now rewrite open_attempts_with_launch in Hnone.
  - intros Hinv. now apply ltiLaunch_invariant.
Qed.


End LtiLaunchHandler.

(** A verified launch of a learner who has an unfinished attempt on the
    course: the handler redirects to that attempt, and the launches table
    has one record more. *)
Lemma lti_launch_adds_launch_record :
  validateLtiLaunch sample_launchData (c_lti_consumer_secret sample_consumer)
                    (baseUrl sample_config ++ lit "/lti/launch") = Ok true
  /\ map a_id (open_attempts sample_store (lit "u1") (crs_id sample_course))
     = [lit "77777777-7777-4777-8777-777777777777"]
  /\ fst (ltiLaunch sample_config sample_ambient sample_launchData sample_world)
     = Redirect (lit "https://host/static/player.html?attemptId=77777777-7777-4777-8777-777777777777&courseId=22222222-2222-4222-8222-222222222222")
  /\ map l_id (launches sample_store)
     = [lit "55555555-5555-4555-8555-555555555555";
        lit "66666666-6666-4666-8666-666666666666"]
  /\ map l_id (launches (db (snd (ltiLaunch sample_config sample_ambient
                                    sample_launchData sample_world))))
     = [lit "55555555-5555-4555-8555-555555555555";
        lit "66666666-6666-4666-8666-666666666666";
        lit "33333333-3333-4333-8333-333333333333"].
Proof. repeat split; vm_compute; reflexivity. Qed.

Lemma sample_store_attempts_have_launches : attempts_have_launches sample_store.
Proof.
  intros a [<-|[<-|[]]].
  - exists sample_lti_launch. split; [now left | reflexivity].
  - exists sample_dispatch_launch. split; [right; now left | reflexivity].
Qed.

Lemma lti_launch_resumes_witness :
  launches (db (snd (ltiLaunch sample_config sample_ambient
                       sample_launchData sample_world)))
  = launches (db sample_world)
    ++ [launch_row sample_ambient sample_launchData sample_consumer
          (learner_of sample_launchData) (crs_id sample_course)]
  /\ exists a,
       In a (open_attempts (db sample_world) (learner_of sample_launchData)
                           (crs_id sample_course))
       /\ (forall b,
             In b (open_attempts (db sample_world)
                     (learner_of sample_launchData) (crs_id sample_course)) ->
             a_started_at b <= a_started_at a)
       /\ fst (ltiLaunch sample_config sample_ambient sample_launchData
                 sample_world)
          = Redirect (baseUrl sample_config
                      ++ lit "/static/player.html?attemptId="
                      ++ a_id a ++ lit "&courseId=" ++ crs_id sample_course)
       /\ attempts (db (snd (ltiLaunch sample_config sample_ambient
                               sample_launchData sample_world)))
          = attempts (db sample_world).
Proof.
  assert (Hver : verified_launch sample_config sample_launchData sample_world
                   sample_consumer (crs_id sample_course)).
  { repeat split; try (vm_compute; reflexivity).
    left. split; vm_compute; reflexivity. }
  pose proof (proj1 (lti_launch_resumes (rt := sample_runtime)
                       (sv := sample_services) sample_config sample_ambient
                       sample_launchData sample_world sample_consumer
                       (crs_id sample_course) Hver
                       sample_store_attempts_have_launches)
                ltac:(reflexivity) ltac:(vm_compute; reflexivity)
                ltac:(vm_compute; reflexivity)) as [Hl Hrest].
  split; [exact Hl|].
  apply (proj1 (Hrest ltac:(reflexivity))).
  vm_compute. discriminate.
Defined.

(** ** Commits and finishes on unknown attempts *)

Section UnknownAttempt.
Context {rt : Runtime} {sv : Services}.
Variable cfg : Config.

Lemma store_eta (s : Store) :
  mkStore (consumers s) (courses s) (launches s) (attempts s) = s.
Proof. destruct s; reflexivity. Qed.

Lemma map_unmatched {A} (p : A -> bool) (f : A -> A) (l : list A) :
  (forall a, In a l -> p a = false) ->
  map (fun a => if p a then f a else a) l = l.
Proof.
  intros H. induction l as [|a l IH]; [reflexivity|]. cbn [map].
  rewrite (H a) by now left. f_equal. apply IH. intros b Hb. apply H. now right.
Qed.

Lemma filter_unmatched {A} (p : A -> bool) (l : list A) :
  (forall a, In a l -> p a = false) -> filter p l = [].
Proof.
  intros H. induction l as [|a l IH]; [reflexivity|]. cbn [filter].
  rewrite (H a) by now left. apply IH. intros b Hb. apply H. now right.
Qed.

(** Whatever the store, a commit or a finish for an identifier that no
    attempt bears, run by the engine, answers 200 with the success payload
    and leaves the world as it was. *)
Lemma commit_unknown_attempt (amb : Ambient) (attemptId : jsstring)
    (cmiData : strmap) (w : World) :
  (forall a, In a (attempts (db w)) -> jseqb (a_id a) attemptId = false) ->
  engine_accepts (UpdateAttemptCommit cmiData (spec_score cmiData)
                    (spec_completion cmiData) (spec_success cmiData)
                    (prop_get cmiData (lit "cmi.core.total_time")) attemptId)
  = true ->
  engine_accepts (SelectLaunchOfAttempt attemptId) = true ->
  commit cfg amb attemptId cmiData w
  = (SendJson 200 [(lit "success", JBool true)], w).
Proof.
  intros Hno Hupd Hsel. unfold commit, commit_try.
  rewrite commit_score, commit_completion, commit_success.
  unfold bind at 1. rewrite update_attempt_commit_runs by exact Hupd.
  cbv beta iota. rewrite (map_unmatched _ _ _ Hno), store_eta, world_eta.
  unfold bind at 1. unfold select_launch_of_attempt, query. rewrite Hsel.
  cbv beta iota. unfold owning_launches.
  rewrite (filter_unmatched _ _ Hno), world_eta. reflexivity.
Qed.

Lemma finish_unknown_attempt (amb : Ambient) (attemptId : jsstring) (w : World) :
  (forall a, In a (attempts (db w)) -> jseqb (a_id a) attemptId = false) ->
  engine_accepts (UpdateAttemptFinish attemptId) = true ->
  finish amb attemptId w = (SendJson 200 [(lit "success", JBool true)], w).
Proof.
  intros Hno Hupd. unfold finish, finish_try, bind, update_attempt_finish, query.
  rewrite Hupd. cbv beta iota.
  rewrite (map_unmatched _ _ _ Hno), store_eta, world_eta. reflexivity.
Qed.

End UnknownAttempt.

(** The resume scenario of the specification: two launches of the same
    learner for the same course lead to the same attempt; once it is
    finished, a third launch starts a new one. *)
Example attempt_resume_scenario :
  let w0 := mkWorld (mkStore [sample_consumer] [sample_course] [] []) [] in
  let amb1 := sample_ambient in
  let amb2 := mkAmbient (lit "aaaaaaaa-0000-4000-8000-000000000002")
                (lit "bbbbbbbb-0000-4000-8000-000000000002")
                1700000400 0 [] 0 [] [] in
  let amb3 := mkAmbient (lit "aaaaaaaa-0000-4000-8000-000000000003")
                (lit "bbbbbbbb-0000-4000-8000-000000000003")
                1700000500 0 [] 0 [] [] in
  let '(r1, w1) := ltiLaunch sample_config amb1 sample_launchData w0 in
  let '(r2, w2) := ltiLaunch sample_config amb2 sample_launchData w1 in
  let '(_, w3) := finish amb2 (uuid_attempt amb1) w2 in
  let '(r3, w4) := ltiLaunch sample_config amb3 sample_launchData w3 in
  r1 = Redirect (lit "https://host/static/player.html?attemptId=44444444-4444-4444-8444-444444444444&courseId=22222222-2222-4222-8222-222222222222")
  /\ r2 = r1
  /\ r3 = Redirect (lit "https://host/static/player.html?attemptId=bbbbbbbb-0000-4000-8000-000000000003&courseId=22222222-2222-4222-8222-222222222222")
  /\ map a_id (attempts (db w4))
     = [uuid_attempt amb1; uuid_attempt amb3]
  /\ length (launches (db w4)) = 3%nat.
Proof. vm_compute. repeat split; reflexivity. Qed.

(** * Further properties *)

(** ** Percent-encoding *)

Lemma uri_unescaped_ascii (c : Z) : uri_unescaped c = true -> 0 <= c < 128.
Proof.
  unfold uri_unescaped, in_range, mem_codes. cbn [lit list_ascii_of_string map existsb].
  intros H.
  repeat (apply orb_true_iff in H; destruct H as [H|H]);
    try (apply andb_true_iff in H; destruct H as [H1 H2];
         apply Z.leb_le in H1; apply Z.leb_le in H2; lia);
    try (apply Z.eqb_eq in H; subst c; vm_compute; split; [discriminate|reflexivity]);
    try discriminate.
Qed.

Lemma uri_unescaped_not_surrogate (c : Z) :
  uri_unescaped c = true ->
  is_high_surrogate c = false /\ is_low_surrogate c = false.
Proof.
  intros H. apply uri_unescaped_ascii in H.
  unfold is_high_surrogate, is_low_surrogate.
  split; apply andb_false_iff; left; apply Z.leb_gt; lia.
Qed.

Lemma high_not_low (c : Z) : is_high_surrogate c = true -> is_low_surrogate c = false.
Proof.
  unfold is_high_surrogate, is_low_surrogate. intros H.
  apply andb_true_iff in H. destruct H as [_ H]. apply Z.leb_le in H.
  apply andb_false_iff. left. apply Z.leb_gt. lia.
Qed.

Lemma encodeURIComponent_well_formed_bounded (n : nat) (s : jsstring) :
  (length s <= n)%nat ->
  if well_formed_utf16 s
  then exists e, encodeURIComponent s = Ok e
  else encodeURIComponent s = Throw URIError_malformed.
Proof.
  revert s. induction n as [|n IH]; intros s Hn.
  - destruct s; [cbn; eauto | cbn in Hn; lia].
  - destruct s as [|c rest]; [cbn; eauto|].
    cbn [length] in Hn.
    cbn [well_formed_utf16 encodeURIComponent].
    destruct (uri_unescaped c) eqn:Eu.
    + destruct (uri_unescaped_not_surrogate c Eu) as [Hh Hl].
      rewrite Hh, Hl. cbn [negb andb].
      specialize (IH rest ltac:(lia)).
      destruct (well_formed_utf16 rest).
      * destruct IH as [e He]. rewrite He. cbn. eauto.
      * rewrite IH. reflexivity.
    + destruct (is_low_surrogate c) eqn:El.
      * destruct (is_high_surrogate c) eqn:Eh.
        { apply high_not_low in Eh. congruence. }
        reflexivity.
      * destruct (is_high_surrogate c) eqn:Eh.
        { destruct rest as [|d rest']; [reflexivity|].
          destruct (is_low_surrogate d) eqn:Ed; [|reflexivity].
          cbn [andb]. cbn [length] in Hn.
          specialize (IH rest' ltac:(lia)).
          destruct (well_formed_utf16 rest').
          - destruct IH as [e He]. rewrite He. cbn. eauto.
          - rewrite IH. reflexivity. }
        cbn [negb andb].
        specialize (IH rest ltac:(lia)).
        destruct (well_formed_utf16 rest).
        { destruct IH as [e He]. rewrite He. cbn. eauto. }
        rewrite IH. reflexivity.
Qed.

Section PercentEncoding.
Context {rt : Runtime}.

(** X1. [encodeRfc3986] has a result exactly on well-formed UTF-16 text;
    on a text with a surrogate that is not half of a pair it throws the
    URIError of [encodeURIComponent]. *)
Theorem encodeRfc3986_defined_on_well_formed (s : jsstring) :
  ((exists e, encodeRfc3986 s = Ok e) <-> well_formed_utf16 s = true)
  /\ (well_formed_utf16 s = false -> encodeRfc3986 s = Throw URIError_malformed).
Proof.
  pose proof (encodeURIComponent_well_formed_bounded (length s) s (le_n _)) as H.
  unfold encodeRfc3986.
  destruct (well_formed_utf16 s).
  - destruct H as [e He]. rewrite He. cbn [rbind].
    split; [split; eauto | discriminate].
  - rewrite H. cbn [rbind].
    split; [split; [intros [e He]; discriminate | discriminate] | reflexivity].
Qed.

End PercentEncoding.

(** The escapes that [encodeURIComponent] writes. *)
Lemma hex_upper_digit (d : Z) :
  is_upper_hex (hex_upper d) = true
  /\ mem_codes (hex_upper d) (lit "!'()*") = false.
Proof.
  unfold hex_upper. generalize (Z.to_nat d) as n. intros n.
  do 17 (destruct n as [|n]; [vm_compute; split; reflexivity|]).
  destruct n; vm_compute; split; reflexivity.
Qed.

Lemma percent_encoded_bytes (bs : list Z) (t : jsstring) :
  percent_encoded (flat_map percent_byte bs ++ t) = percent_encoded t.
Proof.
  induction bs as [|b bs IH]; [reflexivity|].
  cbn [flat_map percent_byte app percent_encoded Z.eqb Pos.eqb].
  destruct (hex_upper_digit (b / 16)) as [H1 _].
  destruct (hex_upper_digit (b mod 16)) as [H2 _].
  rewrite H1, H2. exact IH.
Qed.

Lemma unescaped_unreserved (c : Z) :
  uri_unescaped c = true -> mem_codes c (lit "!'()*") = false ->
  (c =? 37) = false /\ rfc3986_unreserved c = true.
Proof.
  unfold uri_unescaped, rfc3986_unreserved, mem_codes, in_range.
  cbn [lit list_ascii_of_string map existsb].
  change (Z.of_N (N_of_ascii "-")) with 45.
  change (Z.of_N (N_of_ascii "_")) with 95.
  change (Z.of_N (N_of_ascii ".")) with 46.
  change (Z.of_N (N_of_ascii "!")) with 33.
  change (Z.of_N (N_of_ascii "~")) with 126.
  change (Z.of_N (N_of_ascii "*")) with 42.
  change (Z.of_N (N_of_ascii "'")) with 39.
  change (Z.of_N (N_of_ascii "(")) with 40.
  change (Z.of_N (N_of_ascii ")")) with 41.
  intros H1 H2.
  rewrite ?orb_true_iff, ?andb_true_iff, ?orb_false_iff, ?Z.eqb_eq,
    ?Z.eqb_neq, ?Z.leb_le in *.
  split; [lia|].
  repeat match goal with H : _ /\ _ |- _ => destruct H end.
  lia.
Qed.

Lemma upper_hex_unreserved (c : Z) :
  is_upper_hex c = true -> rfc3986_unreserved c = true /\ (c =? 37) = false.
Proof.
  unfold is_upper_hex, rfc3986_unreserved, in_range. intros H.
  rewrite ?orb_true_iff, ?andb_true_iff, ?Z.leb_le in H.
  split.
  - apply orb_true_iff. left. rewrite ?orb_true_iff, ?andb_true_iff, ?Z.leb_le.
    lia.
  - apply Z.eqb_neq. lia.
Qed.

Lemma percent_encoded_chars_bounded (n : nat) (s : jsstring) :
  (length s <= n)%nat -> percent_encoded s = true ->
  Forall (fun c => rfc3986_unreserved c = true \/ c = 37) s.
Proof.
  revert s. induction n as [|n IH]; intros s Hn H.
  - destruct s; [constructor | cbn in Hn; lia].
  - destruct s as [|c rest]; [constructor|].
    cbn [length] in Hn. cbn [percent_encoded] in H.
    destruct (c =? 37) eqn:E.
    + apply Z.eqb_eq in E. subst c.
      destruct rest as [|h1 [|h2 rest']]; try discriminate.
      apply andb_true_iff in H. destruct H as [H H3].
      apply andb_true_iff in H. destruct H as [H1 H2].
      cbn [length] in Hn.
      constructor; [now right|].
      constructor; [left; now apply upper_hex_unreserved|].
      constructor; [left; now apply upper_hex_unreserved|].
      apply IH; [lia|exact H3].
    + apply andb_true_iff in H. destruct H as [H1 H2].
      constructor; [now left|]. apply IH; [lia|exact H2].
Qed.

Lemma percent_encoded_chars (s : jsstring) :
  percent_encoded s = true ->
  Forall (fun c => rfc3986_unreserved c = true \/ c = 37) s.
Proof. apply (percent_encoded_chars_bounded (length s)). apply le_n. Qed.

(** A character that is neither unreserved nor the percent sign does not
    occur in percent-encoded text. *)
Lemma percent_encoded_free (c : Z) (s : jsstring) :
  rfc3986_unreserved c = false -> c <> 37 ->
  percent_encoded s = true -> count_code c s = 0%nat.
Proof.
  intros Hc H37 H. apply percent_encoded_chars in H.
  unfold count_code. apply count_occ_not_In. intros Hin.
  rewrite Forall_forall in H. destruct (H c Hin); congruence.
Qed.

Lemma count_code_app (c : Z) (a b : jsstring) :
  count_code c (a ++ b) = (count_code c a + count_code c b)%nat.
Proof. apply count_occ_app. Qed.

Lemma count_code_cons (c : Z) (s : jsstring) :
  count_code c (c :: s) = S (count_code c s).
Proof. unfold count_code. apply count_occ_cons_eq. reflexivity. Qed.

Section Rfc3986.
Context {rt : Runtime}.

(** The runtime upper-cases ASCII text letter by letter. *)
Hypothesis toUpperCase_ascii :
  forall s, ascii_text s -> toUpperCase s = ascii_upper s.

Lemma replaced_escape (c : Z) (t : jsstring) :
  mem_codes c (lit "!'()*") = true ->
  percent_encoded ((lit "%" ++ toUpperCase (toString16 c)) ++ t)
  = percent_encoded t.
Proof.
  unfold mem_codes. cbn [lit list_ascii_of_string map existsb].
  intros H.
  repeat (apply orb_true_iff in H; destruct H as [H|H]);
    try discriminate;
    apply Z.eqb_eq in H; vm_compute in H; subst c;
    (rewrite toUpperCase_ascii;
     [reflexivity | vm_compute; repeat constructor; discriminate]).
Qed.

Lemma replace_keeps_bytes (bs : list Z) :
  flat_map (fun c => if mem_codes c (lit "!'()*")
                     then lit "%" ++ toUpperCase (toString16 c) else [c])
           (flat_map percent_byte bs)
  = flat_map percent_byte bs.
Proof.
  induction bs as [|b bs IH]; [reflexivity|].
  cbn [flat_map]. rewrite flat_map_app, IH. f_equal.
  unfold percent_byte. cbn [flat_map].
  destruct (hex_upper_digit (b / 16)) as [_ H1].
  destruct (hex_upper_digit (b mod 16)) as [_ H2].
  rewrite H1, H2. reflexivity.
Qed.

Lemma encodeRfc3986_encoded_bounded (n : nat) (s e t : jsstring) :
  (length s <= n)%nat -> encodeURIComponent s = Ok e ->
  percent_encoded
    (flat_map (fun c => if mem_codes c (lit "!'()*")
                        then lit "%" ++ toUpperCase (toString16 c) else [c]) e
     ++ t)
  = percent_encoded t.
Proof.
  revert s e. induction n as [|n IH]; intros s e Hn He.
  - destruct s; [|cbn in Hn; lia]. cbn in He. injection He as <-. reflexivity.
  - destruct s as [|c rest].
    { cbn in He. injection He as <-. reflexivity. }
    cbn [length] in Hn. cbn [encodeURIComponent] in He.
    destruct (uri_unescaped c) eqn:Eu.
    + destruct (encodeURIComponent rest) as [r|] eqn:Er; [|discriminate].
      cbn in He. injection He as <-.
      cbn [flat_map]. rewrite <- app_assoc.
      destruct (mem_codes c (lit "!'()*")) eqn:Em.
      * rewrite replaced_escape by exact Em. apply (IH rest); [lia|exact Er].
      * destruct (unescaped_unreserved c Eu Em) as [H37 Hun].
        cbn [app percent_encoded]. rewrite H37, Hun. cbn [andb].
        apply (IH rest); [lia|exact Er].
    + destruct (is_low_surrogate c); [discriminate|].
      destruct (is_high_surrogate c).
      * destruct rest as [|d rest']; [discriminate|].
        destruct (is_low_surrogate d); [|discriminate].
        destruct (encodeURIComponent rest') as [r|] eqn:Er; [|discriminate].
        cbn in He. injection He as <-.
        unfold percent_utf8. rewrite flat_map_app, replace_keeps_bytes.
        rewrite <- app_assoc, percent_encoded_bytes.
        cbn [length] in Hn. apply (IH rest'); [lia|exact Er].
      * destruct (encodeURIComponent rest) as [r|] eqn:Er; [|discriminate].
        cbn in He. injection He as <-.
        unfold percent_utf8. rewrite flat_map_app, replace_keeps_bytes.
        rewrite <- app_assoc, percent_encoded_bytes.
        apply (IH rest); [lia|exact Er].
Qed.

Lemma encodeRfc3986_encoded (s e : jsstring) :
  encodeRfc3986 s = Ok e -> percent_encoded e = true.
Proof.
  unfold encodeRfc3986. intros H.
  destruct (encodeURIComponent s) as [r|] eqn:Er; [|discriminate].
  cbn [rbind] in H. injection H as <-.
  pose proof (encodeRfc3986_encoded_bounded (length s) s r [] (le_n _) Er) as H.
  rewrite app_nil_r in H. exact H.
Qed.

(** X2. The result of [encodeRfc3986] is RFC 3986 text: every character is
    an unreserved one (a letter, a digit or one of [-._~]) or a percent
    sign, and each percent sign is followed by two upper-case hexadecimal
    digits; none of the reserved characters is left. *)
Theorem encodeRfc3986_alphabet (s e : jsstring) :
  encodeRfc3986 s = Ok e ->
  percent_encoded e = true
  /\ Forall (fun c => rfc3986_unreserved c = true \/ c = 37) e
  /\ (forall c, In c (lit "!*'();:@&=+$,/?#[] ") -> ~ In c e).
Proof.
  intros H. apply encodeRfc3986_encoded in H.
  split; [exact H|]. split; [now apply percent_encoded_chars|].
  intros c Hc Hin.
  assert (Hfree : count_code c e = 0%nat).
  { apply percent_encoded_free; [| |exact H];
      cbn in Hc;
      repeat (destruct Hc as [Hc|Hc]; [subst c; vm_compute; congruence|]);
      contradiction. }
  unfold count_code in Hfree.
  apply (count_occ_not_In Z.eq_dec) in Hfree. contradiction.
Qed.

(** X3. The signature base string has three fields: the upper-cased
    method, the encoded URL and the encoded parameter string, separated by
    two ampersands; the last two fields are RFC 3986 text and hold no
    ampersand themselves, so the base string of a method without one has
    exactly two. *)
Theorem buildBaseString_three_fields (method url : jsstring) (params : strmap)
    (base : jsstring) :
  buildBaseString method url params = Ok base ->
  exists u p,
    base = toUpperCase method ++ lit "&" ++ u ++ lit "&" ++ p
    /\ percent_encoded u = true /\ percent_encoded p = true
    /\ count_code 38 base = (count_code 38 (toUpperCase method) + 2)%nat.
Proof.
  unfold buildBaseString. intros H.
  destruct (encode_pairs _ _) as [pairs|]; [|discriminate].
  cbn [rbind] in H.
  destruct (normalizeUrl url) as [n|]; [|discriminate].
  cbn [rbind] in H.
  destruct (encodeRfc3986 n) as [u|] eqn:Eu; [|discriminate].
  cbn [rbind] in H.
  destruct (encodeRfc3986 (join (lit "&") pairs)) as [p|] eqn:Ep; [|discriminate].
  cbn [rbind] in H. injection H as <-.
  apply encodeRfc3986_encoded in Eu, Ep.
  exists u, p. split; [reflexivity|]. split; [exact Eu|]. split; [exact Ep|].
  cbn [join]. rewrite count_code_app.
  change (lit "&" ++ u ++ lit "&" ++ p) with (38 :: u ++ 38 :: p).
  rewrite count_code_cons, count_code_app, count_code_cons.
  rewrite (percent_encoded_free 38 u), (percent_encoded_free 38 p);
    try exact Eu; try exact Ep; try (vm_compute; congruence).
Qed.

End Rfc3986.

Lemma encodeRfc3986_alphabet_witness :
  encodeRfc3986 (lit "a!b c") = Ok (lit "a%21b%20c")
  /\ percent_encoded (lit "a%21b%20c") = true.
Proof.
  split; [reflexivity|].
  refine (proj1 (encodeRfc3986_alphabet (rt := sample_runtime) _
                   (lit "a!b c") (lit "a%21b%20c") _)).
  - intros s _. reflexivity.
  - reflexivity.
Defined.

Lemma buildBaseString_three_fields_witness :
  exists u p,
    lit "POST&https%3A%2F%2Fhost%2Flti%2Flaunch&a%2521%3D1%26user_id%3Du%25201"
    = lit "POST" ++ lit "&" ++ u ++ lit "&" ++ p
    /\ percent_encoded u = true /\ percent_encoded p = true
    /\ count_code 38 (lit "POST&https%3A%2F%2Fhost%2Flti%2Flaunch&a%2521%3D1%26user_id%3Du%25201")
       = (count_code 38 (lit "POST") + 2)%nat.
Proof.
  refine (buildBaseString_three_fields (rt := sample_runtime) _
            (lit "POST") (lit "https://host/lti/launch")
            [(lit "user_id", lit "u 1"); (lit "a!", lit "1")] _ _).
  - intros s _. reflexivity.
  - vm_compute. reflexivity.
Defined.

(** ** The Authorization header of the outcome request *)

Lemma count_code_other (c x : Z) (s : jsstring) :
  x <> c -> count_code c (x :: s) = count_code c s.
Proof. intros H. unfold count_code. now apply count_occ_cons_neq. Qed.

Lemma join_cons (sep x y : jsstring) (l : list jsstring) :
  join sep (x :: y :: l) = x ++ sep ++ join sep (y :: l).
Proof. reflexivity. Qed.

Section AuthHeader.
Context {rt : Runtime}.

Hypothesis toUpperCase_ascii :
  forall s, ascii_text s -> toUpperCase s = ascii_upper s.

Lemma auth_pairs_quotes (entries : strmap) (pairs : list jsstring) :
  auth_pairs entries = Ok pairs ->
  length pairs = length entries
  /\ count_code 34 (join (lit ", ") pairs) = (2 * length entries)%nat.
Proof.
  revert pairs. induction entries as [|[k v] rest IH]; intros pairs H.
  - cbn in H. injection H as <-. split; reflexivity.
  - cbn [auth_pairs] in H.
    destruct (encodeRfc3986 k) as [ek|] eqn:Ek; [|discriminate].
    cbn [rbind] in H.
    destruct (encodeRfc3986 v) as [ev|] eqn:Ev; [|discriminate].
    cbn [rbind] in H.
    destruct (auth_pairs rest) as [r|] eqn:Er; [|discriminate].
    cbn [rbind] in H. injection H as <-.
    destruct (IH r eq_refl) as [Hlen Hq].
    apply (encodeRfc3986_encoded toUpperCase_ascii) in Ek, Ev.
    assert (Hpair : count_code 34 (ek ++ tpl "=`" ++ ev ++ tpl "`") = 2%nat).
    { change (tpl "=`") with [61; 34]. change (tpl "`") with [34].
      rewrite count_code_app.
      change ([61; 34] ++ ev ++ [34]) with (61 :: 34 :: ev ++ [34]).
      rewrite count_code_other by discriminate.
      rewrite count_code_cons, count_code_app.
      rewrite (percent_encoded_free 34 ek), (percent_encoded_free 34 ev);
        try assumption; try (vm_compute; congruence). }
    split; [cbn [length]; congruence|].
    cbn [length]. destruct r as [|p r'].
    + destruct rest; [exact Hpair|discriminate].
    + rewrite join_cons, count_code_app.
      match goal with
      | |- (?X + _)%nat = _ => replace X with 2%nat by (symmetry; exact Hpair)
      end.
      rewrite count_code_app, Hq.
      change (count_code 34 (lit ", ")) with 0%nat. lia.
Qed.

(** X4. The Authorization header is [OAuth] and one pair for each
    parameter whose name starts with [oauth_], in the order of the
    parameters; the names and values are RFC 3986 text, so the only double
    quotes of the header are the two around each value. *)
Theorem buildAuthHeader_quotes (params : strmap) (header : jsstring) :
  buildAuthHeader params = Ok header ->
  exists pairs,
    header = lit "OAuth " ++ join (lit ", ") pairs
    /\ length pairs
       = length (filter (fun kv => is_prefix (lit "oauth_") (fst kv)) params)
    /\ count_code 34 header
       = (2 * length (filter (fun kv => is_prefix (lit "oauth_") (fst kv))
                             params))%nat.
Proof.
  unfold buildAuthHeader. intros H.
  destruct (auth_pairs _) as [pairs|] eqn:Ep; [|discriminate].
  cbn [rbind] in H. injection H as <-.
  destruct (auth_pairs_quotes _ _ Ep) as [Hlen Hq].
  exists pairs. split; [reflexivity|]. split; [exact Hlen|].
  transitivity (count_code 34 (lit "OAuth ")
                + count_code 34 (join (lit ", ") pairs))%nat.
  { exact (count_code_app 34 (lit "OAuth ") _). }
  rewrite Hq. reflexivity.
Qed.

End AuthHeader.

Lemma buildAuthHeader_quotes_witness :
  exists pairs,
    tpl "OAuth oauth_consumer_key=`key%20abc`, oauth_version=`1.0`"
    = lit "OAuth " ++ join (lit ", ") pairs
    /\ length pairs = 2%nat
    /\ count_code 34 (tpl "OAuth oauth_consumer_key=`key%20abc`, oauth_version=`1.0`")
       = 4%nat.
Proof.
  refine (buildAuthHeader_quotes (rt := sample_runtime) _
            [(lit "oauth_consumer_key", lit "key abc");
             (lit "realm", tpl "x`y");
             (lit "oauth_version", lit "1.0")] _ _).
  - intros s _. reflexivity.
  - vm_compute. reflexivity.
Defined.

(** ** The shape of signatures and body hashes *)

Lemma be_bytes_length (n : nat) (x : Z) : length (be_bytes n x) = n.
Proof. induction n as [|n IH]; [reflexivity|]. cbn [be_bytes length]. now rewrite IH. Qed.

Lemma sha1_length (msg : list Z) : length (sha1 msg) = 20%nat.
Proof.
  unfold sha1. cbv zeta. rewrite !length_app, !be_bytes_length. reflexivity.
Qed.

Lemma base64_char_alphabet (i : Z) : In (base64_char i) base64_alphabet.
Proof.
  assert (H : existsb (Z.eqb (base64_char i)) base64_alphabet = true).
  { unfold base64_char. generalize (Z.to_nat (i mod 64)) as n. intros n.
    do 64 (destruct n as [|n]; [vm_compute; reflexivity|]).
    destruct n; vm_compute; reflexivity. }
  apply existsb_exists in H. destruct H as [x [Hin Hx]].
  apply Z.eqb_eq in Hx. now subst.
Qed.

Lemma base64_digest (bs : list Z) :
  length bs = 20%nat -> digest_text (base64 bs).
Proof.
  intros H.
  do 20 (destruct bs as [|? bs]; [discriminate|]).
  destruct bs; [|discriminate].
  cbn [base64].
  split; [reflexivity|].
  match goal with
  | |- exists body, ?s = _ /\ _ => exists (removelast s)
  end.
  split; [reflexivity|].
  cbn [removelast].
  repeat (apply Forall_cons; [apply base64_char_alphabet|]).
  apply Forall_nil.
Qed.

(** A signature that [signRequest] returns, and the body hash that
    the outcome request carries, are the base64 texts of a 20-byte SHA-1
    digest: 28 characters, 27 of the base64 alphabet and one closing
    padding character. *)
Theorem signature_is_digest_text {rt : Runtime} (method url : jsstring)
    (params : strmap) (secret sig body : jsstring) :
  signRequest method url params secret = Ok sig ->
  digest_text sig /\ digest_text (computeBodyHash body).
Proof.
  intros H. split.
  - unfold signRequest in H.
    destruct (buildBaseString method url params) as [b|]; [|discriminate].
    cbv beta iota delta [rbind] in H.
    destruct (encodeURIComponent secret) as [s|]; [|discriminate].
    injection H as <-.
    unfold hmac_sha1_base64, hmac_sha1. apply base64_digest, sha1_length.
  - unfold computeBodyHash, sha1_base64. apply base64_digest, sha1_length.
Qed.

Lemma signature_is_digest_text_witness :
  digest_text (lit "bJYllRpkde27zJCOF17buWVLO90=").
Proof.
  refine (proj1 (signature_is_digest_text (rt := sample_runtime)
                   (lit "POST") (lit "https://host/lti/launch")
                   [(lit "user_id", lit "u 1"); (lit "a!", lit "1")]
                   (lit "s3cr3t") (lit "bJYllRpkde27zJCOF17buWVLO90=") [] _)).
  vm_compute. reflexivity.
Defined.

(** ** The XML escaping *)

Lemma xml_entity_safe (c : Z) :
  Forall (fun x => x <> 60 /\ x <> 62 /\ x <> 34 /\ x <> 39) (xml_entity c).
Proof.
  unfold xml_entity.
  case_code c 38 E1; [vm_compute; repeat constructor; discriminate|].
  case_code c 60 E2; [vm_compute; repeat constructor; discriminate|].
  case_code c 62 E3; [vm_compute; repeat constructor; discriminate|].
  case_code c 34 E4; [vm_compute; repeat constructor; discriminate|].
  case_code c 39 E5; [vm_compute; repeat constructor; discriminate|].
  apply Z.eqb_neq in E2, E3, E4, E5.
  constructor; [tauto|constructor].
Qed.

Lemma xml_entity_head (c : Z) :
  exists t, xml_entity c = (if existsb (Z.eqb c) [38; 60; 62; 34; 39]
                            then 38 else c) :: t.
Proof.
  unfold xml_entity. cbn [existsb].
  case_code c 38 E1; [eexists; reflexivity|].
  case_code c 60 E2; [eexists; reflexivity|].
  case_code c 62 E3; [eexists; reflexivity|].
  case_code c 34 E4; [eexists; reflexivity|].
  case_code c 39 E5; [eexists; reflexivity|].
  eexists; reflexivity.
Qed.

Lemma xml_entity_prefix_free (x y : Z) (a b : jsstring) :
  xml_entity x ++ a = xml_entity y ++ b -> x = y /\ a = b.
Proof.
  unfold xml_entity.
  case_code x 38 X1; [|case_code x 60 X2; [|case_code x 62 X3;
    [|case_code x 34 X4; [|case_code x 39 X5]]]];
  (case_code y 38 Y1; [|case_code y 60 Y2; [|case_code y 62 Y3;
    [|case_code y 34 Y4; [|case_code y 39 Y5]]]]);
  intros H; vm_compute in H;
  try (injection H; intros; subst; 
       first [ split; reflexivity
             | discriminate
             | (rewrite ?Z.eqb_refl in *; discriminate) ]).
Qed.

(** X5. [escapeXml] leaves none of the characters [<], [>], the double
    quote and the apostrophe in its result, and it loses nothing: two
    texts with the same escaped form are the same text. *)
Theorem escapeXml_safe_and_injective (s t : jsstring) :
  Forall (fun x => x <> 60 /\ x <> 62 /\ x <> 34 /\ x <> 39) (escapeXml s)
  /\ (escapeXml s = escapeXml t <-> s = t).
Proof.
  rewrite !escapeXml_chars. split.
  - induction s as [|c s IH]; [constructor|].
    cbn [flat_map]. apply Forall_app. split; [apply xml_entity_safe|exact IH].
  - split; [|now intros ->].
    revert t. induction s as [|x s IH]; intros [|y t] H.
    + reflexivity.
    + cbn [flat_map] in H. destruct (xml_entity_head y) as [r Hr].
      rewrite Hr in H. discriminate.
    + cbn [flat_map] in H. destruct (xml_entity_head x) as [r Hr].
      rewrite Hr in H. discriminate.
    + cbn [flat_map] in H. apply xml_entity_prefix_free in H.
      destruct H as [-> H]. f_equal. now apply IH.
Qed.

(** ** The replaceResult envelope *)

Lemma toFixed2_no_lt (x : number) : no_lt (the (toFixed2 x)).
Proof.
  assert (Hfix : forall n, no_lt (fixed2_text n)).
  { intros n. unfold fixed2_text, no_lt. apply Forall_app. split.
    - apply toString10_no_lt.
    - pose proof (Z.mod_pos_bound (n / 10) 10 ltac:(lia)).
      pose proof (Z.mod_pos_bound n 10 ltac:(lia)).
      repeat constructor; lia. }
  destruct x as [s| s | | s m e]; cbn [toFixed2 the].
  - vm_compute. repeat constructor; discriminate.
  - destruct s; vm_compute; repeat constructor; discriminate.
  - vm_compute. repeat constructor; discriminate.
  - destruct (10 ^ 23 <=? hundredths m e); cbn [the]; [constructor|].
    destruct s; [|apply Hfix].
    constructor; [discriminate|apply Hfix].
Qed.

(** Occurrences of a tag opening in the envelope: none lie in the escaped
    identifiers or in the score text, which hold no [<]. *)
Lemma envelope_count (p : jsstring) (n1 n2 n3 : nat)
    (sourcedid : jsstring) (score : number) (messageId : jsstring) :
  (forall x, count_sub (60 :: p) (pox_part1 ++ x) = (n1 + count_sub (60%Z :: p) x)%nat) ->
  (forall x, count_sub (60 :: p) (pox_part2 ++ x) = (n2 + count_sub (60%Z :: p) x)%nat) ->
  (forall x, count_sub (60 :: p) (pox_part3 ++ x) = (n3 + count_sub (60%Z :: p) x)%nat) ->
  count_sub (60 :: p) (buildReplaceResultXml sourcedid score messageId)
  = (n1 + n2 + n3 + count_sub (60%Z :: p) pox_part4)%nat.
Proof.
  intros H1 H2 H3. unfold buildReplaceResultXml.
  rewrite H1.
  rewrite (count_sub_skip p _ _ (escapeXml_no_lt messageId)), H2.
  rewrite (count_sub_skip p _ _ (escapeXml_no_lt sourcedid)), H3.
  rewrite (count_sub_skip p _ _ (toFixed2_no_lt _)). lia.
Qed.

(** X6. Whatever the sourcedid, the score and the message identifier, the
    replaceResult envelope has one [imsx_messageIdentifier] element, one
    [replaceResultRequest], one [sourcedId] and one [textString]: the
    texts put into it cannot open an element of their own. *)
Theorem replaceResult_envelope_elements (sourcedid : jsstring) (score : number)
    (messageId : jsstring) :
  let xml := buildReplaceResultXml sourcedid score messageId in
  count_sub (lit "<imsx_messageIdentifier>") xml = 1%nat
  /\ count_sub (lit "<replaceResultRequest>") xml = 1%nat
  /\ count_sub (lit "<sourcedId>") xml = 1%nat
  /\ count_sub (lit "<textString>") xml = 1%nat
  /\ count_sub (lit "<") xml
     = count_sub (lit "<") (buildReplaceResultXml [] NaN []).
Proof.
  cbv zeta.
  repeat split.
  - change (lit "<imsx_messageIdentifier>") with (60 :: lit "imsx_messageIdentifier>").
    rewrite (envelope_count _ 1 0 0); try (intros x; vm_compute; reflexivity).
    vm_compute. reflexivity.
  - change (lit "<replaceResultRequest>") with (60 :: lit "replaceResultRequest>").
    rewrite (envelope_count _ 0 1 0); try (intros x; vm_compute; reflexivity).
    vm_compute. reflexivity.
  - change (lit "<sourcedId>") with (60 :: lit "sourcedId>").
    rewrite (envelope_count _ 0 1 0); try (intros x; vm_compute; reflexivity).
    vm_compute. reflexivity.
  - change (lit "<textString>") with (60 :: lit "textString>").
    rewrite (envelope_count _ 0 0 1); try (intros x; vm_compute; reflexivity).
    vm_compute. reflexivity.
  - change (lit "<") with (60 :: []).
    rewrite (envelope_count [] 7 8 7 sourcedid score messageId);
      try (intros x; vm_compute; reflexivity).
    rewrite (envelope_count [] 7 8 7 [] NaN []);
      try (intros x; vm_compute; reflexivity).
    reflexivity.
Qed.

(** ** The outcome request *)

Section OutcomeRequest.
Context {rt : Runtime} {sv : Services}.

(** What [sendGradeToLms] leaves behind: nothing, or the one request it
    posted, made from a consumer of the store. *)
Lemma sendGradeToLms_world (amb : Ambient) (cid url sid : jsstring)
    (score : number) (w : World) :
  snd (sendGradeToLms amb cid url sid score w) = w
  \/ exists consumer sig header,
       In consumer (consumers (db w)) /\ c_id consumer = cid
       /\ signRequest (lit "POST") url
            (prop_set (generateOAuthParams amb (c_lti_consumer_key consumer))
               (lit "oauth_body_hash")
               (computeBodyHash
                  (buildReplaceResultXml sid score
                     (lit "msg_" ++ toString10 (msg_now amb) ++ lit "_"
                      ++ msg_random amb))))
            (c_lti_consumer_secret consumer) = Ok sig
       /\ buildAuthHeader
            (prop_set
               (prop_set (generateOAuthParams amb (c_lti_consumer_key consumer))
                  (lit "oauth_body_hash")
                  (computeBodyHash
                     (buildReplaceResultXml sid score
                        (lit "msg_" ++ toString10 (msg_now amb) ++ lit "_"
                         ++ msg_random amb))))
               (lit "oauth_signature") sig) = Ok header
       /\ snd (sendGradeToLms amb cid url sid score w)
          = mkWorld (db w)
              (outbox w
               ++ [mkRequest (lit "POST") url
                     [(lit "Content-Type", lit "application/xml");
                      (lit "Authorization", header)]
                     (XmlText
                        (buildReplaceResultXml sid score
                           (lit "msg_" ++ toString10 (msg_now amb) ++ lit "_"
                            ++ msg_random amb)))]).
Proof.
  unfold sendGradeToLms, select_consumer_credentials, query, bind.
  destruct (engine_accepts (SelectConsumerCredentials cid)); [|now left].
  cbv beta iota.
  destruct (filter _ (consumers (db w))) as [|consumer rest] eqn:Ef.
  { left. unfold throw. cbn [snd]. apply world_eta. }
  assert (Hin : In consumer (consumers (db w)) /\ c_id consumer = cid).
  { assert (H : In consumer (filter (fun c => jseqb (c_id c) cid)
                                    (consumers (db w)))).
    { rewrite Ef. now left. }
    apply filter_In in H. destruct H as [H1 H2].
    split; [exact H1|now apply jseqb_eq]. }
  unfold lift.
  destruct (signRequest _ _ _ _) as [sig|e1] eqn:Es.
  2:{ left. cbn [snd]. apply world_eta. }
  destruct (buildAuthHeader _) as [header|e2] eqn:Ea.
  2:{ left. cbn [snd]. apply world_eta. }
  right. exists consumer, sig, header.
  split; [apply Hin|]. split; [apply Hin|].
  split; [exact Es|]. split; [exact Ea|].
  unfold do_fetch. cbn [db outbox].
  destruct (fetch _) as [r|].
  - destruct (negb (resp_ok r)); [reflexivity|].
    destruct (negb (includes (resp_text r) success_marker)); reflexivity.
  - reflexivity.
Qed.

(** X7. For a consumer that the store does not hold, [sendGradeToLms]
    raises [Consumer not found] before anything is built or sent: the
    store and the outbox stay as they are. *)
Theorem sendGradeToLms_unknown_consumer (amb : Ambient)
    (cid url sid : jsstring) (score : number) (w : World) :
  engine_accepts (SelectConsumerCredentials cid) = true ->
  (forall c, In c (consumers (db w)) -> jseqb (c_id c) cid = false) ->
  sendGradeToLms amb cid url sid score w
  = (Throw (Error (lit "Consumer not found")), w).
Proof.
  intros Ha Hc.
  unfold sendGradeToLms, select_consumer_credentials, query, bind.
  rewrite Ha. cbv beta iota.
  rewrite filter_unmatched by exact Hc.
  unfold throw. now rewrite world_eta.
Qed.

(** X8. The request that [sendGradeToLms] posts is one that the verifier
    of this service accepts: its Authorization header is built from OAuth
    parameters that name the consumer key, carry the SHA-1 hash of the XML
    body that is sent, and hold a signature that [validateLtiLaunch]
    finds valid for the secret of the consumer and the outcome URL. *)
Theorem outcome_request_verifies (amb : Ambient) (cid url sid : jsstring)
    (score : number) (w : World) (req : HttpRequest) :
  outbox (snd (sendGradeToLms amb cid url sid score w)) = outbox w ++ [req] ->
  exists consumer oauthParams header xmlBody,
    In consumer (consumers (db w)) /\ c_id consumer = cid
    /\ req_method req = lit "POST" /\ req_url req = url
    /\ req_body req = XmlText xmlBody
    /\ req_headers req = [(lit "Content-Type", lit "application/xml");
                          (lit "Authorization", header)]
    /\ buildAuthHeader oauthParams = Ok header
    /\ prop_get oauthParams (lit "oauth_consumer_key")
       = Some (c_lti_consumer_key consumer)
    /\ prop_get oauthParams (lit "oauth_body_hash")
       = Some (computeBodyHash xmlBody)
    /\ validateLtiLaunch oauthParams (c_lti_consumer_secret consumer) url
       = Ok true.
Proof.
  intros Ho.
  destruct (sendGradeToLms_world amb cid url sid score w)
    as [Hw | (consumer & sig & header & Hin & Hid & Hs & Ha & Hw)].
  { rewrite Hw in Ho. now apply outbox_unchanged in Ho. }
  rewrite Hw in Ho. cbn [outbox] in Ho.
  apply outbox_grows_by_one in Ho. subst req.
  revert Hs Ha.
  generalize (buildReplaceResultXml sid score
                (lit "msg_" ++ toString10 (msg_now amb) ++ lit "_"
                 ++ msg_random amb)) as xmlBody.
  intros xmlBody.
  remember (computeBodyHash xmlBody) as hash eqn:Eh. intros Hs Ha.
  exists consumer.
  exists (prop_set
            (prop_set (generateOAuthParams amb (c_lti_consumer_key consumer))
               (lit "oauth_body_hash") hash)
            (lit "oauth_signature") sig).
  exists header, xmlBody.
  split; [exact Hin|]. split; [exact Hid|].
  split; [reflexivity|]. split; [reflexivity|].
  split; [reflexivity|]. split; [reflexivity|].
  split; [exact Ha|].
  split; [reflexivity|]. split; [rewrite <- Eh; reflexivity|].
  clear Eh. unfold signRequest in Hs.
  destruct (buildBaseString _ _ _) as [base|] eqn:Eb; [|discriminate].
  cbv beta iota delta [rbind] in Hs.
  destruct (encodeURIComponent _) as [s|] eqn:Ee; [|discriminate].
  injection Hs as Hs.
  rewrite (validateLtiLaunch_decides _ _ _ base s sig).
  - rewrite Hs, jseqb_refl. reflexivity.
  - apply prop_get_set_eq.
  - rewrite buildBaseString_set_signature. exact Eb.
  - exact Ee.
Qed.

End OutcomeRequest.

Lemma sendGradeToLms_unknown_consumer_witness :
  sendGradeToLms sample_ambient (lit "99999999-9999-4999-8999-999999999999")
    (lit "https://lms.example.org/outcomes") (lit "sid-1") (num 1) sample_world
  = (Throw (Error (lit "Consumer not found")), sample_world).
Proof.
  refine (sendGradeToLms_unknown_consumer (rt := sample_runtime)
            (sv := sample_services) sample_ambient _ _ _ _ sample_world _ _).
  - reflexivity.
  - intros c [<-|[]]. vm_compute. reflexivity.
Defined.

Lemma outcome_request_verifies_witness :
  exists consumer oauthParams header xmlBody,
    In consumer (consumers (db sample_world))
    /\ c_id consumer = c_id sample_consumer
    /\ req_method
         (last (outbox (snd (sendGradeToLms sample_ambient (c_id sample_consumer)
                               (lit "https://lms.example.org/outcomes")
                               (lit "sid-1") (num 1) sample_world)))
               (mkRequest [] [] [] (XmlText []))) = lit "POST"
    /\ req_url
         (last (outbox (snd (sendGradeToLms sample_ambient (c_id sample_consumer)
                               (lit "https://lms.example.org/outcomes")
                               (lit "sid-1") (num 1) sample_world)))
               (mkRequest [] [] [] (XmlText [])))
       = lit "https://lms.example.org/outcomes"
    /\ req_body
         (last (outbox (snd (sendGradeToLms sample_ambient (c_id sample_consumer)
                               (lit "https://lms.example.org/outcomes")
                               (lit "sid-1") (num 1) sample_world)))
               (mkRequest [] [] [] (XmlText []))) = XmlText xmlBody
    /\ req_headers
         (last (outbox (snd (sendGradeToLms sample_ambient (c_id sample_consumer)
                               (lit "https://lms.example.org/outcomes")
                               (lit "sid-1") (num 1) sample_world)))
               (mkRequest [] [] [] (XmlText [])))
       = [(lit "Content-Type", lit "application/xml");
          (lit "Authorization", header)]
    /\ buildAuthHeader oauthParams = Ok header
    /\ prop_get oauthParams (lit "oauth_consumer_key")
       = Some (c_lti_consumer_key consumer)
    /\ prop_get oauthParams (lit "oauth_body_hash")
       = Some (computeBodyHash xmlBody)
    /\ validateLtiLaunch oauthParams (c_lti_consumer_secret consumer)
         (lit "https://lms.example.org/outcomes") = Ok true.
Proof.
  refine (outcome_request_verifies (rt := sample_runtime)
            (sv := sample_services) sample_ambient (c_id sample_consumer)
            (lit "https://lms.example.org/outcomes") (lit "sid-1") (num 1)
            sample_world _ _).
  vm_compute. reflexivity.
Defined.

(** ** The xAPI reporter *)

Section XapiReporter.
Context {rt : Runtime} {sv : Services}.
Variable cfg : Config.

(** What [sendXapiStatement] leaves behind: nothing, or the one statement
    it posted to the LRS it settled on. *)
Lemma sendXapiStatement_world (amb : Ambient) (cid uid crs : jsstring)
    (data : XapiStatementData) (w : World) :
  let lrs := resolve_lrs cfg (filter (fun c => jseqb (c_id c) cid)
                                     (consumers (db w))) in
  snd (sendXapiStatement cfg amb cid uid crs data w) = w
  \/ (engine_accepts (SelectConsumerLrs cid) = true
      /\ truthy (fst (fst lrs)) = true
      /\ engine_accepts (SelectCourseTitle crs) = true
      /\ exists title,
           snd (sendXapiStatement cfg amb cid uid crs data w)
           = mkWorld (db w)
               (outbox w
                ++ [statement_request (fst (fst lrs)) (snd (fst lrs)) (snd lrs)
                      (buildStatement cfg (stmt_now amb) uid crs title data)])).
Proof.
  cbv zeta.
  unfold sendXapiStatement, select_consumer_lrs, select_course_title, query, bind.
  destruct (engine_accepts (SelectConsumerLrs cid)); [|now left].
  cbv beta iota. cbn [db outbox].
  destruct (truthy (fst (fst (resolve_lrs cfg _)))) eqn:Et; cbn [negb].
  2:{ left. unfold ret. cbn [snd]. apply world_eta. }
  destruct (engine_accepts (SelectCourseTitle crs)).
  2:{ left. cbn [snd]. apply world_eta. }
  right. split; [reflexivity|]. split; [reflexivity|]. split; [reflexivity|].
  cbv beta iota. cbn [db outbox].
  eexists. unfold do_fetch, statement_request. cbn [db outbox].
  destruct (fetch _) as [r|].
  - destruct (negb (resp_ok r)); reflexivity.
  - reflexivity.
Qed.

(** X9. Without an LRS nothing is reported: when the configuration has
    no xAPI endpoint and no consumer row of this identifier has one,
    [sendXapiStatement] returns without a request and without an error,
    and it does not even look the course up. *)
Theorem sendXapiStatement_without_lrs (amb : Ambient) (cid uid crs : jsstring)
    (data : XapiStatementData) (w : World) :
  engine_accepts (SelectConsumerLrs cid) = true ->
  truthy (xapi_endpoint cfg) = false ->
  (forall c, In c (consumers (db w)) -> c_id c = cid ->
             truthy_opt (c_xapi_lrs_endpoint c) = false) ->
  sendXapiStatement cfg amb cid uid crs data w = (Ok tt, w).
Proof.
  intros Ha Hcfg Hc.
  unfold sendXapiStatement, select_consumer_lrs, query, bind.
  rewrite Ha. cbv beta iota. cbn [db outbox].
  assert (Hep : truthy (fst (fst (resolve_lrs cfg
                  (filter (fun c => jseqb (c_id c) cid) (consumers (db w))))))
                = false).
  { unfold resolve_lrs.
    destruct (filter _ (consumers (db w))) as [|consumer rest] eqn:Ef;
      [exact Hcfg|].
    assert (H : In consumer (filter (fun c => jseqb (c_id c) cid)
                                    (consumers (db w)))).
    { rewrite Ef. now left. }
    apply filter_In in H. destruct H as [H1 H2]. apply jseqb_eq in H2.
    rewrite (Hc consumer H1 H2). exact Hcfg. }
  rewrite Hep. cbn [negb]. unfold ret. now rewrite world_eta.
Qed.

(** X10. A consumer with an LRS endpoint of its own is reported to that
    endpoint with its own key and secret (empty when it has none): the
    statement goes to the endpoint, one trailing slash removed, followed by
    [/statements], under Basic credentials made of the two, and the key
    and secret of the configuration are not used. *)
Theorem sendXapiStatement_consumer_lrs (amb : Ambient) (cid uid crs : jsstring)
    (data : XapiStatementData) (w : World) (consumer : Consumer)
    (rest : list Consumer) :
  engine_accepts (SelectConsumerLrs cid) = true ->
  engine_accepts (SelectCourseTitle crs) = true ->
  filter (fun c => jseqb (c_id c) cid) (consumers (db w)) = consumer :: rest ->
  truthy_opt (c_xapi_lrs_endpoint consumer) = true ->
  exists title,
    snd (sendXapiStatement cfg amb cid uid crs data w)
    = mkWorld (db w)
        (outbox w
         ++ [statement_request (the (c_xapi_lrs_endpoint consumer))
               (or_else (c_xapi_lrs_key consumer) [])
               (or_else (c_xapi_lrs_secret consumer) [])
               (buildStatement cfg (stmt_now amb) uid crs title data)]).
Proof.
  intros Ha Hb Hf Ht.
  assert (Hr : resolve_lrs cfg (filter (fun c => jseqb (c_id c) cid)
                                       (consumers (db w)))
               = (the (c_xapi_lrs_endpoint consumer),
                  or_else (c_xapi_lrs_key consumer) [],
                  or_else (c_xapi_lrs_secret consumer) [])).
  { rewrite Hf. unfold resolve_lrs. now rewrite Ht. }
  assert (Hne : truthy (the (c_xapi_lrs_endpoint consumer)) = true).
  { destruct (c_xapi_lrs_endpoint consumer); [exact Ht|discriminate]. }
  pose proof (sendXapiStatement_world amb cid uid crs data w) as H.
  cbv zeta in H. rewrite Hr in H. cbn [fst snd] in H.
  destruct H as [H | (_ & _ & _ & title & H)]; [|now exists title].
  exfalso. revert H.
  unfold sendXapiStatement, select_consumer_lrs, select_course_title, query, bind.
  rewrite Ha. cbv beta iota. cbn [db outbox]. rewrite Hr. cbn [fst snd].
  rewrite Hne. cbn [negb]. rewrite Hb. cbv beta iota. cbn [db outbox].
  unfold do_fetch. cbn [db outbox].
  intros H.
  assert (Ho : outbox w <> outbox w ++
                [mkRequest (lit "POST")
                   (strip_trailing_slash (the (c_xapi_lrs_endpoint consumer))
                    ++ lit "/statements")
                   [(lit "Content-Type", lit "application/json");
                    (lit "Authorization",
                     lit "Basic "
                     ++ base64 (utf8 (or_else (c_xapi_lrs_key consumer) []
                                      ++ lit ":"
                                      ++ or_else (c_xapi_lrs_secret consumer) [])));
                    (lit "X-Experience-API-Version", lit "1.0.3")]
                   (JsonStatement
                      (buildStatement cfg (stmt_now amb) uid crs
                         (or_else
                            match filter (fun c => jseqb (crs_id c) crs)
                                         (courses (db w)) with
                            | [] => None
                            | c :: _ => Some (crs_title c)
                            end (lit "Unknown Course")) data))])
    by apply outbox_unchanged.
  apply Ho.
  destruct (fetch _) as [r|].
  - destruct (negb (resp_ok r)); cbn [snd] in H;
      apply (f_equal outbox) in H; cbn [outbox] in H; now rewrite H at 1.
  - cbn [snd] in H. apply (f_equal outbox) in H. cbn [outbox] in H.
    now rewrite H at 1.
Qed.

(** X11. [sendXapiStatement] raises its [xAPI statement failed] error
    exactly when the LRS answered the statement it posted with a status
    outside the 2xx range. *)
Theorem sendXapiStatement_error (amb : Ambient) (cid uid crs : jsstring)
    (data : XapiStatementData) (w : World) :
  (exists e, fst (sendXapiStatement cfg amb cid uid crs data w) = Throw e
             /\ is_xapi_error e = true)
  <-> exists req r,
        outbox (snd (sendXapiStatement cfg amb cid uid crs data w))
        = outbox w ++ [req]
        /\ fetch req = Some r /\ resp_ok r = false.
Proof.
  assert (Hno : forall e0 : exn, is_xapi_error e0 = false ->
    ((exists e, @Throw unit e0 = Throw e /\ is_xapi_error e = true)
     <-> exists req r, outbox w = outbox w ++ [req]
                       /\ fetch req = Some r /\ resp_ok r = false)).
  { intros e0 H0. split.
    - intros (e & He & Hg). injection He as <-. congruence.
    - intros (req & r & Ho & _). now apply outbox_unchanged in Ho. }
  unfold sendXapiStatement, select_consumer_lrs, select_course_title, query, bind.
  destruct (engine_accepts (SelectConsumerLrs cid)); [|now apply Hno].
  cbv beta iota. cbn [db outbox].
  destruct (truthy (fst (fst (resolve_lrs cfg _)))); cbn [negb].
  2:{ unfold ret. cbn [fst snd outbox]. split.
      - intros (e & He & _). discriminate He.
      - intros (req & r & Ho & _). now apply outbox_unchanged in Ho. }
  destruct (engine_accepts (SelectCourseTitle crs)); [|now apply Hno].
  cbv beta iota. cbn [db outbox]. unfold do_fetch. cbn [db outbox].
  match goal with |- context [fetch ?r] => set (req := r) end.
  destruct (fetch req) as [r|] eqn:Ef.
  - destruct (resp_ok r) eqn:Hok; cbn [negb].
    + unfold ret. cbn [fst snd outbox]. split.
      * intros (e & He & _). discriminate He.
      * intros (req' & r' & Ho & Hf & Hc).
        apply outbox_grows_by_one in Ho. subst req'.
        rewrite Ef in Hf. injection Hf as <-. congruence.
    + unfold throw. cbn [fst snd outbox]. split.
      * intros _. exists req, r. repeat split; auto.
      * intros _. eexists. split; [reflexivity|reflexivity].
  - cbn [fst snd outbox]. split.
    + intros (e & He & Hg). injection He as <-. discriminate Hg.
    + intros (req' & r' & Ho & Hf & _).
      apply outbox_grows_by_one in Ho. subst req'. congruence.
Qed.

End XapiReporter.

Lemma sendXapiStatement_without_lrs_witness :
  sendXapiStatement (mkConfig (lit "https://host") [] [] []) sample_ambient
    (c_id sample_consumer) (lit "u1") (crs_id sample_course)
    (mkData progressed None (Some false) None) sample_world
  = (Ok tt, sample_world).
Proof.
  refine (sendXapiStatement_without_lrs (sv := sample_services) (mkConfig (lit "https://host") [] [] [])
            sample_ambient (c_id sample_consumer) (lit "u1")
            (crs_id sample_course) (mkData progressed None (Some false) None)
            sample_world _ _ _).
  - reflexivity.
  - reflexivity.
  - intros c [<-|[]] _. reflexivity.
Defined.

Lemma sendXapiStatement_consumer_lrs_witness :
  exists title,
    snd (sendXapiStatement sample_config sample_ambient
           (c_id sample_lrs_consumer) (lit "u1") (crs_id sample_course)
           (mkData completed None (Some true) None) sample_lrs_world)
    = mkWorld (db sample_lrs_world)
        (outbox sample_lrs_world
         ++ [statement_request (lit "https://lrs.school.example/xapi/")
               (lit "school") []
               (buildStatement sample_config (stmt_now sample_ambient)
                  (lit "u1") (crs_id sample_course) title
                  (mkData completed None (Some true) None))]).
Proof.
  refine (sendXapiStatement_consumer_lrs (sv := sample_services) sample_config sample_ambient
            (c_id sample_lrs_consumer) (lit "u1") (crs_id sample_course)
            (mkData completed None (Some true) None) sample_lrs_world
            sample_lrs_consumer [] _ _ _ _).
  - reflexivity.
  - reflexivity.
  - vm_compute. reflexivity.
  - reflexivity.
Defined.

(** ** The commit handler and the network *)

Section CommitRequests.
Context {rt : Runtime} {sv : Services}.
Variable cfg : Config.

Lemma try_catch_world (m : M unit) (w : World) :
  snd (try_catch m (fun _ => ret tt) w) = snd (m w).
Proof.
  unfold try_catch, ret. destruct (m w) as [[[]|e] w']; reflexivity.
Qed.

(** X12. The answer of a commit depends on the engine alone: 200 with
    [success: true] when it runs the UPDATE and the SELECT of the launch,
    whatever the outcome service and the LRS answer and even when they
    cannot be reached; 500 otherwise.  A refused UPDATE leaves the store
    and the outbox as they are; a refused SELECT comes after the UPDATE,
    so the 500 answer then follows a row that is already saved. *)
Theorem commit_response (amb : Ambient) (attemptId : jsstring)
    (cmiData : strmap) (w : World) :
  let upd := UpdateAttemptCommit cmiData (spec_score cmiData)
               (spec_completion cmiData) (spec_success cmiData)
               (prop_get cmiData (lit "cmi.core.total_time")) attemptId in
  let out := commit cfg amb attemptId cmiData w in
  fst out
  = (if engine_accepts upd && engine_accepts (SelectLaunchOfAttempt attemptId)
     then SendJson 200 [(lit "success", JBool true)]
     else SendJson 500 [(lit "error", JStr (lit "Failed to save data"))])
  /\ (engine_accepts upd = false -> snd out = w)
  /\ (engine_accepts upd = true ->
      engine_accepts (SelectLaunchOfAttempt attemptId) = false ->
      outbox (snd out) = outbox w
      /\ attempts (db (snd out))
         = map (fun a => if jseqb (a_id a) attemptId
                         then committed cmiData (db_now amb) a else a)
               (attempts (db w))).
Proof.
  cbv zeta. unfold commit, commit_try.
  rewrite commit_score, commit_completion, commit_success.
  unfold bind at 1. unfold update_attempt_commit, query.
  destruct (engine_accepts (UpdateAttemptCommit _ _ _ _ _ _)) eqn:Hupd.
  2:{ cbn [andb fst snd]. repeat split; try discriminate; reflexivity. }
  rewrite (engine_checks_score _ _ _ _ _ _ Hupd).
  cbv beta iota. cbn [db outbox andb].
  unfold bind at 1. unfold select_launch_of_attempt, query.
  destruct (engine_accepts (SelectLaunchOfAttempt attemptId)) eqn:Hsel.
  2:{ cbn [fst snd outbox db attempts].
      repeat split; try discriminate; reflexivity. }
  cbv beta iota. cbn [db outbox].
  split; [|split; discriminate].
  set (s1 := mkStore _ _ _ _).
  destruct (owning_launches s1 attemptId) as [|launch rest].
  { unfold bind, ret. reflexivity. }
  unfold bind at 1. unfold bind at 1.
  match goal with |- context [match ?g (mkWorld s1 (outbox w)) with pair _ _ => _ end] =>
    set (grade := g) end.
  assert (Hg1 : fst (grade (mkWorld s1 (outbox w))) = Ok tt).
  { unfold grade. destruct (normalizedScore_of cmiData); [|reflexivity].
    destruct (_ && _); [apply try_catch_ends | reflexivity]. }
  destruct (grade (mkWorld s1 (outbox w))) as [[[]|e] w2]; [|discriminate Hg1].
  cbv beta iota.
  destruct (is_dispatch (l_launch_data launch)).
  - match goal with |- context [try_catch ?m ?h w2] =>
      pose proof (try_catch_ends m w2) as Hx;
      destruct (try_catch m h w2) as [[[]|e] w3]; [|discriminate Hx]
    end.
    reflexivity.
  - reflexivity.
Qed.

(** The requests of the two reporting steps. *)
Lemma grade_step_requests (amb : Ambient) (cid url sid : jsstring)
    (score : number) (w : World) :
  exists new,
    outbox (snd (sendGradeToLms amb cid url sid score w)) = outbox w ++ new
    /\ (length new <= 1)%nat
    /\ forall req, In req new ->
         req_url req = url /\ exists xml, req_body req = XmlText xml.
Proof.
  destruct (sendGradeToLms_world amb cid url sid score w)
    as [Hw | (consumer & sig & header & _ & _ & _ & _ & Hw)]; rewrite Hw.
  - exists []. rewrite app_nil_r. split; [reflexivity|].
    split; [cbn; lia|]. intros req [].
  - eexists [_]. cbn [outbox]. split; [reflexivity|]. split; [cbn; lia|].
    intros req [<-|[]]. split; [reflexivity|]. eexists. reflexivity.
Qed.

Lemma xapi_step_requests (amb : Ambient) (cid uid crs : jsstring)
    (data : XapiStatementData) (w : World) :
  exists new,
    outbox (snd (sendXapiStatement cfg amb cid uid crs data w)) = outbox w ++ new
    /\ (length new <= 1)%nat
    /\ forall req, In req new -> exists st, req_body req = JsonStatement st.
Proof.
  destruct (sendXapiStatement_world cfg amb cid uid crs data w)
    as [Hw | (_ & _ & _ & title & Hw)]; rewrite Hw.
  - exists []. rewrite app_nil_r. split; [reflexivity|].
    split; [cbn; lia|]. intros req [].
  - eexists [_]. cbn [outbox]. split; [reflexivity|]. split; [cbn; lia|].
    intros req [<-|[]]. eexists. reflexivity.
Qed.

Lemma commit_sends (amb : Ambient) (attemptId : jsstring)
    (cmiData : strmap) (w : World) :
  exists new,
    outbox (snd (commit cfg amb attemptId cmiData w)) = outbox w ++ new
    /\ (length new <= 2)%nat
    /\ forall req, In req new ->
         exists launch,
           hd_error (owning_launches (db w) attemptId) = Some launch
           /\ match req_body req with
              | XmlText _ =>
                  prop_get cmiData (lit "cmi.core.score.raw") <> None
                  /\ truthy_opt (l_lis_outcome_service_url launch) = true
                  /\ truthy_opt (l_lis_result_sourcedid launch) = true
                  /\ l_lis_outcome_service_url launch = Some (req_url req)
              | JsonStatement _ => is_dispatch (l_launch_data launch) = true
              end.
Proof.
  rewrite commit_world. unfold commit_try.
  unfold bind at 1. unfold update_attempt_commit, query.
  destruct (engine_accepts (UpdateAttemptCommit _ _ _ _ _ _)) eqn:Hupd.
  2:{ exists []. cbn [snd]. rewrite app_nil_r. split; [reflexivity|].
      split; [cbn; lia|]. intros req []. }
  rewrite (engine_checks_score _ _ _ _ _ _ Hupd).
  cbv beta iota. cbn [db outbox].
  unfold bind at 1. unfold select_launch_of_attempt, query.
  destruct (engine_accepts (SelectLaunchOfAttempt attemptId)).
  2:{ exists []. cbn [snd outbox]. rewrite app_nil_r. split; [reflexivity|].
      split; [cbn; lia|]. intros req []. }
  cbv beta iota. cbn [db outbox].
  rewrite owning_launches_commit by (intros a; split; reflexivity).
  set (s1 := mkStore _ _ _ _).
  destruct (owning_launches (db w) attemptId) as [|launch rest].
  { exists []. unfold bind, ret. cbn [snd outbox]. rewrite app_nil_r.
    split; [reflexivity|]. split; [cbn; lia|]. intros req []. }
  unfold bind at 1. unfold bind at 1.
  match goal with |- context [match ?g (mkWorld s1 (outbox w)) with pair _ _ => _ end] =>
    set (grade := g) end.
  assert (Hg1 : fst (grade (mkWorld s1 (outbox w))) = Ok tt).
  { unfold grade. destruct (normalizedScore_of cmiData); [|reflexivity].
    destruct (_ && _); [apply try_catch_ends | reflexivity]. }
  assert (Hg2 : exists new1,
             outbox (snd (grade (mkWorld s1 (outbox w)))) = outbox w ++ new1
             /\ (length new1 <= 1)%nat
             /\ forall req, In req new1 ->
                  (exists xml, req_body req = XmlText xml)
                  /\ prop_get cmiData (lit "cmi.core.score.raw") <> None
                  /\ truthy_opt (l_lis_outcome_service_url launch) = true
                  /\ truthy_opt (l_lis_result_sourcedid launch) = true
                  /\ l_lis_outcome_service_url launch = Some (req_url req)).
  { unfold grade.
    assert (Hnone : exists new1 : list HttpRequest,
               outbox (snd (ret tt (mkWorld s1 (outbox w)))) = outbox w ++ new1
               /\ (length new1 <= 1)%nat
               /\ forall req, In req new1 ->
                    (exists xml, req_body req = XmlText xml)
                    /\ prop_get cmiData (lit "cmi.core.score.raw") <> None
                    /\ truthy_opt (l_lis_outcome_service_url launch) = true
                    /\ truthy_opt (l_lis_result_sourcedid launch) = true
                    /\ l_lis_outcome_service_url launch = Some (req_url req)).
    { exists []. cbn [ret snd outbox]. rewrite app_nil_r.
      split; [reflexivity|]. split; [cbn; lia|]. intros req []. }
    destruct (normalizedScore_of cmiData) as [n|] eqn:En; [|exact Hnone].
    destruct (truthy_opt (l_lis_outcome_service_url launch)) eqn:Hu;
      [|exact Hnone].
    destruct (truthy_opt (l_lis_result_sourcedid launch)) eqn:Hs;
      [|exact Hnone].
    cbn [andb]. rewrite try_catch_world.
    destruct (grade_step_requests amb (l_consumer_id launch)
                (the (l_lis_outcome_service_url launch))
                (the (l_lis_result_sourcedid launch)) n
                (mkWorld s1 (outbox w))) as (new1 & Ho & Hl & Hr).
    exists new1. split; [exact Ho|]. split; [exact Hl|].
    intros req Hin. destruct (Hr req Hin) as [Hurl Hxml].
    split; [exact Hxml|]. split.
    - unfold normalizedScore_of in En.
      destruct (prop_get cmiData (lit "cmi.core.score.raw")); congruence.
    - split; [reflexivity|]. split; [reflexivity|].
      rewrite Hurl. destruct (l_lis_outcome_service_url launch);
        [reflexivity|discriminate]. }
  destruct (grade (mkWorld s1 (outbox w))) as [[[]|e] w2]; [|discriminate Hg1].
  cbn [snd] in Hg2. destruct Hg2 as (new1 & Ho1 & Hl1 & Hr1).
  cbv beta iota.
  destruct (is_dispatch (l_launch_data launch)) eqn:Hd.
  - match goal with |- context [try_catch ?m ?h w2] =>
      pose proof (try_catch_ends m w2) as Hx;
      pose proof (try_catch_world m w2) as Hw;
      destruct (try_catch m h w2) as [[[]|e] w3]; [|discriminate Hx]
    end.
    cbn [snd] in Hw. unfold ret. cbn [snd]. rewrite Hw.
    match goal with |- context [sendXapiStatement cfg amb ?c ?u ?k ?d w2] =>
      destruct (xapi_step_requests amb c u k d w2) as (new2 & Ho2 & Hl2 & Hr2)
    end.
    exists (new1 ++ new2). rewrite Ho2, Ho1, app_assoc.
    split; [reflexivity|]. split; [rewrite length_app; lia|].
    intros req Hin. exists launch. split; [reflexivity|].
    apply in_app_or in Hin. destruct Hin as [Hin|Hin].
    + destruct (Hr1 req Hin) as ((xml & Hb) & H). rewrite Hb. exact H.
    + destruct (Hr2 req Hin) as (st & Hb). rewrite Hb. exact Hd.
  - unfold ret. cbn [snd]. exists new1. split; [exact Ho1|].
    split; [lia|]. intros req Hin. exists launch. split; [reflexivity|].
    destruct (Hr1 req Hin) as ((xml & Hb) & H). rewrite Hb. exact H.
Qed.

(** X13. A commit sends at most two requests, after the ones already in
    the outbox.  An XML request goes to the outcome URL of the launch of
    the attempt, and only when the commit carries a raw score and the
    launch has an outcome URL and a result sourcedid; a JSON statement is
    sent only when the launch is a dispatch launch.  So a commit on an
    attempt that no launch owns, a commit without a raw score on an LTI
    launch, and a commit the engine refuses send nothing. *)
Theorem commit_requests (amb : Ambient) (attemptId : jsstring)
    (cmiData : strmap) (w : World) :
  exists new,
    outbox (snd (commit cfg amb attemptId cmiData w)) = outbox w ++ new
    /\ (length new <= 2)%nat
    /\ forall req, In req new ->
         exists launch,
           hd_error (owning_launches (db w) attemptId) = Some launch
           /\ match req_body req with
              | XmlText _ =>
                  prop_get cmiData (lit "cmi.core.score.raw") <> None
                  /\ truthy_opt (l_lis_outcome_service_url launch) = true
                  /\ truthy_opt (l_lis_result_sourcedid launch) = true
                  /\ l_lis_outcome_service_url launch = Some (req_url req)
              | JsonStatement _ => is_dispatch (l_launch_data launch) = true
              end.
Proof. exact (commit_sends amb attemptId cmiData w). Qed.

End CommitRequests.

(** ** Finishing an attempt *)

Section Finish.
Context {rt : Runtime} {sv : Services}.

Lemma open_attempts_finished (s : Store) (id : jsstring) (now : Z)
    (u c : jsstring) (l : list Attempt) :
  filter (fun a => attempt_of s u c a && unfinished a)
    (map (fun a => if jseqb (a_id a) id
                   then mkAttempt (a_id a) (a_launch_id a) (a_cmi_data a)
                          (a_score a) (a_completion_status a)
                          (a_success_status a) (a_total_time a)
                          (a_started_at a) (Some now) (a_updated_at a)
                   else a) l)
  = filter (fun a => negb (jseqb (a_id a) id))
      (filter (fun a => attempt_of s u c a && unfinished a) l).
Proof.
  induction l as [|a l IH]; [reflexivity|].
  cbn [map filter].
  destruct (jseqb (a_id a) id) eqn:E.
  - unfold unfinished at 1. cbn [a_finished_at]. rewrite andb_false_r.
    destruct (attempt_of s u c a && unfinished a); cbn [filter];
      rewrite ?E; cbn [negb]; exact IH.
  - destruct (attempt_of s u c a && unfinished a); cbn [filter];
      rewrite ?E; cbn [negb]; now rewrite IH.
Qed.

(** X14. A finish that the engine runs answers 200, stamps the attempt of
    this identifier with the current time (also when it was finished
    before) and changes nothing else: the consumers, the courses, the
    launches and the outbox are as before, every other attempt is the row
    it was, and the stamped attempt keeps its launch, CMI data, score,
    statuses, total time and its other two times.  The attempt leaves the
    open attempts of its learner and course and every other attempt stays
    in them, so no later launch resumes it. *)
Theorem finish_closes_attempt (amb : Ambient) (attemptId : jsstring) (w : World) :
  engine_accepts (UpdateAttemptFinish attemptId) = true ->
  let out := finish amb attemptId w in
  fst out = SendJson 200 [(lit "success", JBool true)]
  /\ snd out
     = mkWorld
         (mkStore (consumers (db w)) (courses (db w)) (launches (db w))
            (map (fun a =>
                    if jseqb (a_id a) attemptId
                    then mkAttempt (a_id a) (a_launch_id a) (a_cmi_data a)
                           (a_score a) (a_completion_status a)
                           (a_success_status a) (a_total_time a)
                           (a_started_at a) (Some (db_now amb))
                           (a_updated_at a)
                    else a) (attempts (db w))))
         (outbox w)
  /\ length (attempts (db (snd out))) = length (attempts (db w))
  /\ (forall a, In a (attempts (db w)) -> a_id a <> attemptId ->
        In a (attempts (db (snd out))))
  /\ (forall a, In a (attempts (db (snd out))) -> a_id a = attemptId ->
        a_finished_at a = Some (db_now amb))
  /\ (forall u c,
        open_attempts (db (snd out)) u c
        = filter (fun a => negb (jseqb (a_id a) attemptId))
                 (open_attempts (db w) u c))
  /\ (at_most_one_open (db w) -> at_most_one_open (db (snd out))).
Proof.
  intros Hacc. cbv zeta.
  unfold finish, finish_try, bind, update_attempt_finish, query.
  rewrite Hacc. cbv beta iota. cbn [fst snd db outbox launches attempts ret].
  split; [reflexivity|]. split; [reflexivity|].
  split; [apply length_map|].
  split.
  { intros a Hin Hid. apply in_map_iff. exists a. split; [|exact Hin].
    apply jseqb_neq in Hid. now rewrite Hid. }
  split.
  { intros a Hin Hid. apply in_map_iff in Hin. destruct Hin as (a0 & Ha & _).
    destruct (jseqb (a_id a0) attemptId) eqn:E.
    - now subst a.
    - subst a. apply jseqb_neq in E. contradiction. }
  assert (Hopen : forall u c,
    open_attempts
      (mkStore (consumers (db w)) (courses (db w)) (launches (db w))
         (map (fun a => if jseqb (a_id a) attemptId
                   then mkAttempt (a_id a) (a_launch_id a) (a_cmi_data a)
                          (a_score a) (a_completion_status a)
                          (a_success_status a) (a_total_time a)
                          (a_started_at a) (Some (db_now amb)) (a_updated_at a)
                   else a) (attempts (db w)))) u c
    = filter (fun a => negb (jseqb (a_id a) attemptId))
             (open_attempts (db w) u c)).
  { intros u c. unfold open_attempts. cbn [attempts].
    rewrite <- (open_attempts_finished (db w) attemptId (db_now amb) u c).
    apply filter_ext. intros a. reflexivity. }
  split; [exact Hopen|].
  intros H u c. rewrite Hopen.
  pose proof (filter_length_le (fun a => negb (jseqb (a_id a) attemptId))
                (open_attempts (db w) u c)).
  specialize (H u c). lia.
Qed.

End Finish.

Lemma finish_closes_attempt_witness :
  fst (finish sample_ambient (lit "77777777-7777-4777-8777-777777777777")
         sample_world)
  = SendJson 200 [(lit "success", JBool true)]
  /\ open_attempts
       (db (snd (finish sample_ambient
                   (lit "77777777-7777-4777-8777-777777777777") sample_world)))
       (lit "u1") (crs_id sample_course)
     = [].
Proof.
  pose proof (finish_closes_attempt (sv := sample_services) sample_ambient
                (lit "77777777-7777-4777-8777-777777777777") sample_world
                eq_refl) as H.
  cbv zeta in H. destruct H as (H1 & _ & _ & _ & _ & H2 & _).
  split; [exact H1|]. rewrite H2. vm_compute. reflexivity.
Defined.

(** ** The launch path and the resources *)

Section LaunchPath.
Context {rt : Runtime}.

Lemma truthy_opt_Some (o : option jsstring) :
  truthy_opt o = true -> exists h, o = Some h /\ truthy h = true.
Proof. destruct o as [h|]; [eauto|discriminate]. Qed.

Lemma launch_of_items_sound (its : list ItemData)
    (resources : list ResourceData) (h : jsstring) :
  launch_of_items its resources = Some h ->
  truthy h = true /\ exists r, In r resources /\ href r = Some h.
Proof.
  induction its as [|item rest IH]; [discriminate|].
  cbn [launch_of_items].
  destruct (truthy_opt (resourceId item)); [|exact IH].
  destruct (find _ resources) as [resource|] eqn:Ef; [|exact IH].
  destruct (truthy_opt (href resource)) eqn:Et; [|exact IH].
  apply truthy_opt_Some in Et. destruct Et as (h0 & Eh & Ht).
  rewrite Eh. intros H. injection H as <-.
  split; [exact Ht|]. exists resource. split; [|exact Eh].
  apply find_some in Ef. apply Ef.
Qed.

Lemma launch_of_organizations_sound (orgs : list OrganizationData)
    (resources : list ResourceData) (h : jsstring) :
  launch_of_organizations orgs resources = Some h ->
  truthy h = true /\ exists r, In r resources /\ href r = Some h.
Proof.
  induction orgs as [|org rest IH]; [discriminate|].
  cbn [launch_of_organizations].
  destruct (launch_of_items (items org) resources) as [h0|] eqn:E; [|exact IH].
  intros H. injection H as <-. now apply launch_of_items_sound in E.
Qed.

Lemma launch_of_sco_sound (resources : list ResourceData) (h : jsstring) :
  launch_of_sco resources = Some h ->
  truthy h = true /\ exists r, In r resources /\ href r = Some h.
Proof.
  induction resources as [|resource rest IH]; [discriminate|].
  cbn [launch_of_sco].
  destruct (truthy_opt (href resource)) eqn:Et; cbn [andb].
  - destruct (match scormType resource with
              | Some t => jseqb (toLowerCase t) (lit "sco")
              | None => false
              end).
    + apply truthy_opt_Some in Et. destruct Et as (h0 & Eh & Ht).
      rewrite Eh. intros H. injection H as <-.
      split; [exact Ht|]. exists resource. split; [now left|exact Eh].
    + intros H. destruct (IH H) as (H1 & r & Hr & Hh).
      split; [exact H1|]. exists r. split; [now right|exact Hh].
  - intros H. destruct (IH H) as (H1 & r & Hr & Hh).
    split; [exact H1|]. exists r. split; [now right|exact Hh].
Qed.

Lemma findLaunchPath_sound (organizations : list OrganizationData)
    (resources : list ResourceData) :
  truthy (findLaunchPath organizations resources) = true
  /\ ((exists r, In r resources
                 /\ href r = Some (findLaunchPath organizations resources))
      \/ (findLaunchPath organizations resources = lit "index.html"
          /\ forall r, In r resources -> truthy_opt (href r) = false)).
Proof.
  unfold findLaunchPath.
  destruct (launch_of_organizations organizations resources) as [h|] eqn:E1.
  { apply launch_of_organizations_sound in E1. destruct E1 as [H1 H2].
    split; [exact H1|now left]. }
  destruct (launch_of_sco resources) as [h|] eqn:E2.
  { apply launch_of_sco_sound in E2. destruct E2 as [H1 H2].
    split; [exact H1|now left]. }
  destruct (find (fun r => truthy_opt (href r)) resources) as [r|] eqn:E3.
  - apply find_some in E3. destruct E3 as [Hin Ht].
    apply truthy_opt_Some in Ht. destruct Ht as (h & Eh & Ht).
    rewrite Eh. unfold or_else. rewrite Ht.
    split; [exact Ht|]. left. exists r. now split.
  - cbn [or_else]. split; [reflexivity|]. right. split; [reflexivity|].
    intros r Hin. exact (find_none _ _ E3 r Hin).
Qed.

(** X15. The launch path is never empty, and it is the href of a resource
    of the manifest unless it is the default [index.html]; the default is
    returned only when no resource has a non-empty href. *)
Theorem findLaunchPath_from_resources (organizations : list OrganizationData)
    (resources : list ResourceData) :
  let path := findLaunchPath organizations resources in
  truthy path = true
  /\ ((exists r, In r resources /\ href r = Some path)
      \/ (path = lit "index.html"
          /\ forall r, In r resources -> truthy_opt (href r) = false)).
Proof. exact (findLaunchPath_sound organizations resources). Qed.

End LaunchPath.

(** ** The shape of a statement *)

(** The result of a statement is left out exactly when there is
    nothing to report: no score, no success flag, a verb other than
    [completed] and no duration.  When it is there, each member is set by
    its own rule and kept by the later ones: the scaled score is the score
    of the commit, with its rounded percentage between the bounds 0 and
    100; the success flag is the one given; the completion flag is [true]
    for the verb [completed] and absent otherwise, never [false]. *)
Theorem buildStatement_result (cfg : Config)
    (now_iso userId courseId courseTitle : jsstring) (data : XapiStatementData) :
  let st := buildStatement cfg now_iso userId courseId courseTitle data in
  (result_ st = None
   <-> d_score data = None /\ d_success data = None
       /\ d_verb data <> completed /\ truthy_opt (d_duration data) = false)
  /\ (forall r, result_ st = Some r ->
        r_score r = match d_score data with
                    | Some s => Some (mkScore s (Math_round (fmul s (num 100)))
                                              (num 0) (num 100))
                    | None => None
                    end
        /\ r_success r = d_success data
        /\ r_completion r = match d_verb data with
                            | completed => Some true
                            | _ => None
                            end
        /\ r_duration r = if truthy_opt (d_duration data)
                          then d_duration data else None)
  /\ actor_name st = userId
  /\ object_id st = baseUrl cfg ++ lit "/course/" ++ courseId
  /\ verb_id st = lit "http://adlnet.gov/expapi/verbs/" ++ verb_display st.
Proof.
  cbv zeta. destruct data as [v sc su du].
  unfold buildStatement.
  cbn [d_verb d_score d_success d_duration result_ actor_name object_id
       verb_id verb_display VERBS fst snd].
  split; [|split; [|repeat split]].
  - destruct sc, su, v, (truthy_opt du); cbn;
      split; intros H; try discriminate; try (repeat split; congruence);
      try (destruct H as (H1 & H2 & H3 & H4); congruence).
  - intros r. destruct sc, su, v, (truthy_opt du); cbn;
      intros H; try discriminate; injection H as <-; repeat split.
Qed.

(** ** The gate of the LTI launch *)

Section LaunchGate.
Context {rt : Runtime} {sv : Services}.
Variable cfg : Config.

Lemma query_outbox {A} (q : sql) (run : Store -> result (A * Store)) (w : World) :
  outbox (snd (query q run w)) = outbox w.
Proof.
  unfold query. destruct (engine_accepts q); [|reflexivity].
  destruct (run (db w)) as [[a s]|e]; reflexivity.
Qed.

Lemma establishAttempt_outbox (amb : Ambient) (launchData : strmap)
    (consumer : Consumer) (u c : jsstring) (w : World) :
  outbox (snd (establishAttempt cfg amb launchData consumer u c w)) = outbox w.
Proof.
  unfold establishAttempt, bind.
  pose proof (query_outbox (InsertLaunch (launch_row amb launchData consumer u c))
    (fun s =>
       if existsb (fun l => jseqb (l_id l)
                    (l_id (launch_row amb launchData consumer u c))) (launches s)
       then Throw (Error (lit "duplicate key in launches"))
       else if negb (existsb (fun c0 => jseqb (c_id c0)
                       (l_consumer_id (launch_row amb launchData consumer u c)))
                       (consumers s))
               || negb (existsb (fun c0 => jseqb (crs_id c0)
                          (l_course_id (launch_row amb launchData consumer u c)))
                          (courses s))
       then Throw (Error (lit "foreign key violation in launches"))
       else Ok (tt, with_launch s (launch_row amb launchData consumer u c))) w) as H1.
  unfold insert_launch.
  destruct (query _ _ w) as [[[]|e] w1]; cbn [snd] in *; [|exact H1].
  unfold select_open_attempt.
  pose proof (query_outbox (SelectOpenAttempt u c)
    (fun s => Ok (latest (open_attempts s u c), s)) w1) as H2.
  destruct (query _ _ w1) as [[existing|e] w2]; cbn [snd] in *; [|congruence].
  destruct existing as [a|].
  - unfold ret. cbn [snd]. congruence.
  - unfold insert_attempt.
    match goal with |- context [query ?q ?r w2] =>
      pose proof (query_outbox q r w2) as H3;
      destruct (query q r w2) as [[[]|e] w3]
    end; cbn [snd] in *; unfold ret; cbn [snd]; congruence.
Qed.

(** The launch handler either stops before the store is touched, with an
    answer that is no redirect, or it has verified the launch and goes on
    to establish the attempt. *)
Lemma ltiLaunch_try_cases (amb : Ambient) (launchData : strmap) (w : World) :
  (exists r, ltiLaunch_try cfg amb launchData w = (r, w)
             /\ forall loc, r <> Ok (Redirect loc))
  \/ exists consumer u courseId,
       In consumer (consumers (db w)) /\ c_active consumer = true
       /\ prop_get launchData (lit "oauth_consumer_key")
          = Some (c_lti_consumer_key consumer)
       /\ validateLtiLaunch launchData (c_lti_consumer_secret consumer)
            (baseUrl cfg ++ lit "/lti/launch") = Ok true
       /\ ltiLaunch_try cfg amb launchData w
          = establishAttempt cfg amb launchData consumer u courseId w.
Proof.
  remember (ltiLaunch_try cfg amb launchData w) as X eqn:EX.
  assert (Hstop : forall r : result response,
             X = (r, w) -> (forall loc, r <> Ok (Redirect loc)) ->
             (exists r, X = (r, w) /\ forall loc, r <> Ok (Redirect loc))
             \/ exists consumer u courseId,
                  In consumer (consumers (db w)) /\ c_active consumer = true
                  /\ prop_get launchData (lit "oauth_consumer_key")
                     = Some (c_lti_consumer_key consumer)
                  /\ validateLtiLaunch launchData (c_lti_consumer_secret consumer)
                       (baseUrl cfg ++ lit "/lti/launch") = Ok true
                  /\ X = establishAttempt cfg amb launchData consumer u courseId w).
  { intros r H1 H2. left. exists r. now split. }
  unfold ltiLaunch_try in EX.
  destruct (truthy_opt (prop_get launchData (lit "oauth_consumer_key"))) eqn:Ek;
    cbn [negb] in EX.
  2:{ apply (Hstop _ EX). intros loc H. discriminate H. }
  unfold bind at 1 in EX. unfold select_consumer_by_key, query in EX.
  destruct (engine_accepts _).
  2:{ apply (Hstop _ EX). intros loc H. discriminate H. }
  cbv beta iota in EX. rewrite world_eta in EX.
  destruct (filter _ (consumers (db w))) as [|consumer rest] eqn:Ef.
  { apply (Hstop _ EX). intros loc H. discriminate H. }
  assert (Hc : In consumer (consumers (db w)) /\ c_active consumer = true
               /\ prop_get launchData (lit "oauth_consumer_key")
                  = Some (c_lti_consumer_key consumer)).
  { assert (H : In consumer (filter (fun c =>
                   jseqb (c_lti_consumer_key c)
                     (the (prop_get launchData (lit "oauth_consumer_key")))
                   && c_active c) (consumers (db w)))).
    { rewrite Ef. now left. }
    apply filter_In in H. destruct H as [H1 H2].
    apply andb_true_iff in H2. destruct H2 as [H2 H3].
    apply jseqb_eq in H2.
    split; [exact H1|]. split; [exact H3|].
    destruct (prop_get launchData (lit "oauth_consumer_key")) as [k|];
      [|discriminate]. cbn [the] in H2. now subst k. }
  unfold bind at 1 in EX. unfold lift in EX.
  destruct (validateLtiLaunch _ _ _) as [isValid|e] eqn:Ev.
  2:{ apply (Hstop _ EX). intros loc H. discriminate H. }
  destruct isValid; cbn [negb] in EX.
  2:{ apply (Hstop _ EX). intros loc H. discriminate H. }
  destruct (truthy_opt (prop_get launchData (lit "custom_course_id"))).
  { unfold bind at 1 in EX. unfold ret at 1 in EX.
    right. exists consumer. eexists. eexists.
    split; [apply Hc|]. split; [apply Hc|]. split; [apply Hc|].
    split; [exact Ev|]. exact EX. }
  unfold bind at 1 in EX. unfold bind at 1 in EX.
  unfold select_any_active_course, query in EX.
  destruct (engine_accepts SelectAnyActiveCourse).
  2:{ apply (Hstop _ EX). intros loc H. discriminate H. }
  cbv beta iota in EX. rewrite world_eta in EX.
  destruct (firstn 1 (filter crs_active (courses (db w)))) as [|crs l].
  { unfold ret in EX. apply (Hstop _ EX). intros loc H. discriminate H. }
  unfold ret at 1 in EX. right. exists consumer. eexists. eexists.
  split; [apply Hc|]. split; [apply Hc|]. split; [apply Hc|].
  split; [exact Ev|]. exact EX.
Qed.

(** X16. The launch endpoint gives nothing to a launch it has not
    verified.  It never sends a request; and when it answers with a
    redirect to the player, or leaves the store changed, the launch names
    the key of an active consumer of the store and carries a signature
    that is valid for the secret of that consumer and the launch URL of
    the service. *)
Theorem ltiLaunch_only_verified (amb : Ambient) (launchData : strmap) (w : World) :
  let out := ltiLaunch cfg amb launchData w in
  outbox (snd out) = outbox w
  /\ ((db (snd out) <> db w \/ exists loc, fst out = Redirect loc) ->
      exists consumer,
        In consumer (consumers (db w)) /\ c_active consumer = true
        /\ prop_get launchData (lit "oauth_consumer_key")
           = Some (c_lti_consumer_key consumer)
        /\ validateLtiLaunch launchData (c_lti_consumer_secret consumer)
             (baseUrl cfg ++ lit "/lti/launch") = Ok true).
Proof.
  cbv zeta. unfold ltiLaunch.
  destruct (ltiLaunch_try_cases amb launchData w)
    as [(r & Hr & Hn) | (consumer & u & c & H1 & H2 & H3 & H4 & Hr)];
    rewrite Hr.
  - destruct r as [resp|e]; cbn [fst snd].
    + split; [reflexivity|]. intros [H|[loc H]]; [congruence|].
      subst resp. now destruct (Hn loc).
    + split; [reflexivity|]. intros [H|[loc H]]; [congruence|discriminate].
  - split.
    + pose proof (establishAttempt_outbox amb launchData consumer u c w) as Ho.
      destruct (establishAttempt cfg amb launchData consumer u c w)
        as [[resp|e] w']; exact Ho.
    + intros _. exists consumer. repeat split; assumption.
Qed.

(** X17. The refusals of the launch endpoint, each with the store and the
    outbox untouched: 400 for a launch without a consumer key, 401 for a
    key that no active consumer has, 401 for a signature that is missing
    or does not verify, 500 when the verification throws, and 404 for a
    verified launch that names no course while no course is active. *)
Theorem ltiLaunch_refusals (amb : Ambient) (launchData : strmap) (w : World) :
  let key := prop_get launchData (lit "oauth_consumer_key") in
  (truthy_opt key = false ->
   ltiLaunch cfg amb launchData w
   = (Send 400 (lit "Missing oauth_consumer_key"), w))
  /\ (truthy_opt key = true ->
      engine_accepts (SelectConsumerByKey (the key)) = true ->
      match filter (fun c => jseqb (c_lti_consumer_key c) (the key) && c_active c)
                   (consumers (db w)) with
      | [] => ltiLaunch cfg amb launchData w
              = (Send 401 (lit "Unknown consumer"), w)
      | consumer :: _ =>
          match validateLtiLaunch launchData (c_lti_consumer_secret consumer)
                  (baseUrl cfg ++ lit "/lti/launch") with
          | Ok false => ltiLaunch cfg amb launchData w
                        = (Send 401 (lit "Invalid OAuth signature"), w)
          | Throw _ => ltiLaunch cfg amb launchData w
                       = (Send 500 (lit "Launch failed"), w)
          | Ok true =>
              truthy_opt (prop_get launchData (lit "custom_course_id")) = false ->
              engine_accepts SelectAnyActiveCourse = true ->
              filter crs_active (courses (db w)) = [] ->
              ltiLaunch cfg amb launchData w
              = (Send 404 (lit "No courses available"), w)
          end
      end).
Proof.
  cbv zeta.
  remember (ltiLaunch cfg amb launchData w) as X eqn:EX.
  unfold ltiLaunch, ltiLaunch_try in EX. split.
  - intros Hk. rewrite Hk in EX. exact EX.
  - intros Hk Ha. rewrite Hk in EX. cbn [negb] in EX.
    unfold bind at 1 in EX. unfold select_consumer_by_key, query in EX.
    rewrite Ha in EX. cbv beta iota in EX. rewrite world_eta in EX.
    destruct (filter _ (consumers (db w))) as [|consumer rest]; [exact EX|].
    unfold bind at 1 in EX. unfold lift in EX.
    destruct (validateLtiLaunch _ _ _) as [[|]|e]; try exact EX.
    intros Hc Hacc Hnone. cbn [negb] in EX. rewrite Hc in EX.
    unfold bind at 1 in EX. unfold bind at 1 in EX.
    unfold select_any_active_course, query in EX. rewrite Hacc in EX.
    cbv beta iota in EX. rewrite Hnone, world_eta in EX. exact EX.
Qed.

End LaunchGate.

(** ** The manifest reader *)

Lemma is_prefix_before (sep : Z) (p x y : jsstring) :
  ~ In sep p -> is_prefix p (x ++ sep :: y) = is_prefix p x.
Proof.
  revert x. induction p as [|a p IH]; intros x Hp; [destruct x; reflexivity|].
  destruct x as [|c x]; cbn [app is_prefix].
  - replace (a =? sep) with false; [reflexivity|].
    symmetry. apply Z.eqb_neq. intros ->. apply Hp. now left.
  - rewrite IH; [reflexivity|]. intros H. apply Hp. now right.
Qed.

Lemma includes_unfold (s p : jsstring) :
  includes s p
  = is_prefix p s || match s with [] => false | _ :: s' => includes s' p end.
Proof. destruct s; reflexivity. Qed.

Lemma includes_across (sep : Z) (p x y : jsstring) :
  ~ In sep p -> p <> [] ->
  includes (x ++ sep :: y) p = includes x p || includes y p.
Proof.
  intros Hp Hne. induction x as [|c x IH].
  - cbn [app]. rewrite (includes_unfold (sep :: y)), (includes_unfold []).
    pose proof (is_prefix_before sep p [] y Hp) as H0. cbn [app] in H0.
    rewrite H0. destruct p; [congruence|]. reflexivity.
  - change ((c :: x) ++ sep :: y) with (c :: (x ++ sep :: y)).
    rewrite (includes_unfold (c :: _)), (includes_unfold (c :: x)).
    change (c :: x ++ sep :: y) with ((c :: x) ++ sep :: y).
    rewrite (is_prefix_before sep p (c :: x) y Hp), IH.
    now rewrite orb_assoc.
Qed.

Lemma includes_join (sep : Z) (p : jsstring) (l : list jsstring) :
  ~ In sep p -> p <> [] ->
  includes (join [sep] l) p = existsb (fun v => includes v p) l.
Proof.
  intros Hp Hne. induction l as [|x l IH].
  - cbn [join existsb]. destruct p; [congruence|reflexivity].
  - destruct l as [|y l].
    + cbn [join existsb]. now rewrite orb_false_r.
    + rewrite join_cons. cbn [existsb] in *.
      change (x ++ [sep] ++ join [sep] (y :: l))
        with (x ++ sep :: join [sep] (y :: l)).
      rewrite includes_across by assumption. now rewrite IH.
Qed.

Lemma existsb_either {A} (f g : A -> bool) (l : list A) :
  existsb f l || existsb g l = existsb (fun x => f x || g x) l.
Proof.
  induction l as [|x l IH]; [reflexivity|]. cbn [existsb]. rewrite <- IH.
  destruct (f x), (g x), (existsb f l), (existsb g l); reflexivity.
Qed.

(** X18. The version of a manifest is [2004] exactly when one of the
    attribute values of its root element contains [adlcp_v1p3] or [2004];
    it is [1.2] otherwise, also for a root without attributes.  The values
    are searched one by one: a match never spans two of them. *)
Theorem detectScormVersion_2004 (manifest : xml) :
  (detectScormVersion manifest = lit "2004"
   <-> exists attrs v,
         xml_attrs manifest = Some attrs /\ In v (map snd attrs)
         /\ (includes v (lit "adlcp_v1p3") = true
             \/ includes v (lit "2004") = true))
  /\ (detectScormVersion manifest = lit "2004"
      \/ detectScormVersion manifest = lit "1.2").
Proof.
  unfold detectScormVersion.
  destruct (xml_attrs manifest) as [attrs|].
  2:{ split; [|now right]. split; [discriminate|].
      intros (a & v & H & _). discriminate. }
  cbv zeta.
  change (lit " ") with [32].
  rewrite !includes_join;
    try discriminate; try (vm_compute; intuition discriminate).
  rewrite existsb_either.
  destruct (existsb _ (map snd attrs)) eqn:E.
  - split; [|now left]. split; [|reflexivity]. intros _.
    apply existsb_exists in E. destruct E as (v & Hin & Hv).
    apply orb_true_iff in Hv. exists attrs, v. auto.
  - split; [|now right]. split; [discriminate|].
    intros (a & v & Ha & Hin & Hv). injection Ha as <-.
    assert (existsb (fun v => includes v (lit "adlcp_v1p3")
                              || includes v (lit "2004")) (map snd attrs) = true).
    { apply existsb_exists. exists v. split; [exact Hin|].
      now apply orb_true_iff. }
    congruence.
Qed.

Lemma or_else_truthy (o : option jsstring) (d : jsstring) :
  truthy d = true -> truthy (or_else o d) = true.
Proof.
  intros Hd. unfold or_else. destruct o as [s|]; [|exact Hd].
  destruct (truthy s) eqn:E; [exact E|exact Hd].
Qed.

Lemma extractItems_identifiers (its : option (list xml)) :
  Forall (fun i => truthy (item_identifier i) = true) (extractItems its).
Proof.
  destruct its as [l|]; [|constructor]. cbn [extractItems].
  apply Forall_map, Forall_forall. intros i _. cbn [item_identifier].
  now apply or_else_truthy.
Qed.

Lemma extractOrganizations_identifiers (manifest : xml) :
  Forall (fun o => truthy (org_identifier o) = true
                   /\ Forall (fun i => truthy (item_identifier i) = true)
                             (items o))
         (extractOrganizations manifest).
Proof.
  unfold extractOrganizations.
  destruct (xml_first manifest (lit "organizations")) as [w|]; [|constructor].
  destruct (negb (xml_truthy w)); [constructor|].
  destruct (xml_children w (lit "organization")) as [orgs|]; [|constructor].
  apply Forall_map, Forall_forall. intros o _. cbn [org_identifier items].
  split; [now apply or_else_truthy|apply extractItems_identifiers].
Qed.

Lemma extractResources_identifiers (manifest : xml) :
  Forall (fun r => truthy (res_identifier r) = true
                   /\ truthy (res_type r) = true)
         (extractResources manifest).
Proof.
  unfold extractResources.
  destruct (xml_first manifest (lit "resources")) as [w|]; [|constructor].
  destruct (negb (xml_truthy w)); [constructor|].
  destruct (xml_children w (lit "resource")) as [rs|]; [|constructor].
  apply Forall_map, Forall_forall. intros r _. cbn [res_identifier res_type].
  split; now apply or_else_truthy.
Qed.

(** X19. [parseManifest] has a descriptor for every document with a root
    element and throws for a document without one (a root that xml2js
    gives as an empty string counts as missing).  In the descriptor no
    identifier is empty (a missing one reads [unknown]) and no resource
    type is (a missing one reads [webcontent]); the version is [1.2] or
    [2004]; the launch path is not empty and is the href of one of the
    listed resources unless it is the default [index.html]. *)
Theorem parseManifest_descriptor {rt : Runtime} (root : option xml) :
  ((exists md, parseManifest root = Ok md)
   <-> exists manifest, root = Some manifest /\ xml_truthy manifest = true)
  /\ ((forall md, parseManifest root <> Ok md) ->
      parseManifest root
      = Throw (Error (lit "Invalid manifest: missing manifest root element")))
  /\ forall md, parseManifest root = Ok md ->
       truthy (md_identifier md) = true
       /\ (md_scormVersion md = lit "1.2" \/ md_scormVersion md = lit "2004")
       /\ truthy (md_launchPath md) = true
       /\ (md_launchPath md = lit "index.html"
           \/ exists r, In r (md_resources md)
                        /\ href r = Some (md_launchPath md))
       /\ Forall (fun r => truthy (res_identifier r) = true
                           /\ truthy (res_type r) = true) (md_resources md)
       /\ Forall (fun o => truthy (org_identifier o) = true
                           /\ Forall (fun i => truthy (item_identifier i) = true)
                                     (items o)) (md_organizations md).
Proof.
  unfold parseManifest. destruct root as [manifest|].
  2:{ split; [split; [intros [md H]; discriminate
                     | intros (m & H & _); discriminate]|].
      split; [reflexivity|]. intros md H. discriminate. }
  destruct (xml_truthy manifest) eqn:Et; cbn [negb].
  2:{ split; [split; [intros [md H]; discriminate
                     | intros (m & H & Hm); injection H as <-; congruence]|].
      split; [reflexivity|]. intros md H. discriminate. }
  cbv zeta. split; [split; eauto|].
  split; [intros H; now destruct (H _ eq_refl)|].
  intros md H. injection H as <-.
  cbn [md_identifier md_scormVersion md_launchPath md_resources md_organizations].
  split; [now apply or_else_truthy|].
  split.
  { unfold detectScormVersion. destruct (xml_attrs manifest); [|now left].
    cbv zeta. destruct (_ || _); [now right|now left]. }
  destruct (findLaunchPath_sound (extractOrganizations manifest)
              (extractResources manifest)) as [Hp Hr].
  split; [exact Hp|].
  split; [destruct Hr as [Hr|[Hr _]]; [now right|now left]|].
  split; [apply extractResources_identifiers
         |apply extractOrganizations_identifiers].
Qed.

Example parseManifest_sample :
  parseManifest (rt := sample_runtime) (Some sample_manifest)
  = Ok (mkManifest (lit "Safety") (lit "2004") (lit "lesson1/index.html")
          (lit "course-1")
          [mkOrg (lit "org_1") (lit "Safety")
             [mkItem (lit "item_1") (lit "Lesson 1") (Some (lit "res_1"))]]
          [mkRes (lit "assets") (lit "webcontent")
             (Some (lit "shared/style.css")) None;
           mkRes (lit "res_1") (lit "webcontent")
             (Some (lit "lesson1/index.html")) (Some (lit "sco"))]).
Proof. vm_compute. reflexivity. Qed.

(** ** The admin session *)

Lemma same_string_eq (a : option jsstring) (b : jsstring) :
  same_string a b = true <-> a = Some b.
Proof.
  destruct a as [s|]; cbn [same_string].
  - rewrite jseqb_eq. split; [now intros ->|now intros [= ->]].
  - split; discriminate.
Qed.

(** X20. The life of an admin session.  A login marks the session as
    authenticated exactly when the submitted name and password are the
    configured ones, and a failed login leaves the session as it was.  So
    after a login the gate lets the next request of that session through
    exactly when the credentials were right or the session had already
    logged in; after a logout it lets none through; and an unauthenticated
    request is answered 401 when it is an API or XHR request or accepts no
    HTML, and sent to the login page otherwise. *)
Theorem admin_session_lifecycle (admin : AdminCredentials)
    (req next : AdminRequest) (resp : response) (s' : option Session) :
  handleLogin admin req = Some (resp, s') ->
  let ok := same_string (rq_body_username req) (admin_username admin)
            && same_string (rq_body_password req) (admin_password admin) in
  (ok = true <-> rq_body_username req = Some (admin_username admin)
                 /\ rq_body_password req = Some (admin_password admin))
  /\ (ok = true ->
      s' = Some (mkSession (Some true) (Some (admin_username admin))))
  /\ (ok = false -> s' = rq_session req)
  /\ (requireAuth (with_session next s') = Next
      <-> ok = true \/ session_authenticated (rq_session req) = true)
  /\ (forall resp2 s2 later,
        handleLogout (with_session next s') = Some (resp2, s2) ->
        requireAuth (with_session later s2)
        = if is_prefix (lit "/api/") (rq_path later) || rq_xhr later
             || negb (rq_accepts_html later)
          then Answer (SendJson 401
                         [(lit "error", JStr (lit "Authentication required"))])
          else Answer (Redirect (lit "/admin/login"))).
Proof.
  intros H. cbv zeta.
  split.
  { rewrite andb_true_iff, !same_string_eq. reflexivity. }
  unfold handleLogin in H.
  destruct (same_string (rq_body_username req) (admin_username admin)
            && same_string (rq_body_password req) (admin_password admin)) eqn:Eok.
  - assert (Hu : rq_body_username req = Some (admin_username admin)).
    { apply andb_true_iff in Eok. now apply same_string_eq. }
    destruct (rq_session req) as [s|]; [|discriminate].
    assert (Hs : s' = Some (mkSession (Some true) (Some (admin_username admin)))).
    { destruct (_ && _) in H; injection H as _ <-; now rewrite Hu. }
    subst s'.
    split; [reflexivity|]. split; [discriminate|].
    split.
    + unfold requireAuth. cbn. split; auto.
    + intros resp2 s2 later Hl. unfold handleLogout in Hl.
      cbn [with_session rq_session rq_accepts_json rq_accepts_html] in Hl.
      destruct (_ && _) in Hl; injection Hl as _ <-; reflexivity.
  - assert (Hs : s' = rq_session req).
    { destruct (_ && _) in H; now injection H as _ <-. }
    subst s'.
    split; [discriminate|]. split; [reflexivity|].
    split.
    + unfold requireAuth. cbn [with_session rq_session].
      destruct (session_authenticated (rq_session req)).
      * split; auto.
      * split.
        -- destruct (_ || _); discriminate.
        -- intros [?|?]; discriminate.
    + intros resp2 s2 later Hl. unfold handleLogout in Hl.
      cbn [with_session rq_session rq_accepts_json rq_accepts_html] in Hl.
      destruct (rq_session req); [|discriminate].
      destruct (_ && _) in Hl; injection Hl as _ <-; reflexivity.
Qed.

Lemma admin_session_lifecycle_witness :
  requireAuth
    (with_session sample_admin_request
       (Some (mkSession (Some true) (Some (lit "admin"))))) = Next.
Proof.
  pose proof (admin_session_lifecycle (mkAdmin (lit "admin") (lit "admin123"))
                (mkAdminRequest (Some (mkSession None None)) (lit "/login")
                   false true false (Some (lit "admin"))
                   (Some (lit "admin123")) None)
                sample_admin_request (Redirect (lit "/admin"))
                (Some (mkSession (Some true) (Some (lit "admin"))))
                eq_refl) as H.
  cbv zeta in H. destruct H as (_ & _ & _ & H & _).
  apply H. left. reflexivity.
Defined.

(** ** The runtime configuration *)

(** X21. An update of the runtime configuration never empties the base
    URL: an empty or missing [baseUrl] is ignored, so a base URL that is
    set stays set.  The three xAPI settings are taken as they come, the
    empty text included, so an update can switch the global LRS off.
    Applying an update twice is applying it once. *)
Theorem updateRuntimeConfig_keeps_baseUrl (updates : RuntimeUpdates) (c : Config) :
  truthy (baseUrl c) = true ->
  truthy (baseUrl (updateRuntimeConfig updates c)) = true
  /\ (truthy_opt (upd_baseUrl updates) = false ->
      baseUrl (updateRuntimeConfig updates c) = baseUrl c)
  /\ (forall v, upd_baseUrl updates = Some v -> truthy v = true ->
      baseUrl (updateRuntimeConfig updates c) = v)
  /\ (forall v, upd_xapiEndpoint updates = Some v ->
      xapi_endpoint (updateRuntimeConfig updates c) = v)
  /\ (upd_xapiEndpoint updates = None ->
      xapi_endpoint (updateRuntimeConfig updates c) = xapi_endpoint c)
  /\ updateRuntimeConfig updates (updateRuntimeConfig updates c)
     = updateRuntimeConfig updates c.
Proof.
  intros Hb. unfold updateRuntimeConfig. cbn [baseUrl xapi_endpoint xapi_key xapi_secret].
  split.
  { destruct (upd_baseUrl updates) as [v|]; cbn [truthy_opt the]; [|exact Hb].
    destruct (truthy v) eqn:E; [exact E|exact Hb]. }
  split; [intros ->; reflexivity|].
  split; [intros v -> Hv; cbn [truthy_opt the]; now rewrite Hv|].
  split; [intros v ->; reflexivity|].
  split; [intros ->; reflexivity|].
  destruct (truthy_opt (upd_baseUrl updates)), (upd_xapiEndpoint updates),
    (upd_xapiKey updates), (upd_xapiSecret updates); reflexivity.
Qed.

Lemma updateRuntimeConfig_keeps_baseUrl_witness :
  truthy (baseUrl (updateRuntimeConfig (mkUpdates (Some []) (Some []) None None)
                     sample_config)) = true.
Proof.
  exact (proj1 (updateRuntimeConfig_keeps_baseUrl
                  (mkUpdates (Some []) (Some []) None None) sample_config
                  eq_refl)).
Defined.

(** ** The dispatch launch *)

Lemma site_eta (st : Site) :
  mkSite (world st) (dispatch_tokens st) (settings st) (config st) = st.
Proof. destruct st; reflexivity. Qed.

Section DispatchLaunch.
Context {rt : Runtime} {sv : Services} {en : Engine}.

(** X22. A dispatch launch with a token that no active row holds is
    answered 404, and so is one whose token names a course that is not
    active; neither writes anything. *)
Theorem dispatchLaunch_refusals (amb : Ambient) (uuid_user token : jsstring)
    (qs : strmap) (st : Site) :
  engine_runs (SelectDispatchToken token) = true ->
  match filter (fun dt => jseqb (dt_token dt) token && dt_active dt)
               (dispatch_tokens st) with
  | [] => dispatchLaunch amb uuid_user token qs st
          = (Send 404 (lit "Invalid or expired dispatch token"), st)
  | dispatchToken :: _ =>
      engine_runs (SelectCourseLaunchPath (dt_course_id dispatchToken)) = true ->
      (forall c, In c (courses (db (world st))) ->
                 jseqb (crs_id c) (dt_course_id dispatchToken) && crs_active c
                 = false) ->
      dispatchLaunch amb uuid_user token qs st
      = (Send 404 (lit "Course not found"), st)
  end.
Proof.
  intros Ht.
  remember (dispatchLaunch amb uuid_user token qs st) as X eqn:EX.
  unfold dispatchLaunch, dispatchLaunch_try in EX.
  unfold sbind at 1 in EX. unfold select_dispatch_token, site_query in EX.
  rewrite Ht in EX. cbv beta iota in EX.
  destruct (filter _ (dispatch_tokens st)) as [|dt rest]; [exact EX|].
  intros Hc Hnone.
  unfold sbind at 1 in EX. unfold select_course_launch_path, site_query in EX.
  rewrite Hc in EX. cbv beta iota in EX.
  rewrite filter_unmatched in EX by exact Hnone. exact EX.
Qed.

(** What a dispatch launch does when every step goes through. *)
Lemma dispatchLaunch_runs (amb : Ambient) (uuid_user token : jsstring)
    (qs : strmap) (st : Site) (dispatchToken : DispatchToken)
    (rest : list DispatchToken) (course : Course) (others : list Course) :
  let row := dispatch_row amb uuid_user token qs dispatchToken in
  engine_runs (SelectDispatchToken token) = true ->
  filter (fun dt => jseqb (dt_token dt) token && dt_active dt)
         (dispatch_tokens st) = dispatchToken :: rest ->
  engine_runs (SelectCourseLaunchPath (dt_course_id dispatchToken)) = true ->
  filter (fun c => jseqb (crs_id c) (dt_course_id dispatchToken) && crs_active c)
         (courses (db (world st))) = course :: others ->
  existsb (fun c => jseqb (c_id c) (dt_consumer_id dispatchToken))
          (consumers (db (world st))) = true ->
  engine_accepts (InsertLaunch row) = true ->
  fresh_launch (db (world st)) (uuid_launch amb) = true ->
  engine_accepts (InsertAttempt (uuid_attempt amb) (uuid_launch amb)) = true ->
  existsb (fun a => jseqb (a_id a) (uuid_attempt amb))
          (attempts (db (world st))) = false ->
  dispatchLaunch amb uuid_user token qs st
  = (Redirect (baseUrl (config st) ++ lit "/static/player.html?attemptId="
               ++ uuid_attempt amb ++ lit "&courseId="
               ++ dt_course_id dispatchToken ++ lit "&mode=dispatch"),
     mkSite
       (mkWorld
          (with_attempt (with_launch (db (world st)) row)
             (new_attempt (uuid_attempt amb) (uuid_launch amb) (db_now amb)))
          (outbox (world st)))
       (dispatch_tokens st) (settings st) (config st)).
Proof.
  cbv zeta. intros Ht Hf Hc Hcf Hcons Hil Hfresh Hia Hnew.
  assert (Hcourse : existsb (fun c => jseqb (crs_id c) (dt_course_id dispatchToken))
                            (courses (db (world st))) = true).
  { assert (H : In course (filter (fun c =>
                   jseqb (crs_id c) (dt_course_id dispatchToken) && crs_active c)
                   (courses (db (world st))))) by (rewrite Hcf; now left).
    apply filter_In in H. destruct H as [H1 H2].
    apply andb_true_iff in H2. apply existsb_exists. exists course.
    split; [exact H1|apply H2]. }
  unfold dispatchLaunch, dispatchLaunch_try.
  unfold sbind at 1. unfold select_dispatch_token, site_query.
  rewrite Ht. cbv beta iota. rewrite Hf.
  unfold sbind at 1. unfold select_course_launch_path, site_query.
  rewrite Hc. cbv beta iota. rewrite Hcf.
  unfold sbind at 1. unfold in_world at 1. unfold insert_launch, query.
  fold (dispatch_row amb uuid_user token qs dispatchToken).
  rewrite Hil. cbv beta iota.
  unfold fresh_launch in Hfresh. apply negb_true_iff in Hfresh.
  change (l_id (dispatch_row amb uuid_user token qs dispatchToken))
    with (uuid_launch amb).
  rewrite Hfresh.
  change (l_consumer_id (dispatch_row amb uuid_user token qs dispatchToken))
    with (dt_consumer_id dispatchToken).
  change (l_course_id (dispatch_row amb uuid_user token qs dispatchToken))
    with (dt_course_id dispatchToken).
  rewrite Hcons, Hcourse. cbn [negb orb].
  unfold sbind at 1. unfold in_world at 1. unfold insert_attempt, query.
  cbn [world db outbox dispatch_tokens settings config].
  rewrite Hia. cbv beta iota. cbn [with_launch attempts launches].
  rewrite Hnew.
  rewrite existsb_app_last. cbn [l_id dispatch_row]. rewrite jseqb_refl, orb_true_r.
  cbn [negb]. unfold sbind, read_config, sret.
  cbn [world db outbox dispatch_tokens settings config].
  reflexivity.
Qed.

(** X23. A dispatch launch whose token is active, for a course that is
    active, writes one launch record and one new attempt for it and
    redirects to the player in dispatch mode with that attempt.  It never
    resumes: the attempt is new even when the learner has an open one.
    The record has no outcome service and its payload is dispatch-typed,
    and every attempt still belongs to a launch of the store. *)
Theorem dispatchLaunch_creates (amb : Ambient) (uuid_user token : jsstring)
    (qs : strmap) (st : Site) (dispatchToken : DispatchToken)
    (rest : list DispatchToken) (course : Course) (others : list Course) :
  let row := dispatch_row amb uuid_user token qs dispatchToken in
  let out := dispatchLaunch amb uuid_user token qs st in
  engine_runs (SelectDispatchToken token) = true ->
  filter (fun dt => jseqb (dt_token dt) token && dt_active dt)
         (dispatch_tokens st) = dispatchToken :: rest ->
  engine_runs (SelectCourseLaunchPath (dt_course_id dispatchToken)) = true ->
  filter (fun c => jseqb (crs_id c) (dt_course_id dispatchToken) && crs_active c)
         (courses (db (world st))) = course :: others ->
  existsb (fun c => jseqb (c_id c) (dt_consumer_id dispatchToken))
          (consumers (db (world st))) = true ->
  engine_accepts (InsertLaunch row) = true ->
  fresh_launch (db (world st)) (uuid_launch amb) = true ->
  engine_accepts (InsertAttempt (uuid_attempt amb) (uuid_launch amb)) = true ->
  existsb (fun a => jseqb (a_id a) (uuid_attempt amb))
          (attempts (db (world st))) = false ->
  fst out
  = Redirect (baseUrl (config st) ++ lit "/static/player.html?attemptId="
              ++ uuid_attempt amb ++ lit "&courseId="
              ++ dt_course_id dispatchToken ++ lit "&mode=dispatch")
  /\ launches (db (world (snd out))) = launches (db (world st)) ++ [row]
  /\ attempts (db (world (snd out)))
     = attempts (db (world st))
       ++ [new_attempt (uuid_attempt amb) (uuid_launch amb) (db_now amb)]
  /\ is_dispatch (l_launch_data row) = true
  /\ l_lis_outcome_service_url row = None
  /\ outbox (world (snd out)) = outbox (world st)
  /\ dispatch_tokens (snd out) = dispatch_tokens st
  /\ (attempts_have_launches (db (world st)) ->
      attempts_have_launches (db (world (snd out)))).
Proof.
  cbv zeta. intros Ht Hf Hc Hcf Hcons Hil Hfresh Hia Hnew.
  rewrite (dispatchLaunch_runs amb uuid_user token qs st dispatchToken rest
             course others Ht Hf Hc Hcf Hcons Hil Hfresh Hia Hnew).
  cbn [fst snd world db outbox dispatch_tokens launches attempts
       with_launch with_attempt].
  repeat split.
  intros Hinv. apply attempts_have_launches_with_attempt.
  - now apply attempts_have_launches_with_launch.
  - cbn [with_launch launches new_attempt a_launch_id].
    rewrite existsb_app_last. cbn [l_id dispatch_row].
    now rewrite jseqb_refl, orb_true_r.
Qed.

End DispatchLaunch.

Lemma dispatchLaunch_refusals_witness :
  dispatchLaunch sample_ambient (lit "dddddddd-0000-4000-8000-000000000001")
    (lit "no-such-token") [] sample_site
  = (Send 404 (lit "Invalid or expired dispatch token"), sample_site).
Proof.
  exact (dispatchLaunch_refusals (sv := sample_services) (en := sample_engine)
           sample_ambient (lit "dddddddd-0000-4000-8000-000000000001")
           (lit "no-such-token") [] sample_site eq_refl).
Defined.

Lemma dispatchLaunch_creates_witness :
  fst (dispatchLaunch sample_ambient (lit "dddddddd-0000-4000-8000-000000000001")
         (lit "tok-1") [(lit "session_id", lit "session-10")] sample_site)
  = Redirect (lit "https://host/static/player.html?attemptId=44444444-4444-4444-8444-444444444444&courseId=22222222-2222-4222-8222-222222222222&mode=dispatch").
Proof.
  refine (proj1 (dispatchLaunch_creates
                   (sv := sample_services) (en := sample_engine)
                   sample_ambient (lit "dddddddd-0000-4000-8000-000000000001")
                   (lit "tok-1") [(lit "session_id", lit "session-10")]
                   sample_site sample_token [] sample_course []
                   _ _ _ _ _ _ _ _ _));
    vm_compute; reflexivity.
Defined.

Section DispatchCommit.
Context {rt : Runtime} {sv : Services} {en : Engine}.

Lemma filter_none {A} (f : A -> bool) (l : list A) :
  existsb f l = false -> filter f l = [].
Proof.
  induction l as [|x l IH]; [reflexivity|]. cbn [existsb filter].
  intros H. apply orb_false_iff in H. destruct H as [H1 H2].
  rewrite H1. now apply IH.
Qed.

(** X24. A commit on the attempt that a dispatch launch created never
    writes to an outcome service: whatever the commit carries, every
    request it adds is a JSON statement for the LRS. *)
Theorem dispatch_attempt_reports_to_lrs (amb : Ambient)
    (uuid_user token : jsstring) (qs : strmap) (st : Site)
    (dispatchToken : DispatchToken) (rest : list DispatchToken)
    (course : Course) (others : list Course)
    (amb' : Ambient) (cmiData : strmap) :
  let row := dispatch_row amb uuid_user token qs dispatchToken in
  let st' := snd (dispatchLaunch amb uuid_user token qs st) in
  let w'' := snd (commit (config st') amb' (uuid_attempt amb) cmiData (world st')) in
  engine_runs (SelectDispatchToken token) = true ->
  filter (fun dt => jseqb (dt_token dt) token && dt_active dt)
         (dispatch_tokens st) = dispatchToken :: rest ->
  engine_runs (SelectCourseLaunchPath (dt_course_id dispatchToken)) = true ->
  filter (fun c => jseqb (crs_id c) (dt_course_id dispatchToken) && crs_active c)
         (courses (db (world st))) = course :: others ->
  existsb (fun c => jseqb (c_id c) (dt_consumer_id dispatchToken))
          (consumers (db (world st))) = true ->
  engine_accepts (InsertLaunch row) = true ->
  fresh_launch (db (world st)) (uuid_launch amb) = true ->
  engine_accepts (InsertAttempt (uuid_attempt amb) (uuid_launch amb)) = true ->
  existsb (fun a => jseqb (a_id a) (uuid_attempt amb))
          (attempts (db (world st))) = false ->
  owning_launches (db (world st')) (uuid_attempt amb) = [row]
  /\ exists new,
       outbox w'' = outbox (world st) ++ new
       /\ forall req, In req new -> exists stmt, req_body req = JsonStatement stmt.
Proof.
  cbv zeta. intros Ht Hf Hc Hcf Hcons Hil Hfresh Hia Hnew.
  rewrite (dispatchLaunch_runs amb uuid_user token qs st dispatchToken rest
             course others Ht Hf Hc Hcf Hcons Hil Hfresh Hia Hnew).
  cbn [snd world config].
  set (row := dispatch_row amb uuid_user token qs dispatchToken).
  set (w' := mkWorld _ _).
  assert (Hown : owning_launches (db w') (uuid_attempt amb) = [row]).
  { unfold owning_launches, w'.
    cbn [db with_attempt with_launch attempts launches].
    rewrite filter_app, (filter_none _ _ Hnew).
    cbn [app filter].
    change (a_id (new_attempt (uuid_attempt amb) (uuid_launch amb) (db_now amb)))
      with (uuid_attempt amb).
    rewrite jseqb_refl. cbn [flat_map].
    change (a_launch_id (new_attempt (uuid_attempt amb) (uuid_launch amb)
                           (db_now amb)))
      with (uuid_launch amb).
    unfold fresh_launch in Hfresh. apply negb_true_iff in Hfresh.
    rewrite filter_app, (filter_none _ _ Hfresh).
    cbn [filter app]. change (l_id row) with (uuid_launch amb).
    now rewrite jseqb_refl. }
  split; [exact Hown|].
  destruct (commit_sends (config st) amb' (uuid_attempt amb) cmiData w')
    as (new & Ho & Hl & Hr).
  rewrite Hown in Hr. cbn [hd_error] in Hr.
  assert (Hjson : forall req, In req new ->
                    exists stmt, req_body req = JsonStatement stmt).
  { intros req Hin. destruct (Hr req Hin) as (launch & Hlaunch & Hb).
    injection Hlaunch as <-.
    destruct (req_body req) as [x|stmt]; [|now exists stmt].
    destruct Hb as (_ & Hu & _). discriminate Hu. }
  exists new. split; [exact Ho|exact Hjson].
Qed.

End DispatchCommit.

Lemma dispatch_attempt_reports_to_lrs_witness :
  owning_launches
    (db (world (snd (dispatchLaunch sample_ambient
                       (lit "dddddddd-0000-4000-8000-000000000001")
                       (lit "tok-1") [(lit "session_id", lit "session-10")]
                       sample_site))))
    (uuid_attempt sample_ambient)
  = [dispatch_row sample_ambient (lit "dddddddd-0000-4000-8000-000000000001")
       (lit "tok-1") [(lit "session_id", lit "session-10")] sample_token].
Proof.
  refine (proj1 (dispatch_attempt_reports_to_lrs
                   (sv := sample_services) (en := sample_engine)
                   sample_ambient (lit "dddddddd-0000-4000-8000-000000000001")
                   (lit "tok-1") [(lit "session_id", lit "session-10")]
                   sample_site sample_token [] sample_course []
                   sample_ambient [(lit "cmi.core.lesson_status", lit "completed")]
                   _ _ _ _ _ _ _ _ _));
    vm_compute; reflexivity.
Defined.

(** ** The dispatch package download *)

Section Download.
Context {rt : Runtime} {sv : Services} {en : Engine}.

Lemma filter_head_exists {A} (f : A -> bool) (l : list A) (x : A) (rest : list A) :
  filter f l = x :: rest -> In x l /\ f x = true.
Proof.
  intros H. assert (Hin : In x (filter f l)) by (rewrite H; now left).
  now apply filter_In in Hin.
Qed.

(** What the download does for an authenticated request once the course
    and the consumer are found. *)
Lemma downloadDispatch_runs (req : AdminRequest) (newToken rowId : jsstring)
    (now : Z) (courseId cid : jsstring) (st : Site)
    (course : Course) (others : list Course)
    (consumer : Consumer) (others' : list Consumer) :
  requireAuth req = Next ->
  truthy cid = true ->
  engine_runs (SelectCourseInfo courseId) = true ->
  filter (fun c => jseqb (crs_id c) courseId && crs_active c)
         (courses (db (world st))) = course :: others ->
  engine_runs (SelectActiveConsumer cid) = true ->
  filter (fun c => jseqb (c_id c) cid && c_active c)
         (consumers (db (world st))) = consumer :: others' ->
  engine_runs (SelectTokenFor cid courseId) = true ->
  match filter (fun dt => jseqb (dt_consumer_id dt) cid
                          && jseqb (dt_course_id dt) courseId && dt_active dt)
               (dispatch_tokens st) with
  | row :: _ =>
      downloadDispatch req newToken rowId now courseId (Some cid) st
      = (dispatch_attachment (config st) course (dt_token row) now, st)
  | [] =>
      engine_runs (InsertDispatchToken cid courseId newToken) = true ->
      existsb (fun dt => jseqb (dt_id dt) rowId || jseqb (dt_token dt) newToken)
              (dispatch_tokens st) = false ->
      downloadDispatch req newToken rowId now courseId (Some cid) st
      = (dispatch_attachment (config st) course newToken now,
         mkSite (world st)
           (dispatch_tokens st ++ [mkToken rowId cid courseId newToken true])
           (settings st) (config st))
  end.
Proof.
  intros Hauth Hcid Hci Hcf Hac Haf Htf.
  remember (downloadDispatch req newToken rowId now courseId (Some cid) st)
    as X eqn:EX.
  unfold downloadDispatch in EX. rewrite Hauth in EX.
  unfold downloadDispatch_try in EX.
  cbn [truthy_opt the] in EX. rewrite Hcid in EX. cbn [negb] in EX.
  unfold sbind at 1 in EX. unfold select_course_info, site_query in EX.
  rewrite Hci in EX. cbv beta iota in EX. rewrite Hcf in EX.
  unfold sbind at 1 in EX. unfold select_active_consumer, site_query in EX.
  rewrite Hac in EX. cbv beta iota in EX. rewrite Haf in EX.
  unfold sbind at 1 in EX. unfold select_token_for, site_query in EX.
  rewrite Htf in EX. cbv beta iota in EX.
  destruct (filter _ (dispatch_tokens st)) as [|row rest].
  - intros Hins Hfresh.
    unfold sbind at 1 in EX. unfold sbind at 1 in EX.
    unfold insert_dispatch_token, site_query in EX.
    rewrite Hins, Hfresh in EX.
    assert (Hc1 : existsb (fun c => jseqb (c_id c) cid)
                          (consumers (db (world st))) = true).
    { apply filter_head_exists in Haf. destruct Haf as [H1 H2].
      apply andb_true_iff in H2. apply existsb_exists. exists consumer.
      split; [exact H1|apply H2]. }
    assert (Hc2 : existsb (fun c => jseqb (crs_id c) courseId)
                          (courses (db (world st))) = true).
    { apply filter_head_exists in Hcf. destruct Hcf as [H1 H2].
      apply andb_true_iff in H2. apply existsb_exists. exists course.
      split; [exact H1|apply H2]. }
    rewrite Hc1, Hc2 in EX. cbn [negb orb] in EX.
    unfold sbind, read_config, sret in EX. cbn [config] in EX.
    exact EX.
  - unfold sbind, read_config, sret in EX. exact EX.
Qed.

(** X25. The download gets or creates the dispatch token of a consumer
    for a course.  When an active token exists the package carries it and
    nothing is written; otherwise one row is added with the new token.
    Either way a second download for the same consumer and course carries
    the same token and writes nothing, whatever new token it has at
    hand. *)
Theorem downloadDispatch_reuses_token (req : AdminRequest)
    (newToken rowId : jsstring) (now : Z) (courseId cid : jsstring) (st : Site)
    (course : Course) (others : list Course)
    (consumer : Consumer) (others' : list Consumer)
    (newToken' rowId' : jsstring) (now' : Z) :
  let existing :=
    filter (fun dt => jseqb (dt_consumer_id dt) cid
                      && jseqb (dt_course_id dt) courseId && dt_active dt)
           (dispatch_tokens st) in
  let out := downloadDispatch req newToken rowId now courseId (Some cid) st in
  requireAuth req = Next ->
  truthy cid = true ->
  engine_runs (SelectCourseInfo courseId) = true ->
  filter (fun c => jseqb (crs_id c) courseId && crs_active c)
         (courses (db (world st))) = course :: others ->
  engine_runs (SelectActiveConsumer cid) = true ->
  filter (fun c => jseqb (c_id c) cid && c_active c)
         (consumers (db (world st))) = consumer :: others' ->
  engine_runs (SelectTokenFor cid courseId) = true ->
  engine_runs (InsertDispatchToken cid courseId newToken) = true ->
  existsb (fun dt => jseqb (dt_id dt) rowId || jseqb (dt_token dt) newToken)
          (dispatch_tokens st) = false ->
  exists t,
    fst out = dispatch_attachment (config st) course t now
    /\ match existing with
       | row :: _ => t = dt_token row /\ snd out = st
       | [] => t = newToken
               /\ snd out
                  = mkSite (world st)
                      (dispatch_tokens st
                       ++ [mkToken rowId cid courseId newToken true])
                      (settings st) (config st)
       end
    /\ downloadDispatch req newToken' rowId' now' courseId (Some cid) (snd out)
       = (dispatch_attachment (config st) course t now', snd out).
Proof.
  cbv zeta. intros Hauth Hcid Hci Hcf Hac Haf Htf Hins Hfresh.
  pose proof (downloadDispatch_runs req newToken rowId now courseId cid st
                course others consumer others' Hauth Hcid Hci Hcf Hac Haf Htf)
    as H1.
  destruct (filter _ (dispatch_tokens st)) as [|row rest] eqn:Ee.
  - specialize (H1 Hins Hfresh). rewrite H1. cbn [fst snd].
    exists newToken. split; [reflexivity|]. split; [split; reflexivity|].
    set (st1 := mkSite _ _ _ _).
    pose proof (downloadDispatch_runs req newToken' rowId' now' courseId cid st1
                  course others consumer others' Hauth Hcid Hci Hcf Hac Haf Htf)
      as H2.
    unfold st1 in H2 at 1. cbn [dispatch_tokens] in H2.
    rewrite filter_app, Ee in H2. cbn [app filter dt_consumer_id dt_course_id
                                       dt_active] in H2.
    rewrite !jseqb_refl in H2. cbn [andb] in H2. exact H2.
  - rewrite H1. cbn [fst snd]. exists (dt_token row).
    split; [reflexivity|]. split; [split; reflexivity|].
    pose proof (downloadDispatch_runs req newToken' rowId' now' courseId cid st
                  course others consumer others' Hauth Hcid Hci Hcf Hac Haf Htf)
      as H2.
    rewrite Ee in H2. exact H2.
Qed.

Lemma filter_unique_token (l : list DispatchToken) (row : DispatchToken) :
  NoDup (map dt_token l) -> In row l -> dt_active row = true ->
  filter (fun dt => jseqb (dt_token dt) (dt_token row) && dt_active dt) l = [row].
Proof.
  induction l as [|x l IH]; intros Hnd Hin Hact; [destruct Hin|].
  cbn [map] in Hnd. inversion Hnd as [|? ? Hnotin Hnd']; subst.
  cbn [filter]. destruct Hin as [->|Hin].
  - rewrite jseqb_refl, Hact. cbn [andb]. f_equal.
    apply filter_unmatched. intros a Ha.
    apply andb_false_iff. left. apply jseqb_neq. intros Heq.
    apply Hnotin. rewrite <- Heq. now apply in_map.
  - assert (Hne : jseqb (dt_token x) (dt_token row) = false).
    { apply jseqb_neq. intros Heq. apply Hnotin. rewrite Heq. now apply in_map. }
    rewrite Hne. cbn [andb]. now apply IH.
Qed.

(** X26. The token that a downloaded package carries leads back to where
    it came from: in the table after the download, the active row of that
    token is one row, and it names the consumer and the course the package
    was made for; the tokens of the table stay distinct.  This is the row
    that the dispatch launch reads when the package is opened. *)
Theorem download_token_resolves (req : AdminRequest)
    (newToken rowId : jsstring) (now : Z) (courseId cid : jsstring) (st : Site)
    (course : Course) (others : list Course)
    (consumer : Consumer) (others' : list Consumer) :
  let out := downloadDispatch req newToken rowId now courseId (Some cid) st in
  tokens_unique st ->
  requireAuth req = Next ->
  truthy cid = true ->
  engine_runs (SelectCourseInfo courseId) = true ->
  filter (fun c => jseqb (crs_id c) courseId && crs_active c)
         (courses (db (world st))) = course :: others ->
  engine_runs (SelectActiveConsumer cid) = true ->
  filter (fun c => jseqb (c_id c) cid && c_active c)
         (consumers (db (world st))) = consumer :: others' ->
  engine_runs (SelectTokenFor cid courseId) = true ->
  engine_runs (InsertDispatchToken cid courseId newToken) = true ->
  existsb (fun dt => jseqb (dt_id dt) rowId || jseqb (dt_token dt) newToken)
          (dispatch_tokens st) = false ->
  exists t row,
    fst out = dispatch_attachment (config st) course t now
    /\ filter (fun dt => jseqb (dt_token dt) t && dt_active dt)
              (dispatch_tokens (snd out)) = [row]
    /\ dt_consumer_id row = cid /\ dt_course_id row = courseId
    /\ tokens_unique (snd out).
Proof.
  cbv zeta. intros Hu Hauth Hcid Hci Hcf Hac Haf Htf Hins Hfresh.
  pose proof (downloadDispatch_runs req newToken rowId now courseId cid st
                course others consumer others' Hauth Hcid Hci Hcf Hac Haf Htf)
    as H1.
  destruct (filter _ (dispatch_tokens st)) as [|row rest] eqn:Ee.
  - specialize (H1 Hins Hfresh). rewrite H1. cbn [fst snd dispatch_tokens].
    exists newToken, (mkToken rowId cid courseId newToken true).
    assert (Hold : forall dt, In dt (dispatch_tokens st) ->
                     jseqb (dt_token dt) newToken = false).
    { intros dt Hin. destruct (jseqb (dt_token dt) newToken) eqn:E; [|reflexivity].
      assert (existsb (fun dt => jseqb (dt_id dt) rowId
                                 || jseqb (dt_token dt) newToken)
                      (dispatch_tokens st) = true).
      { apply existsb_exists. exists dt. split; [exact Hin|].
        rewrite E. apply orb_true_r. }
      congruence. }
    split; [reflexivity|]. split.
    { rewrite filter_app, filter_unmatched.
      - cbn [filter dt_token dt_active app]. now rewrite jseqb_refl.
      - intros dt Hin. now rewrite (Hold dt Hin). }
    split; [reflexivity|]. split; [reflexivity|].
    unfold tokens_unique in *. cbn [dispatch_tokens].
    rewrite map_app. cbn [map dt_token].
    apply NoDup_app; [exact Hu|repeat constructor; intros []|].
    intros a Hin [<-|[]].
    apply in_map_iff in Hin. destruct Hin as (dt & Heq & Hin).
    specialize (Hold dt Hin). apply jseqb_neq in Hold. contradiction.
  - rewrite H1. cbn [fst snd].
    apply filter_head_exists in Ee. destruct Ee as [Hin Hrow].
    apply andb_true_iff in Hrow. destruct Hrow as [Hrow Hact].
    apply andb_true_iff in Hrow. destruct Hrow as [Hc1 Hc2].
    apply jseqb_eq in Hc1, Hc2.
    exists (dt_token row), row.
    split; [reflexivity|]. split; [now apply filter_unique_token|].
    split; [exact Hc1|]. split; [exact Hc2|exact Hu].
Qed.

End Download.

Lemma downloadDispatch_reuses_token_witness :
  exists t,
    fst (downloadDispatch sample_admin_request (lit "tok-2")
           (lit "cccccccc-0000-4000-8000-000000000002") 1700000400000
           (crs_id sample_course) (Some (c_id sample_consumer)) sample_site)
    = dispatch_attachment sample_config sample_course t 1700000400000
    /\ t = lit "tok-1".
Proof.
  pose proof
    (downloadDispatch_reuses_token (en := sample_engine)
       sample_admin_request (lit "tok-2")
       (lit "cccccccc-0000-4000-8000-000000000002") 1700000400000
       (crs_id sample_course) (c_id sample_consumer) sample_site
       sample_course [] sample_consumer []
       (lit "tok-3") (lit "cccccccc-0000-4000-8000-000000000003") 1700000500000
       ltac:(reflexivity) ltac:(reflexivity) ltac:(reflexivity)
       ltac:(vm_compute; reflexivity) ltac:(reflexivity)
       ltac:(vm_compute; reflexivity) ltac:(reflexivity) ltac:(reflexivity)
       ltac:(vm_compute; reflexivity)) as H.
  cbv zeta in H. destruct H as (t & H1 & H2 & _).
  exists t. split; [exact H1|]. exact (proj1 H2).
Defined.

Lemma download_token_resolves_witness :
  exists t row,
    filter (fun dt => jseqb (dt_token dt) t && dt_active dt)
           (dispatch_tokens
              (snd (downloadDispatch sample_admin_request (lit "tok-2")
                      (lit "cccccccc-0000-4000-8000-000000000002") 1700000400000
                      (crs_id sample_course) (Some (c_id sample_consumer))
                      sample_site)))
    = [row]
    /\ dt_consumer_id row = c_id sample_consumer
    /\ dt_course_id row = crs_id sample_course.
Proof.
  pose proof
    (download_token_resolves (en := sample_engine)
       sample_admin_request (lit "tok-2")
       (lit "cccccccc-0000-4000-8000-000000000002") 1700000400000
       (crs_id sample_course) (c_id sample_consumer) sample_site
       sample_course [] sample_consumer []
       ltac:(repeat constructor; intros [])
       ltac:(reflexivity) ltac:(reflexivity) ltac:(reflexivity)
       ltac:(vm_compute; reflexivity) ltac:(reflexivity)
       ltac:(vm_compute; reflexivity) ltac:(reflexivity) ltac:(reflexivity)
       ltac:(vm_compute; reflexivity)) as H.
  cbv zeta in H. destruct H as (t & row & _ & H1 & H2 & H3 & _).
  exists t, row. repeat split; assumption.
Defined.

(** X27. The file name of the download is the title with every character
    that is not an ASCII letter or digit replaced by an underscore,
    followed by [_dispatch.zip]: whatever the title, the name holds no
    quote, line break or separator, and the Content-Disposition header has
    its two double quotes only. *)
Theorem download_filename_safe (cfg : Config) (course : Course)
    (token : jsstring) (now : Z) :
  exists name,
    dispatch_attachment cfg course token now
    = Attachment (lit "application/zip")
        (tpl "attachment; filename=`" ++ name ++ tpl "`")
        (generateDispatchPackage (crs_title course)
           (baseUrl cfg ++ lit "/dispatch/launch/" ++ token) now)
    /\ name = safe_name (crs_title course) ++ lit "_dispatch.zip"
    /\ length name = (length (crs_title course) + 13)%nat
    /\ Forall (fun c => in_range 97 122 c || in_range 65 90 c
                        || in_range 48 57 c || (c =? 95) || (c =? 46) = true)
              name
    /\ count_code 34 (tpl "attachment; filename=`" ++ name ++ tpl "`") = 2%nat.
Proof.
  exists (safe_name (crs_title course) ++ lit "_dispatch.zip").
  split; [reflexivity|]. split; [reflexivity|].
  assert (Hsafe : Forall (fun c => in_range 97 122 c || in_range 65 90 c
                                   || in_range 48 57 c || (c =? 95) || (c =? 46)
                                   = true)
                         (safe_name (crs_title course))).
  { unfold safe_name. apply Forall_map, Forall_forall. intros c _.
    destruct (in_range 97 122 c || in_range 65 90 c || in_range 48 57 c) eqn:E.
    - rewrite E. reflexivity.
    - reflexivity. }
  assert (Hzip : Forall (fun c => in_range 97 122 c || in_range 65 90 c
                                  || in_range 48 57 c || (c =? 95) || (c =? 46)
                                  = true)
                        (lit "_dispatch.zip")).
  { repeat (apply Forall_cons; [reflexivity|]). apply Forall_nil. }
  split.
  { rewrite length_app. unfold safe_name. rewrite length_map. reflexivity. }
  split; [apply Forall_app; now split|].
  assert (H0 : count_code 34 (safe_name (crs_title course)) = 0%nat).
  { unfold count_code. apply count_occ_not_In. intros Hin.
    rewrite Forall_forall in Hsafe. specialize (Hsafe 34 Hin).
    discriminate Hsafe. }
  rewrite count_code_app, count_code_app, count_code_app, H0.
  reflexivity.
Qed.

(** ** Reading an attempt back *)

Section ReadBack.
Context {rt : Runtime} {sv : Services} {en : Engine}.

Lemma filter_map_same_id (id : jsstring) (f : Attempt -> Attempt)
    (l : list Attempt) :
  (forall a, a_id (f a) = a_id a) ->
  filter (fun a => jseqb (a_id a) id)
         (map (fun a => if jseqb (a_id a) id then f a else a) l)
  = map f (filter (fun a => jseqb (a_id a) id) l).
Proof.
  intros Hf. induction l as [|a l IH]; [reflexivity|].
  cbn [map filter]. destruct (jseqb (a_id a) id) eqn:E.
  - rewrite Hf, E. cbn [map]. now rewrite IH.
  - rewrite E. exact IH.
Qed.

(** X28. What a commit saves is what the player gets back: after a commit
    that the engine runs, the GET of the attempt answers with the
    committed CMI data, the derived completion status and the score as
    its column holds it, the text of the derived score rounded to two
    decimal places, or null.  For an identifier that no attempt has, the
    GET answers 404. *)
Theorem getAttempt_after_commit (attemptId : jsstring) (st : Site) :
  engine_runs (SelectAttempt attemptId) = true ->
  (filter (fun a => jseqb (a_id a) attemptId) (attempts (db (world st))) = [] ->
   getAttempt attemptId st
   = (AttemptRefused (SendJson 404 [(lit "error", JStr (lit "Attempt not found"))]),
      st))
  /\ (forall (amb : Ambient) (cmiData : strmap) (a : Attempt) (rest : list Attempt),
        engine_accepts (UpdateAttemptCommit cmiData (spec_score cmiData)
                          (spec_completion cmiData) (spec_success cmiData)
                          (prop_get cmiData (lit "cmi.core.total_time")) attemptId)
        = true ->
        filter (fun a => jseqb (a_id a) attemptId) (attempts (db (world st)))
        = a :: rest ->
        fst (getAttempt attemptId
               (mkSite (snd (commit (config st) amb attemptId cmiData (world st)))
                       (dispatch_tokens st) (settings st) (config st)))
        = AttemptRow (mkView attemptId (json_of_strmap cmiData)
                             (spec_completion cmiData)
                             (option_map numeric_text (stored_score cmiData)))).
Proof.
  intros Hsel. split.
  - intros Hnone. unfold getAttempt, select_attempt, site_query.
    rewrite Hsel, Hnone. reflexivity.
  - intros amb cmiData a rest Hupd Hf.
    unfold getAttempt, select_attempt, site_query. rewrite Hsel.
    cbn [world]. rewrite commit_world, commit_try_db by exact Hupd.
    cbn [attempts].
    rewrite (filter_map_same_id attemptId (committed cmiData (db_now amb)))
      by reflexivity.
    rewrite Hf. cbn [map fst committed a_id a_cmi_data a_completion_status a_score].
    apply filter_head_exists in Hf. destruct Hf as [_ Hid].
    apply jseqb_eq in Hid. now rewrite Hid.
Qed.

End ReadBack.

Lemma getAttempt_after_commit_witness :
  fst (getAttempt (lit "77777777-7777-4777-8777-777777777777")
         (mkSite (snd (commit sample_config sample_ambient
                         (lit "77777777-7777-4777-8777-777777777777")
                         [(lit "cmi.core.score.raw", lit "1");
                          (lit "cmi.core.score.max", lit "3")]
                         sample_world))
                 [sample_token] [] sample_config))
  = AttemptRow (mkView (lit "77777777-7777-4777-8777-777777777777")
                  (json_of_strmap [(lit "cmi.core.score.raw", lit "1");
                                   (lit "cmi.core.score.max", lit "3")])
                  (lit "incomplete") (Some (lit "33.33"))).
Proof.
  pose proof (proj2 (getAttempt_after_commit (sv := sample_services)
                       (en := sample_engine)
                       (lit "77777777-7777-4777-8777-777777777777") sample_site
                       eq_refl)
                sample_ambient [(lit "cmi.core.score.raw", lit "1");
                                (lit "cmi.core.score.max", lit "3")]
                (new_attempt (lit "77777777-7777-4777-8777-777777777777")
                   (l_id sample_lti_launch) 1700000000) []
                ltac:(vm_compute; reflexivity) eq_refl) as H.
  refine (eq_trans H _). vm_compute. reflexivity.
Defined.

(** ** Removing a consumer *)

Section RemoveConsumer.
Context {rt : Runtime} {sv : Services} {en : Engine}.

(** X29. A consumer that an administrator has deleted can no longer
    launch: the delete answers 200 and marks the consumer inactive, and
    from then on every LTI launch under its key is answered 401 as an
    unknown consumer, before its signature is looked at; a request that
    the gate stops deletes nothing. *)
Theorem deleted_consumer_cannot_launch (req : AdminRequest) (id : jsstring)
    (st : Site) (amb : Ambient) (launchData : strmap) (key : jsstring) :
  let out := deleteConsumer req id st in
  requireAuth req = Next ->
  engine_runs (DeactivateConsumer id) = true ->
  prop_get launchData (lit "oauth_consumer_key") = Some key ->
  truthy key = true ->
  (forall c, In c (consumers (db (world st))) ->
             c_lti_consumer_key c = key -> c_id c = id) ->
  engine_accepts (SelectConsumerByKey key) = true ->
  fst out = SendJson 200 [(lit "success", JBool true)]
  /\ ltiLaunch (config (snd out)) amb launchData (world (snd out))
     = (Send 401 (lit "Unknown consumer"), world (snd out))
  /\ (forall req', requireAuth req' <> Next ->
        snd (deleteConsumer req' id st) = st).
Proof.
  cbv zeta. intros Hauth Hrun Hkey Htk Hown Hacc.
  split; [|split].
  - unfold deleteConsumer. rewrite Hauth.
    unfold deactivate_consumer, site_query. rewrite Hrun. reflexivity.
  - unfold deleteConsumer. rewrite Hauth.
    unfold deactivate_consumer, site_query. rewrite Hrun.
    cbn [fst snd world config db].
    remember (ltiLaunch _ _ _ _) as X eqn:EX.
    unfold ltiLaunch, ltiLaunch_try in EX.
    rewrite Hkey in EX. cbn [truthy_opt the] in EX.
    rewrite Htk in EX. cbn [negb] in EX.
    unfold bind at 1 in EX. unfold select_consumer_by_key, query in EX.
    rewrite Hacc in EX. cbv beta iota in EX. cbn [db outbox consumers] in EX.
    rewrite filter_unmatched in EX.
    + rewrite EX. reflexivity.
    + intros c Hin. apply in_map_iff in Hin. destruct Hin as (c0 & Hc & Hin0).
      destruct (jseqb (c_id c0) id) eqn:Eid.
      * subst c. cbn [c_active]. apply andb_false_r.
      * subst c. apply andb_false_iff. left. apply jseqb_neq. intros Heq.
        apply jseqb_neq in Eid. apply Eid. now apply Hown.
  - intros req' Hno. unfold deleteConsumer.
    destruct (requireAuth req'); [contradiction|reflexivity].
Qed.

End RemoveConsumer.

Lemma deleted_consumer_cannot_launch_witness :
  ltiLaunch sample_config sample_ambient sample_launchData
    (world (snd (deleteConsumer sample_admin_request (c_id sample_consumer)
                   sample_site)))
  = (Send 401 (lit "Unknown consumer"),
     world (snd (deleteConsumer sample_admin_request (c_id sample_consumer)
                   sample_site))).
Proof.
  pose proof
    (deleted_consumer_cannot_launch (rt := sample_runtime)
       (sv := sample_services) (en := sample_engine)
       sample_admin_request (c_id sample_consumer) sample_site sample_ambient
       sample_launchData (lit "key_abc")
       ltac:(reflexivity) ltac:(reflexivity) ltac:(reflexivity)
       ltac:(reflexivity)
       ltac:(intros c [<-|[]] _; reflexivity)
       ltac:(reflexivity)) as H.
  cbv zeta in H. exact (proj1 (proj2 H)).
Defined.

(** ** The saved base URL *)

Lemma prop_set_keys (o : strmap) (k v : jsstring) :
  map fst (prop_set o k v)
  = if existsb (fun kv => jseqb (fst kv) k) o then map fst o
    else map fst o ++ [k].
Proof.
  induction o as [|[k' v'] o IH]; [reflexivity|].
  cbn [prop_set existsb fst]. destruct (jseqb k' k) eqn:E.
  - reflexivity.
  - cbn [orb map fst]. rewrite IH.
    destruct (existsb _ o); reflexivity.
Qed.

Lemma prop_set_wf (o : strmap) (k v : jsstring) :
  wf_strmap o -> wf_strmap (prop_set o k v).
Proof.
  unfold wf_strmap. intros H. rewrite prop_set_keys.
  destruct (existsb _ o) eqn:E; [exact H|].
  apply NoDup_app; [exact H|repeat constructor; intros []|].
  intros a Hin [<-|[]].
  apply in_map_iff in Hin. destruct Hin as (kv & Heq & Hin).
  assert (existsb (fun kv => jseqb (fst kv) k) o = true).
  { apply existsb_exists. exists kv. split; [exact Hin|].
    rewrite Heq. apply jseqb_refl. }
  congruence.
Qed.

Lemma load_without_base_url (rows : strmap) (c : Config) :
  (forall kv, In kv rows -> jseqb (fst kv) (lit "base_url") = false) ->
  fold_left (fun c row =>
               if jseqb (fst row) (lit "base_url")
               then updateRuntimeConfig
                      (mkUpdates (Some (snd row)) None None None) c
               else c) rows c = c.
Proof.
  revert c. induction rows as [|row rows IH]; intros c H; [reflexivity|].
  cbn [fold_left]. rewrite (H row) by now left.
  apply IH. intros kv Hin. apply H. now right.
Qed.

Lemma load_base_url (rows : strmap) (url : jsstring) (c : Config) :
  wf_strmap rows -> prop_get rows (lit "base_url") = Some url ->
  truthy url = true ->
  fold_left (fun c row =>
               if jseqb (fst row) (lit "base_url")
               then updateRuntimeConfig
                      (mkUpdates (Some (snd row)) None None None) c
               else c) rows c
  = mkConfig url (xapi_endpoint c) (xapi_key c) (xapi_secret c).
Proof.
  revert c. induction rows as [|[k v] rows IH]; intros c Hwf Hget Hurl;
    [discriminate|].
  cbn [prop_get] in Hget. cbn [fold_left fst snd].
  unfold wf_strmap in Hwf. cbn [map fst] in Hwf.
  inversion Hwf as [|? ? Hnotin Hwf']; subst.
  destruct (jseqb k (lit "base_url")) eqn:E.
  - injection Hget as ->. apply jseqb_eq in E. subst k.
    rewrite load_without_base_url.
    + unfold updateRuntimeConfig.
      cbn [upd_baseUrl upd_xapiEndpoint upd_xapiKey upd_xapiSecret
           truthy_opt the]. now rewrite Hurl.
    + intros kv Hin. apply jseqb_neq. intros Heq. apply Hnotin.
      rewrite <- Heq. now apply in_map.
  - rewrite (IH c Hwf' Hget Hurl). reflexivity.
Qed.

Section Settings.
Context {rt : Runtime} {sv : Services} {en : Engine}.

(** X30. A base URL that an administrator saves is in force at once and
    survives a restart: the PUT answers 200, stores the URL under
    [base_url] and sets the base URL of the running configuration, and
    [loadSettings] on a fresh configuration reads the same base URL back
    from the table, the xAPI settings staying as they start.  A text that
    the URL class refuses is answered 400 and changes nothing. *)
Theorem settings_survive_restart (req : AdminRequest) (url : jsstring)
    (st : Site) (fresh : Config) :
  let out := putSettings req (Some url) st in
  requireAuth req = Next ->
  truthy url = true ->
  wf_strmap (settings st) ->
  (URL_parse url = None ->
   out = (SendJson 400 [(lit "error", JStr (lit "Invalid URL format"))], st))
  /\ (URL_parse url <> None ->
      engine_runs (UpsertBaseUrl url) = true ->
      engine_runs SelectSettings = true ->
      fst out = SendJson 200 [(lit "success", JBool true)]
      /\ baseUrl (config (snd out)) = url
      /\ prop_get (settings (snd out)) (lit "base_url") = Some url
      /\ config (loadSettings
                   (mkSite (world (snd out)) (dispatch_tokens (snd out))
                           (settings (snd out)) fresh))
         = mkConfig url (xapi_endpoint fresh) (xapi_key fresh)
                    (xapi_secret fresh)).
Proof.
  cbv zeta. intros Hauth Hurl Hwf.
  unfold putSettings. rewrite Hauth. cbn [truthy_opt the]. rewrite Hurl.
  split.
  - intros ->. reflexivity.
  - intros Hp Hup Hsel.
    destruct (URL_parse url) as [u|]; [|congruence].
    unfold upsert_base_url, site_query. rewrite Hup.
    cbn [fst snd world dispatch_tokens settings config].
    split; [reflexivity|].
    split.
    { unfold updateRuntimeConfig. cbn [upd_baseUrl truthy_opt the baseUrl].
      now rewrite Hurl. }
    split; [apply prop_get_set_eq|].
    unfold loadSettings. rewrite Hsel. cbn [config settings].
    apply load_base_url; [now apply prop_set_wf|apply prop_get_set_eq|exact Hurl].
Qed.

End Settings.

Lemma settings_survive_restart_witness :
  putSettings sample_admin_request (Some (lit "not a url")) sample_site
  = (SendJson 400 [(lit "error", JStr (lit "Invalid URL format"))], sample_site)
  /\ baseUrl (config (snd (putSettings sample_admin_request
                             (Some (lit "https://scorm.example.org"))
                             sample_site)))
     = lit "https://scorm.example.org".
Proof.
  split.
  - exact (proj1 (settings_survive_restart (rt := sample_runtime)
                    (en := sample_engine) sample_admin_request
                    (lit "not a url") sample_site sample_config
                    eq_refl eq_refl (NoDup_nil _)) eq_refl).
  - pose proof (proj2 (settings_survive_restart (rt := sample_runtime)
                         (en := sample_engine) sample_admin_request
                         (lit "https://scorm.example.org") sample_site
                         sample_config eq_refl eq_refl (NoDup_nil _))
                  ltac:(vm_compute; discriminate) eq_refl eq_refl) as H.
    exact (proj1 (proj2 H)).
Defined.
